(** * CodeCanvas whiteboard: the vector-scene engine

    A shallow embedding of the whiteboard component (the [Whiteboard]
    React component): its coordinate mapper, history stacks, clipboard
    operations, hit-testing and the pointer/keyboard handlers.

    JavaScript numbers are modelled as mathematical reals, so every
    statement below is exact arithmetic; a string is the sequence of the
    UTF-8 bytes of its text; the component's state hooks are one
    record [State], and a handler is a function from the state of the render
    in which it was created to the state after its queued updates. *)

From Stdlib Require Import Reals Lra Lia ZArith List Bool String.
Import ListNotations.
Local Open Scope R_scope.

(** ** Host (JavaScript) primitives *)

(** [a < b] and [a <= b] on numbers, as booleans. *)
Definition Rltb (a b : R) : bool := if Rlt_dec a b then true else false.
Definition Rleb (a b : R) : bool := if Rle_dec a b then true else false.

(** Truthiness of a number ([0] is falsy) and of a string (the empty string
    is falsy). *)
Definition truthyNum (r : R) : bool := if Req_dec_T r 0 then false else true.
Definition truthyStr (s : string) : bool := negb (String.eqb s EmptyString).

(** [Math.round]: the nearest integer, ties towards plus infinity. *)
Definition Math_round (v : R) : R := IZR (Int_part (v + / 2)).

(** [Math.atan2 y x] on finite arguments. *)
Definition Math_atan2 (y x : R) : R :=
  if Rltb 0 x then atan (y / x)
  else if Rltb x 0 then
    (if Rleb 0 y then atan (y / x) + PI else atan (y / x) - PI)
  else if Rltb 0 y then PI / 2
  else if Rltb y 0 then - (PI / 2)
  else 0.

(** [arr.slice(-n)]: the last [n] elements. *)
Definition sliceLast {A : Type} (n : nat) (l : list A) : list A :=
  skipn (List.length l - n) l.

(** [arr[arr.length - 1]], [undefined] on the empty array. *)
Definition lastOpt {A : Type} (l : list A) : option A :=
  match rev l with
  | [] => None
  | a :: _ => Some a
  end.

(** ** Data model *)

Inductive Tool : Type :=
| TMove | TPencil | TEraser | TRect | TRoundRect | TCircle | TLine | TArrow
| TDashedLine | TText | THand.

Definition Tool_eqb (a b : Tool) : bool :=
  match a, b with
  | TMove, TMove | TPencil, TPencil | TEraser, TEraser | TRect, TRect
  | TRoundRect, TRoundRect | TCircle, TCircle | TLine, TLine
  | TArrow, TArrow | TDashedLine, TDashedLine | TText, TText
  | THand, THand => true
  | _, _ => false
  end.

Inductive ResizeHandle : Type :=
| Hnw | Hn | Hne | He | Hse | Hs | Hsw | Hw.

Module Point.
Record t := mk { x : R; y : R }.
End Point.

Module Shape.
Record t := mk {
  id : string;
  tool : Tool;
  points : list Point.t;
  color : string;
  size : R;
  isFilled : bool;
  isLocked : option bool;
  rotation : option R;
  text : option string
}.

Definition setId (v : string) (s : t) : t :=
  mk v (tool s) (points s) (color s) (size s) (isFilled s) (isLocked s)
     (rotation s) (text s).
Definition setPoints (v : list Point.t) (s : t) : t :=
  mk (id s) (tool s) v (color s) (size s) (isFilled s) (isLocked s)
     (rotation s) (text s).
Definition setIsLocked (v : option bool) (s : t) : t :=
  mk (id s) (tool s) (points s) (color s) (size s) (isFilled s) v
     (rotation s) (text s).
Definition setRotation (v : option R) (s : t) : t :=
  mk (id s) (tool s) (points s) (color s) (size s) (isFilled s)
     (isLocked s) v (text s).

(** [s.isLocked] used as a condition: absent and [false] are falsy. *)
Definition locked (s : t) : bool :=
  match isLocked s with Some b => b | None => false end.
End Shape.

Module TextInput.
Record t := mk { visible : bool; x : R; y : R; value : string }.
End TextInput.

Definition MAX_HISTORY : nat := 50.
Definition MIN_SCALE : R := 5 / 100.
Definition MAX_SCALE : R := 20.

(** ** Component state (the [useState] hooks) *)

Record State := mkState {
  shapes : list Shape.t;
  tool : Tool;
  previousTool : Tool;
  color : string;
  brushSize : R;
  isFilled : bool;
  snapToGrid : bool;
  scale : R;
  offset : Point.t;
  isPanning : bool;
  isSpacePressed : bool;
  isDrawing : bool;
  isDragging : bool;
  isResizing : bool;
  isRotating : bool;
  activeResizeHandle : option ResizeHandle;
  selectedShapeId : option string;
  hoveredShapeId : option string;
  startPos : Point.t;
  currentPos : Point.t;
  isShiftPressed : bool;
  isSidebarOpen : bool;
  clipboard : option Shape.t;
  gridSpacing : R;
  undoStack : list (list Shape.t);
  redoStack : list (list Shape.t);
  textInput : TextInput.t
}.

Definition setShapes (v : list Shape.t) (st : State) : State :=
  mkState v (tool st) (previousTool st) (color st) (brushSize st)
    (isFilled st) (snapToGrid st) (scale st) (offset st) (isPanning st)
    (isSpacePressed st) (isDrawing st) (isDragging st) (isResizing st)
    (isRotating st) (activeResizeHandle st) (selectedShapeId st)
    (hoveredShapeId st) (startPos st) (currentPos st) (isShiftPressed st)
    (isSidebarOpen st) (clipboard st) (gridSpacing st) (undoStack st)
    (redoStack st) (textInput st).

Definition setTool (v : Tool) (st : State) : State :=
  mkState (shapes st) v (previousTool st) (color st) (brushSize st)
    (isFilled st) (snapToGrid st) (scale st) (offset st) (isPanning st)
    (isSpacePressed st) (isDrawing st) (isDragging st) (isResizing st)
    (isRotating st) (activeResizeHandle st) (selectedShapeId st)
    (hoveredShapeId st) (startPos st) (currentPos st) (isShiftPressed st)
    (isSidebarOpen st) (clipboard st) (gridSpacing st) (undoStack st)
    (redoStack st) (textInput st).

Definition setPreviousTool (v : Tool) (st : State) : State :=
  mkState (shapes st) (tool st) v (color st) (brushSize st) (isFilled st)
    (snapToGrid st) (scale st) (offset st) (isPanning st) (isSpacePressed st)
    (isDrawing st) (isDragging st) (isResizing st) (isRotating st)
    (activeResizeHandle st) (selectedShapeId st) (hoveredShapeId st)
    (startPos st) (currentPos st) (isShiftPressed st) (isSidebarOpen st)
    (clipboard st) (gridSpacing st) (undoStack st) (redoStack st)
    (textInput st).

Definition setColor (v : string) (st : State) : State :=
  mkState (shapes st) (tool st) (previousTool st) v (brushSize st)
    (isFilled st) (snapToGrid st) (scale st) (offset st) (isPanning st)
    (isSpacePressed st) (isDrawing st) (isDragging st) (isResizing st)
    (isRotating st) (activeResizeHandle st) (selectedShapeId st)
    (hoveredShapeId st) (startPos st) (currentPos st) (isShiftPressed st)
    (isSidebarOpen st) (clipboard st) (gridSpacing st) (undoStack st)
    (redoStack st) (textInput st).

Definition setBrushSize (v : R) (st : State) : State :=
  mkState (shapes st) (tool st) (previousTool st) (color st) v (isFilled st)
    (snapToGrid st) (scale st) (offset st) (isPanning st) (isSpacePressed st)
    (isDrawing st) (isDragging st) (isResizing st) (isRotating st)
    (activeResizeHandle st) (selectedShapeId st) (hoveredShapeId st)
    (startPos st) (currentPos st) (isShiftPressed st) (isSidebarOpen st)
    (clipboard st) (gridSpacing st) (undoStack st) (redoStack st)
    (textInput st).

Definition setIsFilled (v : bool) (st : State) : State :=
  mkState (shapes st) (tool st) (previousTool st) (color st) (brushSize st) v
    (snapToGrid st) (scale st) (offset st) (isPanning st) (isSpacePressed st)
    (isDrawing st) (isDragging st) (isResizing st) (isRotating st)
    (activeResizeHandle st) (selectedShapeId st) (hoveredShapeId st)
    (startPos st) (currentPos st) (isShiftPressed st) (isSidebarOpen st)
    (clipboard st) (gridSpacing st) (undoStack st) (redoStack st)
    (textInput st).

Definition setSnapToGrid (v : bool) (st : State) : State :=
  mkState (shapes st) (tool st) (previousTool st) (color st) (brushSize st)
    (isFilled st) v (scale st) (offset st) (isPanning st) (isSpacePressed st)
    (isDrawing st) (isDragging st) (isResizing st) (isRotating st)
    (activeResizeHandle st) (selectedShapeId st) (hoveredShapeId st)
    (startPos st) (currentPos st) (isShiftPressed st) (isSidebarOpen st)
    (clipboard st) (gridSpacing st) (undoStack st) (redoStack st)
    (textInput st).

Definition setScale (v : R) (st : State) : State :=
  mkState (shapes st) (tool st) (previousTool st) (color st) (brushSize st)
    (isFilled st) (snapToGrid st) v (offset st) (isPanning st)
    (isSpacePressed st) (isDrawing st) (isDragging st) (isResizing st)
    (isRotating st) (activeResizeHandle st) (selectedShapeId st)
    (hoveredShapeId st) (startPos st) (currentPos st) (isShiftPressed st)
    (isSidebarOpen st) (clipboard st) (gridSpacing st) (undoStack st)
    (redoStack st) (textInput st).

Definition setOffset (v : Point.t) (st : State) : State :=
  mkState (shapes st) (tool st) (previousTool st) (color st) (brushSize st)
    (isFilled st) (snapToGrid st) (scale st) v (isPanning st)
    (isSpacePressed st) (isDrawing st) (isDragging st) (isResizing st)
    (isRotating st) (activeResizeHandle st) (selectedShapeId st)
    (hoveredShapeId st) (startPos st) (currentPos st) (isShiftPressed st)
    (isSidebarOpen st) (clipboard st) (gridSpacing st) (undoStack st)
    (redoStack st) (textInput st).

Definition setIsPanning (v : bool) (st : State) : State :=
  mkState (shapes st) (tool st) (previousTool st) (color st) (brushSize st)
    (isFilled st) (snapToGrid st) (scale st) (offset st) v (isSpacePressed st)
    (isDrawing st) (isDragging st) (isResizing st) (isRotating st)
    (activeResizeHandle st) (selectedShapeId st) (hoveredShapeId st)
    (startPos st) (currentPos st) (isShiftPressed st) (isSidebarOpen st)
    (clipboard st) (gridSpacing st) (undoStack st) (redoStack st)
    (textInput st).

Definition setIsSpacePressed (v : bool) (st : State) : State :=
  mkState (shapes st) (tool st) (previousTool st) (color st) (brushSize st)
    (isFilled st) (snapToGrid st) (scale st) (offset st) (isPanning st) v
    (isDrawing st) (isDragging st) (isResizing st) (isRotating st)
    (activeResizeHandle st) (selectedShapeId st) (hoveredShapeId st)
    (startPos st) (currentPos st) (isShiftPressed st) (isSidebarOpen st)
    (clipboard st) (gridSpacing st) (undoStack st) (redoStack st)
    (textInput st).

Definition setIsDrawing (v : bool) (st : State) : State :=
  mkState (shapes st) (tool st) (previousTool st) (color st) (brushSize st)
    (isFilled st) (snapToGrid st) (scale st) (offset st) (isPanning st)
    (isSpacePressed st) v (isDragging st) (isResizing st) (isRotating st)
    (activeResizeHandle st) (selectedShapeId st) (hoveredShapeId st)
    (startPos st) (currentPos st) (isShiftPressed st) (isSidebarOpen st)
    (clipboard st) (gridSpacing st) (undoStack st) (redoStack st)
    (textInput st).

Definition setIsDragging (v : bool) (st : State) : State :=
  mkState (shapes st) (tool st) (previousTool st) (color st) (brushSize st)
    (isFilled st) (snapToGrid st) (scale st) (offset st) (isPanning st)
    (isSpacePressed st) (isDrawing st) v (isResizing st) (isRotating st)
    (activeResizeHandle st) (selectedShapeId st) (hoveredShapeId st)
    (startPos st) (currentPos st) (isShiftPressed st) (isSidebarOpen st)
    (clipboard st) (gridSpacing st) (undoStack st) (redoStack st)
    (textInput st).

Definition setIsResizing (v : bool) (st : State) : State :=
  mkState (shapes st) (tool st) (previousTool st) (color st) (brushSize st)
    (isFilled st) (snapToGrid st) (scale st) (offset st) (isPanning st)
    (isSpacePressed st) (isDrawing st) (isDragging st) v (isRotating st)
    (activeResizeHandle st) (selectedShapeId st) (hoveredShapeId st)
    (startPos st) (currentPos st) (isShiftPressed st) (isSidebarOpen st)
    (clipboard st) (gridSpacing st) (undoStack st) (redoStack st)
    (textInput st).

Definition setIsRotating (v : bool) (st : State) : State :=
  mkState (shapes st) (tool st) (previousTool st) (color st) (brushSize st)
    (isFilled st) (snapToGrid st) (scale st) (offset st) (isPanning st)
    (isSpacePressed st) (isDrawing st) (isDragging st) (isResizing st) v
    (activeResizeHandle st) (selectedShapeId st) (hoveredShapeId st)
    (startPos st) (currentPos st) (isShiftPressed st) (isSidebarOpen st)
    (clipboard st) (gridSpacing st) (undoStack st) (redoStack st)
    (textInput st).

Definition setActiveResizeHandle (v : option ResizeHandle) (st : State) : State :=
  mkState (shapes st) (tool st) (previousTool st) (color st) (brushSize st)
    (isFilled st) (snapToGrid st) (scale st) (offset st) (isPanning st)
    (isSpacePressed st) (isDrawing st) (isDragging st) (isResizing st)
    (isRotating st) v (selectedShapeId st) (hoveredShapeId st) (startPos st)
    (currentPos st) (isShiftPressed st) (isSidebarOpen st) (clipboard st)
    (gridSpacing st) (undoStack st) (redoStack st) (textInput st).

Definition setSelectedShapeId (v : option string) (st : State) : State :=
  mkState (shapes st) (tool st) (previousTool st) (color st) (brushSize st)
    (isFilled st) (snapToGrid st) (scale st) (offset st) (isPanning st)
    (isSpacePressed st) (isDrawing st) (isDragging st) (isResizing st)
    (isRotating st) (activeResizeHandle st) v (hoveredShapeId st)
    (startPos st) (currentPos st) (isShiftPressed st) (isSidebarOpen st)
    (clipboard st) (gridSpacing st) (undoStack st) (redoStack st)
    (textInput st).

Definition setHoveredShapeId (v : option string) (st : State) : State :=
  mkState (shapes st) (tool st) (previousTool st) (color st) (brushSize st)
    (isFilled st) (snapToGrid st) (scale st) (offset st) (isPanning st)
    (isSpacePressed st) (isDrawing st) (isDragging st) (isResizing st)
    (isRotating st) (activeResizeHandle st) (selectedShapeId st) v
    (startPos st) (currentPos st) (isShiftPressed st) (isSidebarOpen st)
    (clipboard st) (gridSpacing st) (undoStack st) (redoStack st)
    (textInput st).

Definition setStartPos (v : Point.t) (st : State) : State :=
  mkState (shapes st) (tool st) (previousTool st) (color st) (brushSize st)
    (isFilled st) (snapToGrid st) (scale st) (offset st) (isPanning st)
    (isSpacePressed st) (isDrawing st) (isDragging st) (isResizing st)
    (isRotating st) (activeResizeHandle st) (selectedShapeId st)
    (hoveredShapeId st) v (currentPos st) (isShiftPressed st)
    (isSidebarOpen st) (clipboard st) (gridSpacing st) (undoStack st)
    (redoStack st) (textInput st).

Definition setCurrentPos (v : Point.t) (st : State) : State :=
  mkState (shapes st) (tool st) (previousTool st) (color st) (brushSize st)
    (isFilled st) (snapToGrid st) (scale st) (offset st) (isPanning st)
    (isSpacePressed st) (isDrawing st) (isDragging st) (isResizing st)
    (isRotating st) (activeResizeHandle st) (selectedShapeId st)
    (hoveredShapeId st) (startPos st) v (isShiftPressed st) (isSidebarOpen st)
    (clipboard st) (gridSpacing st) (undoStack st) (redoStack st)
    (textInput st).

Definition setIsShiftPressed (v : bool) (st : State) : State :=
  mkState (shapes st) (tool st) (previousTool st) (color st) (brushSize st)
    (isFilled st) (snapToGrid st) (scale st) (offset st) (isPanning st)
    (isSpacePressed st) (isDrawing st) (isDragging st) (isResizing st)
    (isRotating st) (activeResizeHandle st) (selectedShapeId st)
    (hoveredShapeId st) (startPos st) (currentPos st) v (isSidebarOpen st)
    (clipboard st) (gridSpacing st) (undoStack st) (redoStack st)
    (textInput st).

Definition setIsSidebarOpen (v : bool) (st : State) : State :=
  mkState (shapes st) (tool st) (previousTool st) (color st) (brushSize st)
    (isFilled st) (snapToGrid st) (scale st) (offset st) (isPanning st)
    (isSpacePressed st) (isDrawing st) (isDragging st) (isResizing st)
    (isRotating st) (activeResizeHandle st) (selectedShapeId st)
    (hoveredShapeId st) (startPos st) (currentPos st) (isShiftPressed st) v
    (clipboard st) (gridSpacing st) (undoStack st) (redoStack st)
    (textInput st).

Definition setClipboard (v : option Shape.t) (st : State) : State :=
  mkState (shapes st) (tool st) (previousTool st) (color st) (brushSize st)
    (isFilled st) (snapToGrid st) (scale st) (offset st) (isPanning st)
    (isSpacePressed st) (isDrawing st) (isDragging st) (isResizing st)
    (isRotating st) (activeResizeHandle st) (selectedShapeId st)
    (hoveredShapeId st) (startPos st) (currentPos st) (isShiftPressed st)
    (isSidebarOpen st) v (gridSpacing st) (undoStack st) (redoStack st)
    (textInput st).

Definition setGridSpacing (v : R) (st : State) : State :=
  mkState (shapes st) (tool st) (previousTool st) (color st) (brushSize st)
    (isFilled st) (snapToGrid st) (scale st) (offset st) (isPanning st)
    (isSpacePressed st) (isDrawing st) (isDragging st) (isResizing st)
    (isRotating st) (activeResizeHandle st) (selectedShapeId st)
    (hoveredShapeId st) (startPos st) (currentPos st) (isShiftPressed st)
    (isSidebarOpen st) (clipboard st) v (undoStack st) (redoStack st)
    (textInput st).

Definition setUndoStack (v : list (list Shape.t)) (st : State) : State :=
  mkState (shapes st) (tool st) (previousTool st) (color st) (brushSize st)
    (isFilled st) (snapToGrid st) (scale st) (offset st) (isPanning st)
    (isSpacePressed st) (isDrawing st) (isDragging st) (isResizing st)
    (isRotating st) (activeResizeHandle st) (selectedShapeId st)
    (hoveredShapeId st) (startPos st) (currentPos st) (isShiftPressed st)
    (isSidebarOpen st) (clipboard st) (gridSpacing st) v (redoStack st)
    (textInput st).

Definition setRedoStack (v : list (list Shape.t)) (st : State) : State :=
  mkState (shapes st) (tool st) (previousTool st) (color st) (brushSize st)
    (isFilled st) (snapToGrid st) (scale st) (offset st) (isPanning st)
    (isSpacePressed st) (isDrawing st) (isDragging st) (isResizing st)
    (isRotating st) (activeResizeHandle st) (selectedShapeId st)
    (hoveredShapeId st) (startPos st) (currentPos st) (isShiftPressed st)
    (isSidebarOpen st) (clipboard st) (gridSpacing st) (undoStack st) v
    (textInput st).

Definition setTextInput (v : TextInput.t) (st : State) : State :=
  mkState (shapes st) (tool st) (previousTool st) (color st) (brushSize st)
    (isFilled st) (snapToGrid st) (scale st) (offset st) (isPanning st)
    (isSpacePressed st) (isDrawing st) (isDragging st) (isResizing st)
    (isRotating st) (activeResizeHandle st) (selectedShapeId st)
    (hoveredShapeId st) (startPos st) (currentPos st) (isShiftPressed st)
    (isSidebarOpen st) (clipboard st) (gridSpacing st) (undoStack st)
    (redoStack st) v.
(** An id used as a condition ([if (selectedShapeId)]): [null] and the empty
    string are falsy. *)
Definition truthyId (o : option string) : bool :=
  match o with Some s => truthyStr s | None => false end.

(** [s.id === selectedShapeId]. *)
Definition idIs (sel : option string) (s : Shape.t) : bool :=
  match sel with Some i => String.eqb (Shape.id s) i | None => false end.

(** ** Coordinate mapper *)

Definition applySnap (st : State) (val : R) : R :=
  if negb (snapToGrid st) then val
  else Math_round (val / gridSpacing st) * gridSpacing st.

Definition toWorldCoords (st : State) (screenX screenY : R) : Point.t :=
  Point.mk ((screenX - Point.x (offset st)) / scale st)
           ((screenY - Point.y (offset st)) / scale st).

(** Only the first revision of the component ([Whiteboard.tsx]) has it. *)
Definition toScreenCoords (st : State) (worldX worldY : R) : Point.t :=
  Point.mk (worldX * scale st + Point.x (offset st))
           (worldY * scale st + Point.y (offset st)).

(** ** History *)

Definition saveHistory (newShapes : list Shape.t) (st : State) : State :=
  setShapes newShapes
    (setRedoStack []
       (setUndoStack
          (sliceLast (MAX_HISTORY - 1) (undoStack st) ++ [shapes st]) st)).

Definition undo (st : State) : State :=
  match lastOpt (undoStack st) with
  | None => st
  | Some prev =>
      setSelectedShapeId None
        (setShapes prev
           (setUndoStack (removelast (undoStack st))
              (setRedoStack (redoStack st ++ [shapes st]) st)))
  end.

Definition redo (st : State) : State :=
  match lastOpt (redoStack st) with
  | None => st
  | Some next =>
      setShapes next
        (setRedoStack (removelast (redoStack st))
           (setUndoStack (undoStack st ++ [shapes st]) st))
  end.

(** ** Clipboard *)

(** [JSON.parse(JSON.stringify(shape))]: a structurally equal copy made of
    fresh objects; on values it is the identity. *)
Definition jsonClone (s : Shape.t) : Shape.t := s.

Definition shiftPoint (dx dy : R) (p : Point.t) : Point.t :=
  Point.mk (Point.x p + dx) (Point.y p + dy).

Definition handleCopy (st : State) : State :=
  setIsSidebarOpen false
    (if truthyId (selectedShapeId st) then
       match find (idIs (selectedShapeId st)) (shapes st) with
       | Some shape => setClipboard (Some (jsonClone shape)) st
       | None => st
       end
     else st).

(** The copy both [handlePaste] and [handleDuplicate] build from their
    source; [rnd] is the value of
    [Math.random().toString(36).substr(2, 9)]. *)
Definition offsetCopy (rnd : string) (src : Shape.t) : Shape.t :=
  let c := jsonClone src in
  Shape.setIsLocked (Some false)
    (Shape.setPoints (map (shiftPoint 20 20) (Shape.points c))
       (Shape.setId rnd c)).

Definition handlePaste (rnd : string) (st : State) : State :=
  setIsSidebarOpen false
    (match clipboard st with
     | Some c =>
         let pastedShape := offsetCopy rnd c in
         setSelectedShapeId (Some (Shape.id pastedShape))
           (saveHistory (shapes st ++ [pastedShape]) st)
     | None => st
     end).

Definition handleDuplicate (rnd : string) (st : State) : State :=
  setIsSidebarOpen false
    (if truthyId (selectedShapeId st) then
       match find (idIs (selectedShapeId st)) (shapes st) with
       | Some shape =>
           let clonedShape := offsetCopy rnd shape in
           setSelectedShapeId (Some (Shape.id clonedShape))
             (saveHistory (shapes st ++ [clonedShape]) st)
       | None => st
       end
     else st).

Definition toggleLock (st : State) : State :=
  if negb (truthyId (selectedShapeId st)) then st
  else
    setShapes
      (map (fun s =>
              if idIs (selectedShapeId st) s
              then Shape.setIsLocked (Some (negb (Shape.locked s))) s
              else s)
           (shapes st)) st.

(** ** Wheel: zoom and scroll *)

Record DOMRect := mkRect { left : R; top : R }.

Record WheelEvent := mkWheel {
  w_ctrlKey : bool; w_metaKey : bool; w_shiftKey : bool;
  deltaX : R; deltaY : R;
  w_clientX : R; w_clientY : R
}.

(** [Math.pow(1.1, delta / 100)] with [delta = -e.deltaY]. *)
Definition wheelFactor (e : WheelEvent) : R :=
  Rpower (11 / 10) (- deltaY e / 100).

Definition clampScale (v : R) : R := Rmin (Rmax MIN_SCALE v) MAX_SCALE.

(** [rect] is [canvasRef.current?.getBoundingClientRect()]. *)
Definition handleWheel (rect : option DOMRect) (e : WheelEvent) (st : State)
  : State :=
  if w_ctrlKey e || w_metaKey e then
    let factor := wheelFactor e in
    let newScale := clampScale (scale st * factor) in
    match rect with
    | None => st
    | Some rect =>
        let mouseX := w_clientX e - left rect in
        let mouseY := w_clientY e - top rect in
        let worldX := (mouseX - Point.x (offset st)) / scale st in
        let worldY := (mouseY - Point.y (offset st)) / scale st in
        setOffset (Point.mk (mouseX - worldX * newScale)
                            (mouseY - worldY * newScale))
          (setScale newScale st)
    end
  else if w_shiftKey e then
    setOffset (Point.mk (Point.x (offset st) - deltaY e)
                        (Point.y (offset st))) st
  else
    setOffset (Point.mk (Point.x (offset st) - deltaX e)
                        (Point.y (offset st) - deltaY e)) st.

(** ** Keyboard *)

Definition nudgeSelected (dx dy : R) (st : State) : State :=
  if negb (truthyId (selectedShapeId st)) then st
  else
    let isLocked :=
      match find (idIs (selectedShapeId st)) (shapes st) with
      | Some shape => Shape.locked shape
      | None => false
      end in
    if isLocked then st
    else
      setShapes
        (map (fun s =>
                if idIs (selectedShapeId st) s
                then Shape.setPoints (map (shiftPoint dx dy) (Shape.points s)) s
                else s)
             (shapes st)) st.

Record KeyboardEvent := mkKey {
  key : string; ctrlKey : bool; metaKey : bool; shiftKey : bool
}.

Definition keyIs (e : KeyboardEvent) (k : string) : bool := String.eqb (key e) k.

(** The Backspace/Delete block; [None] is its early [return]. *)
Definition deleteSelected (st : State) : option State :=
  if truthyId (selectedShapeId st) then
    let isLocked :=
      match find (idIs (selectedShapeId st)) (shapes st) with
      | Some shape => Shape.locked shape
      | None => false
      end in
    if isLocked then None
    else
      Some (setSelectedShapeId None
              (saveHistory
                 (filter (fun s => negb (idIs (selectedShapeId st) s))
                         (shapes st)) st))
  else Some st.

(** The Ctrl/Meta shortcuts, with every handler taken from the render of
    the state [st]. For [undo] and [redo] this is an idealisation: the
    dependency list of the effect that registers the key listener names
    neither [undoStack] nor [redoStack], so after an update that changes
    only the stacks (a commit of the unchanged [shapes] array at pointer
    release) the listener still holds the [undo] and [redo] closures of an
    older render. The statements below call [undo] and [redo] directly, as
    the toolbar buttons do, and none runs the [z] branch. *)
Definition shortcuts (rnd : string) (e : KeyboardEvent) (st : State) : State :=
  if ctrlKey e || metaKey e then
    if keyIs e "c" then handleCopy st
    else if keyIs e "v" then handlePaste rnd st
    else if keyIs e "d" then handleDuplicate rnd st
    else if keyIs e "l" then toggleLock st
    else if keyIs e "z" then (if shiftKey e then redo st else undo st)
    else st
  else st.

(** The arrow-key block. *)
Definition arrows (e : KeyboardEvent) (st : State) : State :=
  if truthyId (selectedShapeId st) then
    let amount := (if shiftKey e then 10 else 1) / scale st in
    if keyIs e "ArrowUp" then nudgeSelected 0 (- amount) st
    else if keyIs e "ArrowDown" then nudgeSelected 0 amount st
    else if keyIs e "ArrowLeft" then nudgeSelected (- amount) 0 st
    else if keyIs e "ArrowRight" then nudgeSelected amount 0 st
    else st
  else st.

(** [handleKeyDown]. [activeIsInput] is
    [document.activeElement?.tagName === 'INPUT']. The blocks of the handler
    test [e.key] against pairwise different keys, so at most one of them
    runs and chaining them on the state is the handler's effect. The
    listener is taken as the one registered by the latest render. *)
Definition handleKeyDown (activeIsInput : bool) (rnd : string)
    (e : KeyboardEvent) (st : State) : State :=
  if TextInput.visible (textInput st) then st
  else
    let st1 := if keyIs e "Shift" then setIsShiftPressed true st else st in
    let st2 :=
      if keyIs e " " && negb activeIsInput then
        if negb (isSpacePressed st1) then
          setTool THand (setPreviousTool (tool st1) (setIsSpacePressed true st1))
        else st1
      else st1 in
    if keyIs e "Backspace" || keyIs e "Delete" then
      match deleteSelected st2 with
      | None => st2
      | Some st3 => arrows e (shortcuts rnd e st3)
      end
    else arrows e (shortcuts rnd e st2).

Definition handleKeyUp (e : KeyboardEvent) (st : State) : State :=
  if TextInput.visible (textInput st) then st
  else
    let st1 := if keyIs e "Shift" then setIsShiftPressed false st else st in
    if keyIs e " " then
      let st2 := setIsSpacePressed false st1 in
      if Tool_eqb (tool st) THand then setTool (previousTool st) st2 else st2
    else st1.

(** ** Hit-testing *)

Definition dist (ax ay bx by_ : R) : R := sqrt ((ax - bx) ^ 2 + (ay - by_) ^ 2).

(** [pts[0]] and [pts[1] || p1]; [None] when [pts[0]] is [undefined], where
    the source throws a [TypeError] at [p1.x]. *)
Definition anchors (pts : list Point.t) : option (Point.t * Point.t) :=
  match pts with
  | [] => None
  | p1 :: [] => Some (p1, p1)
  | p1 :: p2 :: _ => Some (p1, p2)
  end.

(** The centre the component rotates a shape about, at render and at
    hit-test time: the midpoint of its first two points. *)
Definition rotationCenter (p1 p2 : Point.t) : Point.t :=
  Point.mk ((Point.x p1 + Point.x p2) / 2) ((Point.y p1 + Point.y p2) / 2).

(** [c + R(angle) (p - c)], the rotation written out in [checkHit] and in
    the two handle tests. *)
Definition rotateAbout (c : Point.t) (angle : R) (p : Point.t) : Point.t :=
  let dx := Point.x p - Point.x c in
  let dy := Point.y p - Point.y c in
  Point.mk (Point.x c + (dx * cos angle - dy * sin angle))
           (Point.y c + (dx * sin angle + dy * cos angle)).

(** [if (shape.rotation)]: the angle when it is present and not zero. *)
Definition activeRotation (s : Shape.t) : option R :=
  match Shape.rotation s with
  | Some r => if truthyNum r then Some r else None
  | None => None
  end.

Definition isFreehand (t : Tool) : bool :=
  match t with TPencil | TEraser => true | _ => false end.

(** The per-variant tests of [checkHit] on the target point, once the
    rotation has been undone. *)
Definition hitLocal (st : State) (targetX targetY : R) (shape : Shape.t)
    (p1 p2 : Point.t) : bool :=
  let hitboxSize := 10 / scale st in
  if isFreehand (Shape.tool shape) then
    existsb (fun p => Rltb (dist (Point.x p) (Point.y p) targetX targetY)
                           hitboxSize)
            (Shape.points shape)
  else if Tool_eqb (Shape.tool shape) TCircle then
    let radius := dist (Point.x p2) (Point.y p2) (Point.x p1) (Point.y p1) in
    let d := dist targetX targetY (Point.x p1) (Point.y p1) in
    Rleb d (radius + hitboxSize)
  else
    let minX := Rmin (Point.x p1) (Point.x p2) - hitboxSize in
    let maxX := Rmax (Point.x p1) (Point.x p2) + hitboxSize in
    let minY := Rmin (Point.y p1) (Point.y p2) - hitboxSize in
    let maxY := Rmax (Point.y p1) (Point.y p2) + hitboxSize in
    if Tool_eqb (Shape.tool shape) TText then
      let fontSize := Rmax 16 (Shape.size shape * 5) in
      Rleb minX targetX && Rleb targetX (minX + 200)
      && Rleb (minY - fontSize) targetY && Rleb targetY minY
    else
      Rleb minX targetX && Rleb targetX maxX
      && Rleb minY targetY && Rleb targetY maxY.

(** [checkHit]; [None] is the [TypeError] on a shape without points. *)
Definition checkHit (st : State) (pos : Point.t) (shape : Shape.t)
  : option bool :=
  match anchors (Shape.points shape) with
  | None => None
  | Some (p1, p2) =>
      let c := rotationCenter p1 p2 in
      let target :=
        match activeRotation shape with
        | Some r => rotateAbout c (- r) pos
        | None => pos
        end in
      Some (hitLocal st (Point.x target) (Point.y target) shape p1 p2)
  end.

Definition checkRotationHandleHit (st : State) (pos : Point.t)
    (shape : Shape.t) : bool :=
  match Shape.points shape with
  | p1 :: p2 :: _ =>
      let c := rotationCenter p1 p2 in
      let minY := Rmin (Point.y p1) (Point.y p2) in
      let rotHandleDist := 30 / scale st in
      let rotHandleSize := 12 / scale st in
      let base := Point.mk (Point.x c) (minY - rotHandleDist) in
      let handle :=
        match activeRotation shape with
        | Some r => rotateAbout c r base
        | None => base
        end in
      Rltb (dist (Point.x pos) (Point.y pos) (Point.x handle) (Point.y handle))
           rotHandleSize
  | _ => false
  end.

Definition checkResizeHandleHit (st : State) (pos : Point.t)
    (shape : Shape.t) : option ResizeHandle :=
  let handleSize := 12 / scale st in
  match Shape.points shape with
  | p1 :: p2 :: _ =>
      let minX := Rmin (Point.x p1) (Point.x p2) in
      let maxX := Rmax (Point.x p1) (Point.x p2) in
      let minY := Rmin (Point.y p1) (Point.y p2) in
      let maxY := Rmax (Point.y p1) (Point.y p2) in
      let midX := (minX + maxX) / 2 in
      let midY := (minY + maxY) / 2 in
      let c := Point.mk midX midY in
      let baseHandles :=
        [ (Hnw, Point.mk minX minY); (Hn, Point.mk midX minY);
          (Hne, Point.mk maxX minY); (He, Point.mk maxX midY);
          (Hse, Point.mk maxX maxY); (Hs, Point.mk midX maxY);
          (Hsw, Point.mk minX maxY); (Hw, Point.mk minX midY) ] in
      let hits (kp : ResizeHandle * Point.t) : bool :=
        let handle :=
          match activeRotation shape with
          | Some r => rotateAbout c r (snd kp)
          | None => snd kp
          end in
        Rltb (dist (Point.x pos) (Point.y pos)
                   (Point.x handle) (Point.y handle)) handleSize in
      match find hits baseHandles with
      | Some kp => Some (fst kp)
      | None => None
      end
  | _ => None
  end.

(** [arr.find(s => checkHit(pos, s))] on an array already in search order:
    the first shape that is hit, [Some None] when none is, [None] when a
    [checkHit] threw before a hit was found. *)
Fixpoint findHit (st : State) (pos : Point.t) (l : list Shape.t)
  : option (option Shape.t) :=
  match l with
  | [] => Some None
  | s :: rest =>
      match checkHit st pos s with
      | None => None
      | Some true => Some (Some s)
      | Some false => findHit st pos rest
      end
  end.

(** [shapes.slice().reverse().find(s => checkHit(pos, s))]. *)
Definition topmostHit (st : State) (pos : Point.t) : option (option Shape.t) :=
  findHit st pos (rev (shapes st)).

(** ** Pointer handlers *)

(** A mouse or touch event: [button] is [None] for a touch event, whose
    [button] is [undefined]. *)
Record PointerEvent := mkPointer {
  clientX : R; clientY : R; button : option nat
}.

Definition buttonIs (e : PointerEvent) (n : nat) : bool :=
  match button e with Some b => Nat.eqb b n | None => false end.

Definition snapPoint (st : State) (p : Point.t) : Point.t :=
  Point.mk (applySnap st (Point.x p)) (applySnap st (Point.y p)).

(** White space as [String.prototype.trim] strips it: the [WhiteSpace] and
    [LineTerminator] code points of ECMAScript. A string is held as the
    UTF-8 bytes of its text, so a white-space character is one, two or three
    bytes:
    - U+0009 to U+000D and U+0020: one byte;
    - U+00A0: [C2 A0];
    - U+1680: [E1 9A 80];
    - U+2000 to U+200A, U+2028, U+2029, U+202F: [E2 80 80] to [E2 80 8A],
      [E2 80 A8], [E2 80 A9], [E2 80 AF];
    - U+205F: [E2 81 9F]; U+3000: [E3 80 80]; U+FEFF: [EF BB BF]. *)
Definition whiteSpace1 (a : nat) : bool :=
  (Nat.leb 9 a && Nat.leb a 13) || Nat.eqb a 32.

Definition whiteSpace2 (a b : nat) : bool :=
  Nat.eqb a 194 && Nat.eqb b 160.

Definition whiteSpace3 (a b c : nat) : bool :=
  (Nat.eqb a 225 && Nat.eqb b 154 && Nat.eqb c 128)
  || (Nat.eqb a 226 && Nat.eqb b 128
      && ((Nat.leb 128 c && Nat.leb c 138)
          || Nat.eqb c 168 || Nat.eqb c 169 || Nat.eqb c 175))
  || (Nat.eqb a 226 && Nat.eqb b 129 && Nat.eqb c 159)
  || (Nat.eqb a 227 && Nat.eqb b 128 && Nat.eqb c 128)
  || (Nat.eqb a 239 && Nat.eqb b 187 && Nat.eqb c 191).

(** [!value.trim()]: the string holds white space only. *)
Fixpoint isBlank (s : string) : bool :=
  match s with
  | EmptyString => true
  | String a r1 =>
      if whiteSpace1 (Ascii.nat_of_ascii a) then isBlank r1
      else
        match r1 with
        | EmptyString => false
        | String b r2 =>
            if whiteSpace2 (Ascii.nat_of_ascii a) (Ascii.nat_of_ascii b)
            then isBlank r2
            else
              match r2 with
              | EmptyString => false
              | String c r3 =>
                  whiteSpace3 (Ascii.nat_of_ascii a) (Ascii.nat_of_ascii b)
                              (Ascii.nat_of_ascii c)
                  && isBlank r3
              end
        end
  end.

Definition handleTextSubmit (rnd : string) (st : State) : State :=
  let ti := textInput st in
  setTextInput
    (TextInput.mk false (TextInput.x ti) (TextInput.y ti) EmptyString)
    (if negb (isBlank (TextInput.value ti)) then
       let worldPos := toWorldCoords st (TextInput.x ti) (TextInput.y ti) in
       saveHistory
         (shapes st ++
            [Shape.mk rnd TText [snapPoint st worldPos] (color st)
                      (brushSize st / scale st) false None None
                      (Some (TextInput.value ti))]) st
     else st).

(** [startDrawing] (pointer down). [None]: a [checkHit] threw. *)
Definition startDrawing (rect : option DOMRect) (rnd : string)
    (e : PointerEvent) (st : State) : option State :=
  match rect with
  | None => Some st
  | Some rect =>
      let rawPos := Point.mk (clientX e - left rect) (clientY e - top rect) in
      let pos := toWorldCoords st (Point.x rawPos) (Point.y rawPos) in
      let snappedPos := snapPoint st pos in
      if isSpacePressed st || buttonIs e 1 || buttonIs e 2
         || Tool_eqb (tool st) THand then
        Some (setStartPos (Point.mk (clientX e) (clientY e))
                (setIsPanning true st))
      else
        let onHandle : option State :=
          if Tool_eqb (tool st) TMove && truthyId (selectedShapeId st) then
            match find (idIs (selectedShapeId st)) (shapes st) with
            | Some selectedShape =>
                if negb (Shape.locked selectedShape) then
                  if checkRotationHandleHit st pos selectedShape then
                    Some (setStartPos pos (setIsRotating true st))
                  else
                    match checkResizeHandleHit st pos selectedShape with
                    | Some handle =>
                        Some (setCurrentPos pos
                                (setStartPos pos
                                   (setActiveResizeHandle (Some handle)
                                      (setIsResizing true st))))
                    | None => None
                    end
                else None
            | None => None
            end
          else None in
        match onHandle with
        | Some st' => Some st'
        | None =>
            let st1 := setCurrentPos snappedPos (setStartPos snappedPos st) in
            if Tool_eqb (tool st) TMove then
              match topmostHit st pos with
              | None => None
              | Some (Some hit) =>
                  let st2 := setSelectedShapeId (Some (Shape.id hit)) st1 in
                  Some (if negb (Shape.locked hit)
                        then setIsDragging true st2 else st2)
              | Some None => Some (setSelectedShapeId None st1)
              end
            else if Tool_eqb (tool st) TText then
              if TextInput.visible (textInput st) then
                Some (handleTextSubmit rnd st1)
              else
                Some (setTextInput
                        (TextInput.mk true (Point.x rawPos) (Point.y rawPos)
                                      EmptyString) st1)
            else
              let st2 := setSelectedShapeId None (setIsDrawing true st1) in
              if isFreehand (tool st) then
                Some (setShapes
                        (shapes st ++
                           [Shape.mk rnd (tool st) [snappedPos] (color st)
                                     (brushSize st / scale st) false
                                     None None None]) st2)
              else Some st2
      end
  end.

(** The point update of the resize branch: [newPoints[i].x += dx] and
    [newPoints[j].y += dy] on the first two points. *)
Definition addX (i : nat) (dx : R) (pts : list Point.t) : list Point.t :=
  match pts, i with
  | p1 :: rest, O => Point.mk (Point.x p1 + dx) (Point.y p1) :: rest
  | p1 :: p2 :: rest, S O => p1 :: Point.mk (Point.x p2 + dx) (Point.y p2) :: rest
  | _, _ => pts
  end.

Definition addY (i : nat) (dy : R) (pts : list Point.t) : list Point.t :=
  match pts, i with
  | p1 :: rest, O => Point.mk (Point.x p1) (Point.y p1 + dy) :: rest
  | p1 :: p2 :: rest, S O => p1 :: Point.mk (Point.x p2) (Point.y p2 + dy) :: rest
  | _, _ => pts
  end.

(** The resize branch on the points of one shape, as values: what the
    edited scene shows after [newPoints[idx].x += dx] and
    [newPoints[idx].y += dy]. The source assigns to the [Point] objects
    themselves, which the arrays on the history stacks share; what these
    arrays show afterwards is modelled in module [Store], and statements
    about the contents of the stacks during a resize are made there. *)
Definition resizePoints (h : ResizeHandle) (dx dy : R) (pts : list Point.t)
  : list Point.t :=
  match pts with
  | p1 :: p2 :: _ =>
      let minXIdx := if Rltb (Point.x p1) (Point.x p2) then 0%nat else 1%nat in
      let maxXIdx := if Rltb (Point.x p1) (Point.x p2) then 1%nat else 0%nat in
      let minYIdx := if Rltb (Point.y p1) (Point.y p2) then 0%nat else 1%nat in
      let maxYIdx := if Rltb (Point.y p1) (Point.y p2) then 1%nat else 0%nat in
      match h with
      | Hnw => addY minYIdx dy (addX minXIdx dx pts)
      | Hn => addY minYIdx dy pts
      | Hne => addY minYIdx dy (addX maxXIdx dx pts)
      | He => addX maxXIdx dx pts
      | Hse => addY maxYIdx dy (addX maxXIdx dx pts)
      | Hs => addY maxYIdx dy pts
      | Hsw => addY maxYIdx dy (addX minXIdx dx pts)
      | Hw => addX minXIdx dx pts
      end
  | _ => pts
  end.

(** The rotation branch on one shape; [None]: [p1.x] on a shape without
    points. *)
Definition rotateShape (sel : option string) (pos : Point.t) (s : Shape.t)
  : option Shape.t :=
  if negb (idIs sel s) then Some s
  else
    match anchors (Shape.points s) with
    | None => None
    | Some (p1, p2) =>
        let c := rotationCenter p1 p2 in
        let angle :=
          Math_atan2 (Point.y pos - Point.y c) (Point.x pos - Point.x c)
          + PI / 2 in
        Some (Shape.setRotation (Some angle) s)
    end.

(** [arr.map(f)] for an [f] that may throw. *)
Fixpoint mapOpt {A B : Type} (f : A -> option B) (l : list A)
  : option (list B) :=
  match l with
  | [] => Some []
  | a :: rest =>
      match f a, mapOpt f rest with
      | Some b, Some bs => Some (b :: bs)
      | _, _ => None
      end
  end.

(** [[...prev.slice(0, -1), {...last, points: [...last.points, p]}]] when
    the last shape is a freehand stroke. *)
Definition appendSample (p : Point.t) (prev : list Shape.t) : list Shape.t :=
  match lastOpt prev with
  | Some last =>
      if isFreehand (Shape.tool last) then
        removelast prev ++ [Shape.setPoints (Shape.points last ++ [p]) last]
      else prev
  | None => prev
  end.

(** [draw] (pointer move). [None]: a [TypeError] was thrown. The state
    holds values, so the stacks of the result are those of [st]; this is
    what the code does in every branch but the resize branch, whose
    assignments reach the points of history entries (see [resizePoints] and
    module [Store]). *)
Definition draw (rect : option DOMRect) (e : PointerEvent) (st : State)
  : option State :=
  if isPanning st then
    Some (setStartPos (Point.mk (clientX e) (clientY e))
            (setOffset
               (Point.mk
                  (Point.x (offset st) + (clientX e - Point.x (startPos st)))
                  (Point.y (offset st) + (clientY e - Point.y (startPos st))))
               st))
  else
    match rect with
    | None => Some st
    | Some rect =>
        let pos := toWorldCoords st (clientX e - left rect)
                                    (clientY e - top rect) in
        let snappedPos := snapPoint st pos in
        let hovered : option State :=
          if Tool_eqb (tool st) TMove && negb (isDragging st)
             && negb (isResizing st) && negb (isRotating st) then
            match topmostHit st pos with
            | None => None
            | Some (Some hit) =>
                Some (setHoveredShapeId
                        (if truthyStr (Shape.id hit)
                         then Some (Shape.id hit) else None) st)
            | Some None => Some (setHoveredShapeId None st)
            end
          else Some st in
        match hovered with
        | None => None
        | Some st1 =>
            let sel := selectedShapeId st in
            if isDragging st && truthyId sel then
              let dx := Point.x snappedPos - Point.x (currentPos st) in
              let dy := Point.y snappedPos - Point.y (currentPos st) in
              Some (setCurrentPos snappedPos
                      (setShapes
                         (map (fun s =>
                                 if idIs sel s
                                 then Shape.setPoints
                                        (map (shiftPoint dx dy) (Shape.points s)) s
                                 else s)
                              (shapes st)) st1))
            else if isRotating st && truthyId sel then
              match mapOpt (rotateShape sel pos) (shapes st) with
              | Some shapes' => Some (setShapes shapes' st1)
              | None => None
              end
            else
              match isResizing st && truthyId sel, activeResizeHandle st with
              | true, Some handle =>
                  let dx := Point.x snappedPos - Point.x (currentPos st) in
                  let dy := Point.y snappedPos - Point.y (currentPos st) in
                  Some (setCurrentPos snappedPos
                          (setShapes
                             (map (fun s =>
                                     if negb (idIs sel s) then s
                                     else Shape.setPoints
                                            (resizePoints handle dx dy
                                               (Shape.points s)) s)
                                  (shapes st)) st1))
              | _, _ =>
                  let st2 := setCurrentPos snappedPos st1 in
                  if negb (isDrawing st) then Some st2
                  else if isFreehand (tool st) then
                    Some (setShapes (appendSample snappedPos (shapes st)) st2)
                  else Some st2
              end
        end
    end.

(** [stopDrawing] (pointer up or leave). *)
Definition stopDrawing (rnd : string) (st : State) : State :=
  if isPanning st then setIsPanning false st
  else if isDragging st || isResizing st || isRotating st then
    saveHistory (shapes st)
      (setActiveResizeHandle None
         (setIsRotating false (setIsResizing false (setIsDragging false st))))
  else if negb (isDrawing st) then st
  else
    setIsDrawing false
      (match tool st with
       | TPencil | TEraser | TMove | THand => saveHistory (shapes st) st
       | _ =>
           let dx := Point.x (currentPos st) - Point.x (startPos st) in
           let dy := Point.y (currentPos st) - Point.y (startPos st) in
           let squared :=
             isShiftPressed st
             && match tool st with
                | TRect | TCircle | TRoundRect => true
                | _ => false
                end in
           let size := Rmax (Rabs dx) (Rabs dy) in
           let endX :=
             if squared
             then Point.x (startPos st) + (if Rleb 0 dx then size else - size)
             else Point.x (currentPos st) in
           let endY :=
             if squared
             then Point.y (startPos st) + (if Rleb 0 dy then size else - size)
             else Point.y (currentPos st) in
           saveHistory
             (shapes st ++
                [Shape.mk rnd (tool st)
                          [startPos st;
                           Point.mk (applySnap st endX) (applySnap st endY)]
                          (color st) (brushSize st / scale st) (isFilled st)
                          None None None]) st
       end).

(** ** Object identity: the history stacks over a store of [Point] objects

    Every update of the component builds new arrays and new shape objects,
    and the drag, nudge and paste paths also build new [Point] objects. The
    resize branch of [draw] is the one place that assigns to the fields of
    existing [Point] objects ([newPoints[i].x += dx] after the shallow copy
    [[...s.points]]). To see what that does to the arrays held by the undo
    stack, this module keeps [Point] objects in a store and lets a shape hold
    their locations; arrays and shape objects, which are never assigned to,
    stay values. *)
Module Store.

Definition Loc := nat.
Definition Heap := list Point.t.

Record ShapeObj := mkObj {
  id : string;
  tool : Tool;
  points : list Loc;
  color : string;
  size : R;
  isFilled : bool;
  isLocked : option bool;
  rotation : option R;
  text : option string
}.

Record t := mk {
  heap : Heap;
  shapes : list ShapeObj;
  undoStack : list (list ShapeObj);
  redoStack : list (list ShapeObj)
}.

Definition deref (h : Heap) (l : Loc) : Point.t := nth l h (Point.mk 0 0).

Fixpoint assign (l : Loc) (f : Point.t -> Point.t) (h : Heap) : Heap :=
  match h, l with
  | [], _ => []
  | p :: rest, O => f p :: rest
  | p :: rest, S l' => p :: assign l' f rest
  end.

(** What a shape object shows when its points are read now. *)
Definition read (h : Heap) (o : ShapeObj) : Shape.t :=
  Shape.mk (id o) (tool o) (map (deref h) (points o)) (color o) (size o)
           (isFilled o) (isLocked o) (rotation o) (text o).

Definition contents (h : Heap) (entry : list ShapeObj) : list Shape.t :=
  map (read h) entry.

(** [saveHistory]: the array [shapes] itself is pushed. *)
Definition saveHistory (newShapes : list ShapeObj) (st : t) : t :=
  mk (heap st) newShapes
     (sliceLast (MAX_HISTORY - 1) (undoStack st) ++ [shapes st]) [].

Definition undo (st : t) : t :=
  match lastOpt (undoStack st) with
  | None => st
  | Some prev =>
      mk (heap st) prev (removelast (undoStack st))
         (redoStack st ++ [shapes st])
  end.

(** [newPoints[i].x += dx], [newPoints[i].y += dy]: an assignment to the
    object the array slot refers to. *)
Definition addX (l : Loc) (dx : R) (h : Heap) : Heap :=
  assign l (fun p => Point.mk (Point.x p + dx) (Point.y p)) h.
Definition addY (l : Loc) (dy : R) (h : Heap) : Heap :=
  assign l (fun p => Point.mk (Point.x p) (Point.y p + dy)) h.

(** The body of the resize updater on one shape: the new shape object
    [{...s, points: newPoints}] holds the same locations, the store
    changes. *)
Definition resizeObj (sel : option string) (handle : ResizeHandle)
    (dx dy : R) (h : Heap) (s : ShapeObj) : Heap :=
  match sel with
  | Some i =>
      if negb (String.eqb (id s) i) then h
      else
        match points s with
        | l1 :: l2 :: _ =>
            let p1 := deref h l1 in
            let p2 := deref h l2 in
            let minXIdx := if Rltb (Point.x p1) (Point.x p2) then l1 else l2 in
            let maxXIdx := if Rltb (Point.x p1) (Point.x p2) then l2 else l1 in
            let minYIdx := if Rltb (Point.y p1) (Point.y p2) then l1 else l2 in
            let maxYIdx := if Rltb (Point.y p1) (Point.y p2) then l2 else l1 in
            match handle with
            | Hnw => addY minYIdx dy (addX minXIdx dx h)
            | Hn => addY minYIdx dy h
            | Hne => addY minYIdx dy (addX maxXIdx dx h)
            | He => addX maxXIdx dx h
            | Hse => addY maxYIdx dy (addX maxXIdx dx h)
            | Hs => addY maxYIdx dy h
            | Hsw => addY maxYIdx dy (addX minXIdx dx h)
            | Hw => addX minXIdx dx h
            end
        | _ => h
        end
  | None => h
  end.

(** One pointer move in the resize branch of [draw]. *)
Definition resizeStep (sel : option string) (handle : ResizeHandle)
    (dx dy : R) (st : t) : t :=
  mk (fold_left (resizeObj sel handle dx dy) (shapes st) (heap st))
     (shapes st) (undoStack st) (redoStack st).

(** One pointer move in the drag branch of [draw]: the moved shape gets
    newly allocated points, [s.points.map(p => ({...}))]. *)
Definition dragObj (sel : option string) (dx dy : R)
    (acc : Heap * list ShapeObj) (s : ShapeObj) : Heap * list ShapeObj :=
  let '(h, done) := acc in
  match sel with
  | Some i =>
      if String.eqb (id s) i then
        let fresh := map (fun l => shiftPoint dx dy (deref h l)) (points s) in
        let locs := seq (List.length h) (List.length fresh) in
        (h ++ fresh,
         done ++ [mkObj (id s) (tool s) locs (color s) (size s) (isFilled s)
                        (isLocked s) (rotation s) (text s)])
      else (h, done ++ [s])
  | None => (h, done ++ [s])
  end.

Definition dragStep (sel : option string) (dx dy : R) (st : t) : t :=
  let '(h, l) := fold_left (dragObj sel dx dy) (shapes st) (heap st, []) in
  mk h l (undoStack st) (redoStack st).

(** Every location a history entry mentions is allocated. *)
Definition allocated (h : Heap) (entry : list ShapeObj) : Prop :=
  forall o l, In o entry -> In l (points o) -> (l < List.length h)%nat.

End Store.

(** ** The initial render and event traces *)

(** The initial values of the state hooks. *)
Definition initialState : State :=
  mkState [] TPencil TPencil "#6366f1" 5 false false 1 (Point.mk 0 0)
          false false false false false false None None None
          (Point.mk 0 0) (Point.mk 0 0) false false None 40 [] []
          (TextInput.mk false 0 0 EmptyString).

(** A canvas mounted at the top-left corner of the viewport. *)
Definition canvas : option DOMRect := Some (mkRect 0 0).

(** Pointer moves delivered one after the other. *)
Fixpoint drawAll (rect : option DOMRect) (es : list PointerEvent) (st : State)
  : option State :=
  match es with
  | [] => Some st
  | e :: rest =>
      match draw rect e st with
      | Some st' => drawAll rect rest st'
      | None => None
      end
  end.

(** A whole pointer gesture: down, moves, up. [rnd1] and [rnd2] are the ids
    drawn at pointer down and at pointer up. *)
Definition gesture (rect : option DOMRect) (rnd1 rnd2 : string)
    (down : PointerEvent) (moves : list PointerEvent) (st : State)
  : option State :=
  match startDrawing rect rnd1 down st with
  | Some st1 =>
      match drawAll rect moves st1 with
      | Some st2 => Some (stopDrawing rnd2 st2)
      | None => None
      end
  | None => None
  end.

(** Committed mutations applied in order, and repeated undo and redo. *)
Definition commitAll (news : list (list Shape.t)) (st : State) : State :=
  fold_left (fun s n => saveHistory n s) news st.

Fixpoint undoN (n : nat) (st : State) : State :=
  match n with O => st | S k => undoN k (undo st) end.

Fixpoint redoN (n : nat) (st : State) : State :=
  match n with O => st | S k => redoN k (redo st) end.

(** The freehand scenario: a stroke of five samples on the empty scene. *)
Definition click (cx cy : R) : PointerEvent := mkPointer cx cy (Some 0%nat).

Definition strokeOfFive : option State :=
  gesture canvas "s1" "s2" (click 10 10)
          [click 20 10; click 30 10; click 40 10; click 50 10] initialState.

(** A shape is selected and nothing was committed yet. *)
Definition selectedNoHistory : State :=
  setSelectedShapeId (Some "a"%string) initialState.

Definition oneCommit : State :=
  saveHistory [] (setSelectedShapeId (Some "a"%string) initialState).

(** The zoom scenario: Ctrl+wheel by [deltaY = -100], which is the factor
    [1.1], with the pointer at (400, 300). *)
Definition zoomIn : WheelEvent := mkWheel true false false 0 (-100) 400 300.

Definition zoomedPanned : State :=
  setOffset (Point.mk 30 (-12)) (setScale 2 initialState).

(** A locked, rotated rectangle with id [r1], selected and on the clipboard. *)
Definition lockedRect : Shape.t :=
  Shape.mk "r1" TRect [Point.mk 0 0; Point.mk 100 50] "#6366f1" 5 true
           (Some true) (Some 1) None.

Definition lockedScene : State :=
  setClipboard (Some lockedRect)
    (setSelectedShapeId (Some "r1"%string)
       (setShapes [lockedRect] initialState)).

(** An unlocked rectangle with id [r2], selected, at zoom 2. *)
Definition plainRect : Shape.t :=
  Shape.mk "r2" TRect [Point.mk 0 0; Point.mk 100 50] "#6366f1" 5 false
           None None None.

Definition zoomedScene : State :=
  setScale 2
    (setSelectedShapeId (Some "r2"%string)
       (setShapes [plainRect] initialState)).

(** The rectangle [r2] committed over the empty scene while [a] was
    selected; the same after one undo; and a commit in a panned and zoomed
    view. *)
Definition rectCommitted : State :=
  saveHistory [plainRect] (setSelectedShapeId (Some "a"%string) initialState).

Definition rectUndone : State := undo rectCommitted.

Definition zoomedCommitted : State := saveHistory [plainRect] zoomedPanned.

(** The four arrow keys and the unit step of each. *)
Inductive Arrow : Type := ArrowUp | ArrowDown | ArrowLeft | ArrowRight.

Definition arrowKey (a : Arrow) : string :=
  match a with
  | ArrowUp => "ArrowUp" | ArrowDown => "ArrowDown"
  | ArrowLeft => "ArrowLeft" | ArrowRight => "ArrowRight"
  end.

Definition arrowStep (a : Arrow) (amount : R) : R * R :=
  match a with
  | ArrowUp => (0, - amount) | ArrowDown => (0, amount)
  | ArrowLeft => (- amount, 0) | ArrowRight => (amount, 0)
  end.

(** Translation of the shapes whose id is [sel]. *)
Definition translateSelected (sel : option string) (d : R * R)
    (l : list Shape.t) : list Shape.t :=
  map (fun s =>
         if idIs sel s
         then Shape.setPoints (map (shiftPoint (fst d) (snd d)) (Shape.points s)) s
         else s) l.

(** What duplicate and paste promise of the copy [c] of [src] made with the
    random draw [rnd]. *)
Definition OffsetCopyOf (rnd : string) (src c : Shape.t) : Prop :=
  Shape.id c = rnd
  /\ (rnd <> Shape.id src -> Shape.id c <> Shape.id src)
  /\ Shape.points c = map (shiftPoint 20 20) (Shape.points src)
  /\ Shape.isLocked c = Some false
  /\ Shape.tool c = Shape.tool src /\ Shape.color c = Shape.color src
  /\ Shape.size c = Shape.size src /\ Shape.isFilled c = Shape.isFilled src
  /\ Shape.rotation c = Shape.rotation src /\ Shape.text c = Shape.text src.

(** The centre of the bounding box of all the points of a shape, as the
    render pass computes it for the selection frame ([s_minX], [s_maxX],
    [s_minY], [s_maxY], [midX], [midY]); [None] on a shape without points. *)
Definition extremum (f : R -> R -> R) (l : list R) : option R :=
  match l with
  | [] => None
  | a :: rest => Some (fold_left f rest a)
  end.

Definition boundingBoxCenter (pts : list Point.t) : option Point.t :=
  match extremum Rmin (map Point.x pts), extremum Rmax (map Point.x pts),
        extremum Rmin (map Point.y pts), extremum Rmax (map Point.y pts) with
  | Some s_minX, Some s_maxX, Some s_minY, Some s_maxY =>
      Some (Point.mk ((s_minX + s_maxX) / 2) ((s_minY + s_maxY) / 2))
  | _, _, _, _ => None
  end.

(** The hit test in the words of the specification: the per-variant test on
    the query point rotated back by [-rotation] about the centre of the
    bounding box of the shape. *)
Definition hitAboutBoundingBox (st : State) (pos : Point.t) (shape : Shape.t)
  : option bool :=
  match anchors (Shape.points shape), boundingBoxCenter (Shape.points shape) with
  | Some (p1, p2), Some c =>
      let target :=
        match activeRotation shape with
        | Some r => rotateAbout c (- r) pos
        | None => pos
        end in
      Some (hitLocal st (Point.x target) (Point.y target) shape p1 p2)
  | _, _ => None
  end.

(** A freehand stroke of three samples turned by half a turn, and a
    rectangle turned by a quarter turn. *)
Definition turnedStroke : Shape.t :=
  Shape.mk "p1" TPencil [Point.mk 0 0; Point.mk 10 0; Point.mk 100 100]
           "#6366f1" 5 false None (Some PI) None.

Definition quarterTurnRect : Shape.t :=
  Shape.mk "q1" TRect [Point.mk 0 0; Point.mk 100 50] "#6366f1" 5 false
           None (Some (PI / 2)) None.

(** ** Invariant of a pointer gesture that spares the shape [s]

    The shape is in the scene, every shape has a point, the selection tool
    is active, and while a drag, resize or rotation is in progress the
    selected id is not the id of [s]. *)
Definition hasPoints (t : Shape.t) : Prop := Shape.points t <> [].

(** No unlocked shape of [l] carries the id of [s]. Ids are random draws
    that nothing compares ([handlePaste], [handleDuplicate]), so two shapes
    can carry one id, and the handlers address shapes by id. *)
Definition idLocked (s : Shape.t) (l : list Shape.t) : Prop :=
  forall t, In t l -> Shape.id t = Shape.id s -> Shape.locked t = true.

Definition Spares (s : Shape.t) (st : State) : Prop :=
  In s (shapes st)
  /\ Forall hasPoints (shapes st)
  /\ tool st = TMove
  /\ (isDragging st || isResizing st || isRotating st = true ->
      idIs (selectedShapeId st) s = false).

(** The keys whose handlers test [isLocked]. *)
Inductive GuardedKey : Type :=
| KBackspace | KDelete | KArrow (a : Arrow).

Definition guardedKeyName (k : GuardedKey) : string :=
  match k with
  | KBackspace => "Backspace"
  | KDelete => "Delete"
  | KArrow a => arrowKey a
  end.

(** The locked rectangle under the selection tool. *)
Definition lockedUnderMove : State := setTool TMove lockedScene.

(** The locked rectangle was duplicated with a draw that repeats its id,
    and the lock was toggled: the scene holds two shapes with the id [r1],
    the first one unlocked, the second one, [lockedTwin], locked. *)
Definition sharedIdScene : State :=
  toggleLock (handleDuplicate "r1" lockedScene).

Definition lockedTwin : Shape.t :=
  Shape.mk "r1" TRect [Point.mk 20 20; Point.mk 120 70] "#6366f1" 5 true
           (Some true) (Some 1) None.

(** A value is on the grid of spacing [g]. *)
Definition onGrid (g v : R) : Prop := exists k : Z, v = IZR k * g.

(** An off-grid rectangle under the selection tool, with grid snap on. *)
Definition offGridRect : Shape.t :=
  Shape.mk "g1" TRect [Point.mk 5 5; Point.mk 105 55] "#6366f1" 5 false
           None None None.

Definition snapScene : State :=
  setSnapToGrid true (setTool TMove (setShapes [offGridRect] initialState)).

Definition dragStarted : State :=
  setIsDragging true
    (setSelectedShapeId (Some "g1"%string)
       (setCurrentPos (Point.mk 0 0) (setStartPos (Point.mk 0 0) snapScene))).








(** The lock is toggled (Ctrl+L) while the rectangle [g1] is being
    dragged. *)
Definition lockedMidDrag : State := toggleLock dragStarted.

Definition lockedOffGrid : Shape.t :=
  Shape.setIsLocked (Some true) offGridRect.

Definition onGridPoint (g : R) (p : Point.t) : Prop :=
  onGrid g (Point.x p) /\ onGrid g (Point.y p).

(** The tools [stopDrawing] builds a two-point shape for: every tool that
    is not in [['pencil', 'eraser', 'move', 'hand']]. *)
Definition buildsTwoPoint (t : Tool) : bool :=
  match t with
  | TPencil | TEraser | TMove | THand => false
  | _ => true
  end.

(** No pan, drag, resize or rotation is in progress. *)
Definition noGesture (st : State) : Prop :=
  isPanning st = false /\ isDragging st = false
  /\ isResizing st = false /\ isRotating st = false.

(** A pointer-down event that does not start a pan. *)
Definition plainDown (e : PointerEvent) (st : State) : Prop :=
  isSpacePressed st = false /\ buttonIs e 1 = false /\ buttonIs e 2 = false.

(** The tools that draw a shape from an anchor and an end point. *)
Definition twoPointTool (t : Tool) : bool :=
  match t with
  | TRect | TRoundRect | TCircle | TLine | TArrow | TDashedLine => true
  | _ => false
  end.



Definition snapOn : State := setSnapToGrid true (setTool TRect initialState).

(** The store scenario: a rectangle and a line were drawn, in this order,
    so the undo stack holds the scene with the rectangle alone; then the
    rectangle is resized by its south-east handle by (+20, +10). *)
Definition rectObj : Store.ShapeObj :=
  Store.mkObj "r" TRect [0%nat; 1%nat] "#6366f1" 5 false None None None.

Definition lineObj : Store.ShapeObj :=
  Store.mkObj "l" TLine [2%nat; 3%nat] "#6366f1" 5 false None None None.

Definition rectDrawn : Store.t :=
  Store.mk [Point.mk 0 0; Point.mk 100 50; Point.mk 200 200; Point.mk 300 200]
           [rectObj] [[]] [].

Definition lineDrawn : Store.t := Store.saveHistory [rectObj; lineObj] rectDrawn.

Definition rectResized : Store.t :=
  Store.resizeStep (Some "r"%string) Hse 20 10 lineDrawn.

(** ** Further scenarios *)

(** Two committed scenes over the initial state. *)
Definition twoCommits : list (list Shape.t) := [[plainRect]; [plainRect; lockedRect]].

(** ** Toolbar handlers *)

(** The zoom buttons: [setScale(s => Math.min(s + 0.1, MAX_SCALE))],
    [setScale(s => Math.max(s - 0.1, MIN_SCALE))] and the reset
    [setScale(1); setOffset({x: 0, y: 0})]. *)
Definition zoomInButton (st : State) : State :=
  setScale (Rmin (scale st + 1 / 10) MAX_SCALE) st.

Definition zoomOutButton (st : State) : State :=
  setScale (Rmax (scale st - 1 / 10) MIN_SCALE) st.

Definition resetView (st : State) : State :=
  setOffset (Point.mk 0 0) (setScale 1 st).

(** Escape in the text entry:
    [setTextInput({ ...textInput, visible: false, value: '' })]. *)
Definition cancelText (st : State) : State :=
  setTextInput
    (TextInput.mk false (TextInput.x (textInput st))
                  (TextInput.y (textInput st)) EmptyString) st.

(** Every handler that changes the zoom scale. *)
Inductive ScaleEvent : Type :=
| EvWheel (rect : option DOMRect) (e : WheelEvent)
| EvZoomIn | EvZoomOut | EvReset.

Definition applyScaleEvent (ev : ScaleEvent) (st : State) : State :=
  match ev with
  | EvWheel rect e => handleWheel rect e st
  | EvZoomIn => zoomInButton st
  | EvZoomOut => zoomOutButton st
  | EvReset => resetView st
  end.

(** The lock status of every shape, in order. *)
Definition lockStatus (st : State) : list bool := map Shape.locked (shapes st).

Definition deleteKey (backspace : bool) (c m sh : bool) : KeyboardEvent :=
  mkKey (if backspace then "Backspace" else "Delete") c m sh.

(** ** Panning *)

(** The condition under which pointer down starts a pan. *)
Definition panTrigger (e : PointerEvent) (st : State) : bool :=
  isSpacePressed st || buttonIs e 1 || buttonIs e 2 || Tool_eqb (tool st) THand.

Definition clientPos (e : PointerEvent) : Point.t :=
  Point.mk (clientX e) (clientY e).

(** During a pan that started at [origin] from the state [st0]: the offset
    has moved by as much as the last pointer position, kept in [startPos],
    and nothing else of the scene has changed. *)
Definition Panning (st0 : State) (origin : Point.t) (st : State) : Prop :=
  isPanning st = true
  /\ Point.x (offset st)
     = Point.x (offset st0) + (Point.x (startPos st) - Point.x origin)
  /\ Point.y (offset st)
     = Point.y (offset st0) + (Point.y (startPos st) - Point.y origin)
  /\ shapes st = shapes st0 /\ undoStack st = undoStack st0
  /\ redoStack st = redoStack st0 /\ scale st = scale st0
  /\ selectedShapeId st = selectedShapeId st0.

Definition spaceHeld : State := setIsSpacePressed true zoomedScene.

(** The states of the freehand scenario after pointer down and after the
    four pointer moves. *)
Definition strokeDown : State :=
  match startDrawing canvas "s1" (click 10 10) initialState with
  | Some s => s
  | None => initialState
  end.

Definition strokeMoved : State :=
  match drawAll canvas [click 20 10; click 30 10; click 40 10; click 50 10]
                strokeDown with
  | Some s => s
  | None => strokeDown
  end.

(** A text label, selected. *)
Definition label : Shape.t :=
  Shape.mk "t1" TText [Point.mk 10 10] "#6366f1" 5 false None None
           (Some "hi"%string).

Definition labelScene : State :=
  setTool TMove
    (setSelectedShapeId (Some "t1"%string) (setShapes [label] initialState)).

(** ** Vector export *)

(** The frame [exportAsSVG] computes before it writes the document:
    [minX], [minY], [width] and [height] over the points of all shapes,
    with a margin of 20. [None]: the export returns at once (no shape), or
    there is no point to take an extremum of. *)
Record Frame := mkFrame { f_minX : R; f_minY : R; f_width : R; f_height : R }.

Definition exportFrame (st : State) : option Frame :=
  match shapes st with
  | [] => None
  | _ =>
      let pts := flat_map Shape.points (shapes st) in
      match extremum Rmin (map Point.x pts), extremum Rmax (map Point.x pts),
            extremum Rmin (map Point.y pts), extremum Rmax (map Point.y pts) with
      | Some lo_x, Some hi_x, Some lo_y, Some hi_y =>
          let minX := lo_x - 20 in
          let maxX := hi_x + 20 in
          let minY := lo_y - 20 in
          let maxY := hi_y + 20 in
          Some (mkFrame minX minY (maxX - minX) (maxY - minY))
      | _, _, _, _ => None
      end
  end.

(** A point lies inside a frame with the margin [m] to spare. *)
Definition insideFrame (m : R) (f : Frame) (p : Point.t) : Prop :=
  f_minX f + m <= Point.x p <= f_minX f + f_width f - m
  /\ f_minY f + m <= Point.y p <= f_minY f + f_height f - m.

(** What each resize handle does to a box whose first point is its
    north-west corner: the displacement of the first and of the second
    point. *)
Definition handleEffect (h : ResizeHandle) (dx dy : R)
  : (R * R) * (R * R) :=
  match h with
  | Hnw => ((dx, dy), (0, 0))
  | Hn => ((0, dy), (0, 0))
  | Hne => ((0, dy), (dx, 0))
  | He => ((0, 0), (dx, 0))
  | Hse => ((0, 0), (dx, dy))
  | Hs => ((0, 0), (0, dy))
  | Hsw => ((dx, 0), (0, dy))
  | Hw => ((dx, 0), (0, 0))
  end.

Definition squareTool (t : Tool) : bool :=
  match t with TRect | TCircle | TRoundRect => true | _ => false end.

Definition shiftDrawing : State :=
  setIsShiftPressed true
    (setCurrentPos (Point.mk 70 (-20))
       (setStartPos (Point.mk 10 10)
          (setIsDrawing true (setTool TRect initialState)))).

(** The text entry open at screen position (30, 40) holding [hello], in a
    panned and zoomed view. *)
Definition typing : State :=
  setTextInput (TextInput.mk true 30 40 "hello") zoomedPanned.

(** A string given by its bytes, and the text entry holding a space, a
    no-break space (U+00A0) and a line separator (U+2028). *)
Definition bytes (l : list nat) : string :=
  fold_right (fun n s => String (Ascii.ascii_of_nat n) s) EmptyString l.

Definition typingSpaces : State :=
  setTextInput
    (TextInput.mk true 30 40 (bytes [32; 194; 160; 226; 128; 168]%nat))
    zoomedPanned.

(** The white-space characters of ECMAScript beyond ASCII, in UTF-8, and
    three characters that are not white space: the next line control
    (U+0085), the Mongolian vowel separator (U+180E) and the zero width
    space (U+200B). *)
Definition unicodeSpaces : list string :=
  map bytes
      [[194; 160]; [225; 154; 128]; [226; 128; 128]; [226; 128; 129];
       [226; 128; 130]; [226; 128; 131]; [226; 128; 132]; [226; 128; 133];
       [226; 128; 134]; [226; 128; 135]; [226; 128; 136]; [226; 128; 137];
       [226; 128; 138]; [226; 128; 168]; [226; 128; 169]; [226; 128; 175];
       [226; 129; 159]; [227; 128; 128]; [239; 187; 191]]%nat.

Definition notSpaces : list string :=
  map bytes [[194; 133]; [225; 160; 142]; [226; 128; 139]]%nat.

(** The four compass directions from the centre of rotation. *)
Inductive Compass : Type := North | East | South | West.

Definition compassOffset (c : Compass) (d : R) : R * R :=
  match c with
  | North => (0, - d) | East => (d, 0) | South => (0, d) | West => (- d, 0)
  end.

Definition compassAngle (c : Compass) : R :=
  match c with
  | North => 0 | East => PI / 2 | South => PI | West => 3 * PI / 2
  end.

Definition spaceKey (c m sh : bool) : KeyboardEvent := mkKey " " c m sh.

(** ** Drawing gestures, exactly *)

(** The world position a pointer event is recorded at: the position under
    the pointer, snapped when grid snap is on. *)
Definition sample (st : State) (rect : DOMRect) (e : PointerEvent) : Point.t :=
  snapPoint st (toWorldCoords st (clientX e - left rect) (clientY e - top rect)).

(** What a drawing gesture leaves alone between pointer down and release. *)
Definition sameSettings (st0 st : State) : Prop :=
  scale st = scale st0 /\ offset st = offset st0
  /\ snapToGrid st = snapToGrid st0 /\ gridSpacing st = gridSpacing st0
  /\ tool st = tool st0 /\ color st = color st0
  /\ brushSize st = brushSize st0 /\ isFilled st = isFilled st0
  /\ isShiftPressed st = isShiftPressed st0
  /\ undoStack st = undoStack st0 /\ redoStack st = redoStack st0.

Definition strokeOf (rnd : string) (st0 : State) (pts : list Point.t)
  : Shape.t :=
  Shape.mk rnd (tool st0) pts (color st0) (brushSize st0 / scale st0) false
           None None None.

Definition StrokeGrows (rnd : string) (st0 : State) (pts : list Point.t)
    (st : State) : Prop :=
  shapes st = shapes st0 ++ [strokeOf rnd st0 pts]
  /\ isDrawing st = true /\ noGesture st /\ sameSettings st0 st.

Definition BoxStretches (st0 : State) (a c : Point.t) (st : State) : Prop :=
  shapes st = shapes st0 /\ isDrawing st = true /\ noGesture st
  /\ sameSettings st0 st /\ startPos st = a /\ currentPos st = c.




Definition rectTool : State := setTool TRect zoomedPanned.
Definition pencilTool : State := setTool TPencil zoomedPanned.

(** During a drag of the shapes with id [sel] that started at the recorded
    position [c0] over the scene of [st0]. *)
Definition Dragging (st0 : State) (sel : option string) (c0 : Point.t)
    (st : State) : Prop :=
  isPanning st = false /\ isDragging st = true
  /\ selectedShapeId st = sel /\ sameSettings st0 st
  /\ shapes st
     = translateSelected sel
         (Point.x (currentPos st) - Point.x c0,
          Point.y (currentPos st) - Point.y c0) (shapes st0).

Definition moveTool : State :=
  setTool TMove (setShapes [plainRect] initialState).

(** The rectangle (0,0)-(100,50) selected under the selection tool at scale
    1: its rotation handle is at (50, -30), its south-east resize handle at
    (100, 50). *)
Definition rectSelected : State :=
  setSelectedShapeId (Some "r2"%string) moveTool.

(** * Properties *)

(** ** Host primitives *)

Lemma Rltb_true (a b : R) : a < b -> Rltb a b = true.
Proof. intros H. unfold Rltb. destruct (Rlt_dec a b); [reflexivity | contradiction]. Qed.

Lemma Rltb_false (a b : R) : b <= a -> Rltb a b = false.
Proof. intros H. unfold Rltb. destruct (Rlt_dec a b); [lra | reflexivity]. Qed.

Lemma Rleb_true (a b : R) : a <= b -> Rleb a b = true.
Proof. intros H. unfold Rleb. destruct (Rle_dec a b); [reflexivity | contradiction]. Qed.

Lemma Rleb_false (a b : R) : b < a -> Rleb a b = false.
Proof. intros H. unfold Rleb. destruct (Rle_dec a b); [lra | reflexivity]. Qed.

Lemma Int_part_unique (k : Z) (r : R) :
  IZR k <= r < IZR k + 1 -> Int_part r = k.
Proof.
  intros [Hlo Hhi]. destruct (base_Int_part r) as [H1 H2].
  assert (Ha : (Int_part r < k + 1)%Z).
  { apply lt_IZR. rewrite plus_IZR. simpl. lra. }
  assert (Hb : (k < Int_part r + 1)%Z).
  { apply lt_IZR. rewrite plus_IZR. simpl. lra. }
  lia.
Qed.

Lemma Math_round_eval (k : Z) (v : R) :
  IZR k - / 2 <= v < IZR k + / 2 -> Math_round v = IZR k.
Proof.
  intros H. unfold Math_round. f_equal. apply Int_part_unique. lra.
Qed.


Lemma truthyNum_true (r : R) : r <> 0 -> truthyNum r = true.
Proof. intros H. unfold truthyNum. destruct (Req_dec_T r 0); [contradiction | reflexivity]. Qed.

Lemma lastOpt_app {A : Type} (l : list A) (a : A) : lastOpt (l ++ [a]) = Some a.
Proof. unfold lastOpt. rewrite rev_app_distr. reflexivity. Qed.

Lemma lastOpt_nil_iff {A : Type} (l : list A) : lastOpt l = None <-> l = [].
Proof.
  unfold lastOpt. split.
  - intros H. destruct (rev l) eqn:E; [| discriminate].
    apply (f_equal (@rev A)) in E. rewrite rev_involutive in E. exact E.
  - intros ->. reflexivity.
Qed.

(** ** History *)

Lemma undo_saveHistory (news : list Shape.t) (st : State) :
  shapes (undo (saveHistory news st)) = shapes st.
Proof.
  unfold undo. simpl. rewrite lastOpt_app. reflexivity.
Qed.

Lemma redo_undo_saveHistory (news : list Shape.t) (st : State) :
  shapes (redo (undo (saveHistory news st))) = news.
Proof.
  unfold undo. simpl. rewrite lastOpt_app.
  unfold redo. simpl. reflexivity.
Qed.

Lemma undo_empty (st : State) : undoStack st = [] -> undo st = st.
Proof. intros H. unfold undo. rewrite H. reflexivity. Qed.

Lemma redo_empty (st : State) : redoStack st = [] -> redo st = st.
Proof. intros H. unfold redo. rewrite H. reflexivity. Qed.

(** Evaluation of the handlers on concrete states: everything is unfolded
    but the operations on numbers. *)
Ltac run :=
  lazy -[Rplus Rminus Rmult Rdiv Ropp Rinv IZR sqrt cos sin PI Rmin Rmax Rabs
         pow Rpower atan Int_part Rlt_dec Rle_dec Req_dec_T Rltb Rleb
         truthyNum Math_round Math_atan2 dist].

Ltac run_in H :=
  lazy -[Rplus Rminus Rmult Rdiv Ropp Rinv IZR sqrt cos sin PI Rmin Rmax Rabs
         pow Rpower atan Int_part Rlt_dec Rle_dec Req_dec_T Rltb Rleb
         truthyNum Math_round Math_atan2 dist] in H.

Lemma screen_to_world_unit (v : R) : (v - 0 - 0) / 1 = v.
Proof. lra. Qed.

(** C1 (the code at the failing input). A freehand stroke of five samples
    is drawn on the empty scene and released. The release commits
    [saveHistory(shapes)] with the scene that already holds the stroke, so
    the entry pushed on the undo stack is the scene after the stroke, and
    undo restores that same scene: the shape count stays 1 instead of
    returning to 0. *)
Theorem freehand_stroke_survives_undo :
  exists st,
    strokeOfFive = Some st
    /\ map Shape.points (shapes st)
       = [[Point.mk 10 10; Point.mk 20 10; Point.mk 30 10; Point.mk 40 10;
           Point.mk 50 10]]
    /\ undoStack st = [shapes st]
    /\ shapes (undo st) = shapes st
    /\ List.length (shapes (undo st)) = 1%nat.
Proof.
  eexists. split.
  - run. reflexivity.
  - run. rewrite !screen_to_world_unit. repeat split; reflexivity.
Qed.

(** ** Undo and redo: selection and frame *)

Lemma undo_frame (st : State) :
  offset (undo st) = offset st /\ scale (undo st) = scale st
  /\ clipboard (undo st) = clipboard st.
Proof. unfold undo. destruct (lastOpt (undoStack st)); simpl; auto. Qed.

Lemma redo_frame (st : State) :
  selectedShapeId (redo st) = selectedShapeId st
  /\ offset (redo st) = offset st /\ scale (redo st) = scale st
  /\ clipboard (redo st) = clipboard st.
Proof. unfold redo. destruct (lastOpt (redoStack st)); simpl; auto. Qed.

Lemma undo_clears_selection (st : State) :
  undoStack st <> [] -> selectedShapeId (undo st) = None.
Proof.
  intros H. unfold undo. destruct (lastOpt (undoStack st)) eqn:E.
  - reflexivity.
  - apply lastOpt_nil_iff in E. contradiction.
Qed.


(** C10 (counterexample). With an empty undo stack, [undo] returns at its
    guard and the selection stays. *)
Lemma undo_keeps_selection_on_empty_stack :
  selectedShapeId (undo selectedNoHistory) <> None.
Proof. run. discriminate. Qed.

(** C10 (amended). For every state: when the undo stack is not empty,
    [undo] sets the selected id to null, and a [redo] after it does not
    bring the former selection back; when the undo stack is empty, [undo]
    returns at its guard and changes nothing, the selection included;
    [redo] always leaves the selected id as it is; neither [undo] nor
    [redo] changes the pan offset, the zoom scale or the clipboard. *)
Theorem undo_redo_selection_frame :
  forall st : State,
    (undoStack st <> [] ->
     selectedShapeId (undo st) = None
     /\ selectedShapeId (redo (undo st)) = None)
    /\ (undoStack st = [] -> undo st = st)
    /\ selectedShapeId (redo st) = selectedShapeId st
    /\ (offset (undo st) = offset st /\ scale (undo st) = scale st
        /\ clipboard (undo st) = clipboard st)
    /\ (offset (redo st) = offset st /\ scale (redo st) = scale st
        /\ clipboard (redo st) = clipboard st).
Proof.
  intros st. split; [| split; [| split; [| split]]].
  - intros H.
    assert (Hu : selectedShapeId (undo st) = None)
      by (apply undo_clears_selection; exact H).
    split; [exact Hu |].
    rewrite (proj1 (redo_frame (undo st))). exact Hu.
  - apply undo_empty.
  - apply redo_frame.
  - apply undo_frame.
  - apply redo_frame.
Qed.

Lemma undo_redo_selection_frame_witness :
  (undoStack rectCommitted <> []
   /\ selectedShapeId rectCommitted = Some "a"%string
   /\ selectedShapeId (undo rectCommitted) = None
   /\ selectedShapeId (redo (undo rectCommitted)) = None)
  /\ (undoStack rectUndone = []
      /\ redoStack rectUndone <> []
      /\ undo rectUndone = rectUndone
      /\ shapes (redo rectUndone) = [plainRect]
      /\ selectedShapeId (redo rectUndone) = selectedShapeId rectUndone)
  /\ (undoStack selectedNoHistory = []
      /\ undo selectedNoHistory = selectedNoHistory)
  /\ (offset (undo zoomedCommitted) = Point.mk 30 (-12)
      /\ scale (redo (undo zoomedCommitted)) = 2).
Proof.
  assert (H1 : undoStack rectCommitted <> []) by (run; discriminate).
  assert (H2 : undoStack rectUndone = []) by reflexivity.
  assert (H3 : undoStack selectedNoHistory = []) by reflexivity.
  split; [| split; [| split]].
  - split; [exact H1 |]. split; [reflexivity |].
    exact (proj1 (undo_redo_selection_frame rectCommitted) H1).
  - split; [exact H2 |]. split; [run; discriminate |].
    split; [exact (proj1 (proj2 (undo_redo_selection_frame rectUndone)) H2) |].
    split; [reflexivity |].
    exact (proj1 (proj2 (proj2 (undo_redo_selection_frame rectUndone)))).
  - split; [exact H3 |].
    exact (proj1 (proj2 (undo_redo_selection_frame selectedNoHistory)) H3).
  - split.
    + rewrite (proj1 (proj1 (proj2 (proj2 (proj2
                 (undo_redo_selection_frame zoomedCommitted)))))).
      reflexivity.
    + rewrite (proj1 (proj2 (proj2 (proj2 (proj2 (proj2
                 (undo_redo_selection_frame (undo zoomedCommitted)))))))).
      rewrite (proj1 (proj2 (proj1 (proj2 (proj2 (proj2
                 (undo_redo_selection_frame zoomedCommitted))))))).
      reflexivity.
Defined.

(** ** Coordinate mapper *)

Lemma clampScale_bounds (v : R) : MIN_SCALE <= clampScale v <= MAX_SCALE.
Proof.
  unfold clampScale, MIN_SCALE, MAX_SCALE.
  unfold Rmin, Rmax.
  destruct (Rle_dec (5 / 100) v); destruct (Rle_dec _ 20); lra.
Qed.

Lemma clampScale_cases (v : R) :
  (v < MIN_SCALE -> clampScale v = MIN_SCALE)
  /\ (MIN_SCALE <= v <= MAX_SCALE -> clampScale v = v)
  /\ (MAX_SCALE < v -> clampScale v = MAX_SCALE).
Proof.
  unfold clampScale, MIN_SCALE, MAX_SCALE, Rmin, Rmax.
  repeat split; intros H;
    destruct (Rle_dec (5 / 100) v); destruct (Rle_dec _ 20); lra.
Qed.

Lemma world_screen_roundtrip (st : State) (p : Point.t) :
  scale st <> 0 ->
  toWorldCoords st (Point.x (toScreenCoords st (Point.x p) (Point.y p)))
                   (Point.y (toScreenCoords st (Point.x p) (Point.y p))) = p.
Proof.
  intros H. destruct p as [a b]. unfold toWorldCoords, toScreenCoords. simpl.
  f_equal; field; exact H.
Qed.

Lemma handleWheel_zoom (rect : DOMRect) (e : WheelEvent) (st : State) :
  w_ctrlKey e || w_metaKey e = true ->
  let st' := handleWheel (Some rect) e st in
  let mx := w_clientX e - left rect in
  let my := w_clientY e - top rect in
  let w := toWorldCoords st mx my in
  scale st' = clampScale (scale st * wheelFactor e)
  /\ offset st' = Point.mk (mx - Point.x w * scale st')
                           (my - Point.y w * scale st')
  /\ toScreenCoords st' (Point.x w) (Point.y w) = Point.mk mx my.
Proof.
  intros H. unfold handleWheel. rewrite H. simpl.
  split; [reflexivity |]. split; [reflexivity |].
  unfold toScreenCoords. simpl. f_equal; ring.
Qed.


Lemma wheelFactor_zoomIn : wheelFactor zoomIn = 11 / 10.
Proof.
  unfold wheelFactor, zoomIn. simpl.
  replace (- -100 / 100) with 1 by lra.
  apply Rpower_1. lra.
Qed.

(** C3. A zoom gesture (wheel with Ctrl or Meta held) on a mounted canvas
    sets the scale to [clamp(scale * factor, 0.05, 20)], sets the offset to
    [m - w * scale'] for the pointer position [m] and the world point [w]
    under the pointer before the zoom, and [w] is drawn at [m] again
    afterwards. In the scenario (pointer at (400, 300), scale 1, offset
    (0, 0), factor 1.1) the new scale is 1.1 and the world point (400, 300)
    maps back to the screen point (400, 300). *)
Theorem zoom_anchored_at_pointer :
  (forall (rect : DOMRect) (e : WheelEvent) (st : State),
      w_ctrlKey e || w_metaKey e = true ->
      let st' := handleWheel (Some rect) e st in
      let mx := w_clientX e - left rect in
      let my := w_clientY e - top rect in
      let w := toWorldCoords st mx my in
      scale st' = Rmin (Rmax (5 / 100) (scale st * wheelFactor e)) 20
      /\ 5 / 100 <= scale st' <= 20
      /\ offset st' = Point.mk (mx - Point.x w * scale st')
                               (my - Point.y w * scale st')
      /\ toScreenCoords st' (Point.x w) (Point.y w) = Point.mk mx my)
  /\ (let st' := handleWheel canvas zoomIn initialState in
      wheelFactor zoomIn = 11 / 10
      /\ toWorldCoords initialState 400 300 = Point.mk 400 300
      /\ scale st' = 11 / 10
      /\ toScreenCoords st' 400 300 = Point.mk 400 300).
Proof.
  split.
  - intros rect e st H.
    destruct (handleWheel_zoom rect e st H) as [Hs [Ho Hm]].
    split; [exact Hs |]. split; [| split; [exact Ho | exact Hm]].
    cbv zeta. rewrite Hs. apply clampScale_bounds.
  - cbv zeta.
    assert (Hw : toWorldCoords initialState 400 300 = Point.mk 400 300).
    { unfold toWorldCoords. simpl. f_equal; lra. }
    assert (Hs : scale (handleWheel canvas zoomIn initialState) = 11 / 10).
    { unfold canvas.
      rewrite (proj1 (handleWheel_zoom (mkRect 0 0) zoomIn initialState eq_refl)).
      rewrite wheelFactor_zoomIn. simpl.
      rewrite (proj1 (proj2 (clampScale_cases _)));
        [lra | unfold MIN_SCALE, MAX_SCALE; lra]. }
    split; [apply wheelFactor_zoomIn |]. split; [exact Hw |].
    split; [exact Hs |].
    unfold toScreenCoords. rewrite Hs.
    unfold handleWheel, canvas. simpl.
    fold (wheelFactor zoomIn). rewrite wheelFactor_zoomIn.
    rewrite (proj1 (proj2 (clampScale_cases _)));
      [f_equal; lra | unfold MIN_SCALE, MAX_SCALE; lra].
Qed.

Lemma zoom_anchored_at_pointer_witness :
  w_ctrlKey zoomIn || w_metaKey zoomIn = true
  /\ (let st' := handleWheel (Some (mkRect 0 0)) zoomIn initialState in
      let mx := w_clientX zoomIn - left (mkRect 0 0) in
      let my := w_clientY zoomIn - top (mkRect 0 0) in
      let w := toWorldCoords initialState mx my in
      scale st' = Rmin (Rmax (5 / 100) (scale initialState * wheelFactor zoomIn)) 20
      /\ 5 / 100 <= scale st' <= 20
      /\ offset st' = Point.mk (mx - Point.x w * scale st')
                               (my - Point.y w * scale st')
      /\ toScreenCoords st' (Point.x w) (Point.y w) = Point.mk mx my).
Proof.
  split; [reflexivity |].
  exact (proj1 zoom_anchored_at_pointer (mkRect 0 0) zoomIn initialState eq_refl).
Defined.

(** C4. For every point, every offset and every scale between [MIN_SCALE]
    and [MAX_SCALE], mapping the point to the screen and back to the world
    gives the point again (exact arithmetic on reals). *)
Theorem toWorld_toScreen_roundtrip (st : State) (p : Point.t) :
  MIN_SCALE <= scale st <= MAX_SCALE ->
  toWorldCoords st (Point.x (toScreenCoords st (Point.x p) (Point.y p)))
                   (Point.y (toScreenCoords st (Point.x p) (Point.y p))) = p.
Proof.
  intros H. apply world_screen_roundtrip. unfold MIN_SCALE in H. lra.
Qed.


Lemma toWorld_toScreen_roundtrip_witness :
  MIN_SCALE <= scale zoomedPanned <= MAX_SCALE
  /\ toWorldCoords zoomedPanned
       (Point.x (toScreenCoords zoomedPanned (Point.x (Point.mk 7 9))
                                             (Point.y (Point.mk 7 9))))
       (Point.y (toScreenCoords zoomedPanned (Point.x (Point.mk 7 9))
                                             (Point.y (Point.mk 7 9))))
     = Point.mk 7 9.
Proof.
  assert (H : MIN_SCALE <= scale zoomedPanned <= MAX_SCALE).
  { unfold MIN_SCALE, MAX_SCALE. simpl. lra. }
  split; [exact H | exact (toWorld_toScreen_roundtrip zoomedPanned (Point.mk 7 9) H)].
Defined.

(** ** Clipboard: duplicate and paste *)

Lemma offsetCopy_fields (rnd : string) (src : Shape.t) :
  let c := offsetCopy rnd src in
  Shape.id c = rnd
  /\ Shape.points c = map (shiftPoint 20 20) (Shape.points src)
  /\ Shape.isLocked c = Some false
  /\ Shape.tool c = Shape.tool src /\ Shape.color c = Shape.color src
  /\ Shape.size c = Shape.size src /\ Shape.isFilled c = Shape.isFilled src
  /\ Shape.rotation c = Shape.rotation src /\ Shape.text c = Shape.text src.
Proof. unfold offsetCopy, jsonClone. simpl. repeat split. Qed.

Lemma handleDuplicate_shapes (rnd : string) (st : State) (src : Shape.t) :
  truthyId (selectedShapeId st) = true ->
  find (idIs (selectedShapeId st)) (shapes st) = Some src ->
  shapes (handleDuplicate rnd st) = shapes st ++ [offsetCopy rnd src]
  /\ selectedShapeId (handleDuplicate rnd st) = Some rnd
  /\ undoStack (handleDuplicate rnd st)
     = sliceLast (MAX_HISTORY - 1) (undoStack st) ++ [shapes st].
Proof.
  intros Ht Hf. unfold handleDuplicate. rewrite Ht, Hf. simpl. auto.
Qed.

Lemma handlePaste_shapes (rnd : string) (st : State) (src : Shape.t) :
  clipboard st = Some src ->
  shapes (handlePaste rnd st) = shapes st ++ [offsetCopy rnd src]
  /\ selectedShapeId (handlePaste rnd st) = Some rnd
  /\ undoStack (handlePaste rnd st)
     = sliceLast (MAX_HISTORY - 1) (undoStack st) ++ [shapes st].
Proof.
  intros Hc. unfold handlePaste. rewrite Hc. simpl. auto.
Qed.

(** C9 (counterexample). The id of the copy is the random draw and is not
    compared with any id of the scene: when the draw repeats the id of the
    source, the duplicate has the id of its source. *)
Lemma duplicate_id_can_repeat :
  exists src copy,
    find (idIs (selectedShapeId lockedScene)) (shapes lockedScene) = Some src
    /\ shapes (handleDuplicate "r1" lockedScene)
       = shapes lockedScene ++ [copy]
    /\ Shape.id copy = Shape.id src.
Proof.
  exists lockedRect, (offsetCopy "r1" lockedRect).
  split; [reflexivity |]. split; reflexivity.
Qed.

(** C9 (amended). Duplicating the selected shape, and pasting the clipboard
    shape, appends to the unchanged shape sequence one copy whose id is the
    newly drawn random string (so it differs from the id of the source
    whenever the draw does), whose points are the points of the source each
    shifted by (+20, +20), whose [isLocked] is [false] even when the source
    is locked, and whose other fields are those of the source. *)
Theorem duplicate_paste_copy (rnd : string) (st : State) (src : Shape.t) :
  (truthyId (selectedShapeId st) = true ->
   find (idIs (selectedShapeId st)) (shapes st) = Some src ->
   exists copy,
     shapes (handleDuplicate rnd st) = shapes st ++ [copy]
     /\ OffsetCopyOf rnd src copy)
  /\ (clipboard st = Some src ->
      exists copy,
        shapes (handlePaste rnd st) = shapes st ++ [copy]
        /\ OffsetCopyOf rnd src copy).
Proof.
  assert (Hc : OffsetCopyOf rnd src (offsetCopy rnd src)).
  { destruct (offsetCopy_fields rnd src) as (Hi & Hp & Hl & Hrest).
    unfold OffsetCopyOf. split; [exact Hi |]. split; [congruence |].
    split; [exact Hp |]. split; [exact Hl |]. exact Hrest. }
  split.
  - intros Ht Hf. exists (offsetCopy rnd src).
    split; [apply (handleDuplicate_shapes rnd st src Ht Hf) | exact Hc].
  - intros Hcl. exists (offsetCopy rnd src).
    split; [apply (handlePaste_shapes rnd st src Hcl) | exact Hc].
Qed.

Lemma duplicate_paste_copy_witness :
  (truthyId (selectedShapeId lockedScene) = true
   /\ find (idIs (selectedShapeId lockedScene)) (shapes lockedScene)
      = Some lockedRect
   /\ exists copy,
       shapes (handleDuplicate "n7" lockedScene) = shapes lockedScene ++ [copy]
       /\ OffsetCopyOf "n7" lockedRect copy)
  /\ (clipboard lockedScene = Some lockedRect
      /\ exists copy,
          shapes (handlePaste "n7" lockedScene) = shapes lockedScene ++ [copy]
          /\ OffsetCopyOf "n7" lockedRect copy).
Proof.
  destruct (duplicate_paste_copy "n7" lockedScene lockedRect) as [Hd Hp].
  split.
  - split; [reflexivity |]. split; [reflexivity |].
    exact (Hd eq_refl eq_refl).
  - split; [reflexivity |]. exact (Hp eq_refl).
Defined.

(** ** Keyboard: nudging *)

Lemma nudgeSelected_unlocked (dx dy : R) (st : State) (s : Shape.t) :
  truthyId (selectedShapeId st) = true ->
  find (idIs (selectedShapeId st)) (shapes st) = Some s ->
  Shape.locked s = false ->
  nudgeSelected dx dy st
  = setShapes (translateSelected (selectedShapeId st) (dx, dy) (shapes st)) st.
Proof.
  intros Ht Hf Hl. unfold nudgeSelected. rewrite Ht, Hf, Hl. reflexivity.
Qed.

Lemma handleKeyDown_arrow (a : Arrow) (c m sh ai : bool) (rnd : string)
    (st : State) :
  TextInput.visible (textInput st) = false ->
  handleKeyDown ai rnd (mkKey (arrowKey a) c m sh) st
  = arrows (mkKey (arrowKey a) c m sh) st.
Proof.
  intros Hv. unfold handleKeyDown. rewrite Hv.
  destruct a; destruct c, m; reflexivity.
Qed.

Lemma arrows_nudge (a : Arrow) (c m sh : bool) (st : State) :
  truthyId (selectedShapeId st) = true ->
  arrows (mkKey (arrowKey a) c m sh) st
  = nudgeSelected (fst (arrowStep a ((if sh then 10 else 1) / scale st)))
                  (snd (arrowStep a ((if sh then 10 else 1) / scale st))) st.
Proof.
  intros Ht. unfold arrows. rewrite Ht. destruct a; reflexivity.
Qed.

Lemma handleKeyUp_history (e : KeyboardEvent) (st : State) :
  undoStack (handleKeyUp e st) = undoStack st
  /\ redoStack (handleKeyUp e st) = redoStack st
  /\ shapes (handleKeyUp e st) = shapes st.
Proof.
  unfold handleKeyUp.
  destruct (TextInput.visible (textInput st)); [auto |].
  destruct (keyIs e "Shift"); destruct (keyIs e " ");
    destruct (Tool_eqb (tool st) THand); simpl; auto.
Qed.

(** C7 (counterexample). At zoom 2 a plain ArrowRight press moves the
    selected unlocked rectangle by half a world unit, not by one, and the
    release of the key commits nothing: the undo stack is still empty. *)
Lemma nudge_is_one_screen_pixel_and_uncommitted :
  let e := mkKey "ArrowRight" false false false in
  let st1 := handleKeyDown false "n7" e zoomedScene in
  map Shape.points (shapes st1)
  = [[Point.mk (0 + 1 / 2) (0 + 0); Point.mk (100 + 1 / 2) (50 + 0)]]
  /\ map Shape.points (shapes st1)
     <> map (fun s => map (shiftPoint 1 0) (Shape.points s)) (shapes zoomedScene)
  /\ undoStack (handleKeyUp e st1) = [].
Proof.
  cbv zeta. split; [| split].
  - run. reflexivity.
  - run. intros H. injection H as H _. lra.
  - run. reflexivity.
Qed.

(** C7 (amended). While no text entry is open, each arrow-key press on a
    selected unlocked shape translates every point of that shape along the
    arrow's axis by [1 / scale] world units, and by [10 / scale] when Shift
    is held, which is one world unit (ten) exactly at scale 1; the press
    changes no other shape and pushes nothing on the undo stack, whatever
    the number of repeats. *)
Theorem arrow_key_nudge (a : Arrow) (c m sh ai : bool) (rnd : string)
    (st : State) (s : Shape.t) :
  TextInput.visible (textInput st) = false ->
  truthyId (selectedShapeId st) = true ->
  find (idIs (selectedShapeId st)) (shapes st) = Some s ->
  Shape.locked s = false ->
  let st' := handleKeyDown ai rnd (mkKey (arrowKey a) c m sh) st in
  let amount := (if sh then 10 else 1) / scale st in
  shapes st' = translateSelected (selectedShapeId st) (arrowStep a amount)
                                 (shapes st)
  /\ (scale st = 1 -> amount = if sh then 10 else 1)
  /\ undoStack st' = undoStack st
  /\ redoStack st' = redoStack st.
Proof.
  intros Hv Ht Hf Hl. cbv zeta.
  rewrite (handleKeyDown_arrow a c m sh ai rnd st Hv).
  rewrite (arrows_nudge a c m sh st Ht).
  rewrite (nudgeSelected_unlocked _ _ st s Ht Hf Hl).
  simpl. split.
  - destruct (arrowStep a _); reflexivity.
  - split; [| split; reflexivity].
    intros Hs. rewrite Hs. destruct sh; lra.
Qed.

Lemma arrow_key_nudge_witness :
  TextInput.visible (textInput zoomedScene) = false
  /\ truthyId (selectedShapeId zoomedScene) = true
  /\ find (idIs (selectedShapeId zoomedScene)) (shapes zoomedScene)
     = Some plainRect
  /\ Shape.locked plainRect = false
  /\ (let st' := handleKeyDown false "n7"
                   (mkKey (arrowKey ArrowLeft) false false true) zoomedScene in
      let amount := (if true then 10 else 1) / scale zoomedScene in
      shapes st' = translateSelected (selectedShapeId zoomedScene)
                     (arrowStep ArrowLeft amount) (shapes zoomedScene)
      /\ (scale zoomedScene = 1 -> amount = if true then 10 else 1)
      /\ undoStack st' = undoStack zoomedScene
      /\ redoStack st' = redoStack zoomedScene).
Proof.
  split; [reflexivity |]. split; [reflexivity |]. split; [reflexivity |].
  split; [reflexivity |].
  exact (arrow_key_nudge ArrowLeft false false true false "n7" zoomedScene
           plainRect eq_refl eq_refl eq_refl eq_refl).
Defined.

(** ** Hit-testing of rotated shapes *)

Lemma Rltb_sqrt (a b : R) :
  0 <= a -> 0 <= b -> Rltb (sqrt a) b = Rltb a (b * b).
Proof.
  intros Ha Hb. unfold Rltb.
  destruct (Rlt_dec (sqrt a) b) as [H | H]; destruct (Rlt_dec a (b * b)) as [H' | H'];
    try reflexivity; exfalso.
  - apply H'. pose proof (sqrt_sqrt a Ha). pose proof (sqrt_pos a). nra.
  - apply H. apply Rnot_le_lt. intros Hle.
    pose proof (sqrt_sqrt a Ha).
    assert (b * b <= sqrt a * sqrt a) by nra.
    lra.
Qed.

Lemma Rltb_dist (ax ay bx by_ h : R) :
  0 <= h ->
  Rltb (dist ax ay bx by_) h
  = Rltb ((ax - bx) * (ax - bx) + (ay - by_) * (ay - by_)) (h * h).
Proof.
  intros Hh. unfold dist.
  replace ((ax - bx) ^ 2 + (ay - by_) ^ 2)
    with ((ax - bx) * (ax - bx) + (ay - by_) * (ay - by_)) by ring.
  apply Rltb_sqrt; [| exact Hh].
  pose proof (Rle_0_sqr (ax - bx)). pose proof (Rle_0_sqr (ay - by_)).
  unfold Rsqr in *. lra.
Qed.

Lemma rotateAbout_half_turn (c p : Point.t) :
  rotateAbout c (- PI) p
  = Point.mk (2 * Point.x c - Point.x p) (2 * Point.y c - Point.y p).
Proof.
  unfold rotateAbout. rewrite cos_neg, sin_neg, cos_PI, sin_PI.
  f_equal; ring.
Qed.

Lemma rotateAbout_back_quarter_turn (c p : Point.t) :
  rotateAbout c (- (PI / 2)) p
  = Point.mk (Point.x c + (Point.y p - Point.y c))
             (Point.y c - (Point.x p - Point.x c)).
Proof.
  unfold rotateAbout. rewrite cos_neg, sin_neg, cos_PI2, sin_PI2.
  f_equal; ring.
Qed.

Lemma Rmin_Rmax_sum (a b : R) : Rmin a b + Rmax a b = a + b.
Proof. unfold Rmin, Rmax. destruct (Rle_dec a b); lra. Qed.

Lemma boundingBoxCenter_two (p1 p2 : Point.t) :
  boundingBoxCenter [p1; p2] = Some (rotationCenter p1 p2).
Proof.
  unfold boundingBoxCenter, rotationCenter. simpl.
  rewrite !Rmin_Rmax_sum. reflexivity.
Qed.

Lemma boundingBoxCenter_one (p1 : Point.t) :
  boundingBoxCenter [p1] = Some (rotationCenter p1 p1).
Proof.
  unfold boundingBoxCenter, rotationCenter. simpl. reflexivity.
Qed.

Lemma checkHit_rotated (st : State) (pos : Point.t) (s : Shape.t) (r : R)
    (p1 p2 : Point.t) :
  anchors (Shape.points s) = Some (p1, p2) ->
  Shape.rotation s = Some r -> r <> 0 ->
  checkHit st pos s
  = checkHit st (rotateAbout (rotationCenter p1 p2) (- r) pos)
             (Shape.setRotation None s).
Proof.
  intros Ha Hr Hnz. unfold checkHit. simpl. rewrite Ha.
  unfold activeRotation. simpl. rewrite Hr, (truthyNum_true r Hnz).
  reflexivity.
Qed.

Lemma PI_neq_0 : PI <> 0.
Proof. pose proof PI_RGT_0. lra. Qed.

Lemma PI2_neq_0 : PI / 2 <> 0.
Proof. pose proof PI_RGT_0. lra. Qed.

(** C6 (counterexample). On a freehand stroke of three samples turned by
    half a turn, [checkHit] rotates the query point about the midpoint of
    the first two samples, (5, 0), and reports a hit at (10, 0); the test
    about the centre of the bounding box of the stroke, (50, 50), reports
    none. *)
Lemma freehand_rotation_center_is_not_bounding_box :
  boundingBoxCenter (Shape.points turnedStroke) = Some (Point.mk 50 50)
  /\ checkHit initialState (Point.mk 10 0) turnedStroke = Some true
  /\ hitAboutBoundingBox initialState (Point.mk 10 0) turnedStroke = Some false.
Proof.
  assert (Hc : boundingBoxCenter (Shape.points turnedStroke)
               = Some (Point.mk 50 50)).
  { unfold boundingBoxCenter, turnedStroke. simpl.
    rewrite (Rmin_left 0 10), (Rmax_right 0 10), (Rmax_right 10 100),
      (Rmin_left 0 0), (Rmax_right 0 0), (Rmin_left 0 100),
      (Rmax_right 0 100) by lra.
    f_equal. f_equal; lra. }
  split; [exact Hc |]. split.
  - unfold checkHit, turnedStroke. simpl.
    unfold activeRotation. simpl. rewrite (truthyNum_true PI PI_neq_0).
    rewrite rotateAbout_half_turn. unfold hitLocal. simpl.
    rewrite Rltb_dist by lra.
    rewrite Rltb_true by lra.
    reflexivity.
  - unfold hitAboutBoundingBox. rewrite Hc.
    unfold turnedStroke. simpl.
    unfold activeRotation. simpl. rewrite (truthyNum_true PI PI_neq_0).
    rewrite rotateAbout_half_turn. unfold hitLocal. simpl.
    rewrite !Rltb_dist by lra.
    rewrite !Rltb_false by lra.
    reflexivity.
Qed.

(** C6 (amended). For every shape with a nonzero rotation, [checkHit]
    returns what the unrotated per-variant test (freehand point proximity,
    circle radius comparison, tolerance-expanded box) returns on the query
    point rotated back by [-rotation] about the midpoint of the first two
    points of the shape (the first point itself when there is only one);
    that midpoint is the centre of the bounding box for every shape of one
    or two points. After a quarter turn of the rectangle (0,0)-(100,50), its
    former left-edge midpoint (0, 25) no longer hits, and the point
    (50, -25), where the rotation puts that midpoint, hits. *)
Theorem checkHit_inverse_rotation :
  (forall (st : State) (pos : Point.t) (s : Shape.t) (r : R) (p1 p2 : Point.t),
      anchors (Shape.points s) = Some (p1, p2) ->
      Shape.rotation s = Some r -> r <> 0 ->
      let target := rotateAbout (rotationCenter p1 p2) (- r) pos in
      checkHit st pos s = checkHit st target (Shape.setRotation None s)
      /\ checkHit st pos s
         = Some (hitLocal st (Point.x target) (Point.y target) s p1 p2)
      /\ ((List.length (Shape.points s) <= 2)%nat ->
          boundingBoxCenter (Shape.points s) = Some (rotationCenter p1 p2)))
  /\ checkHit initialState (Point.mk 0 25) (Shape.setRotation None quarterTurnRect)
     = Some true
  /\ checkHit initialState (Point.mk 0 25) quarterTurnRect = Some false
  /\ checkHit initialState (Point.mk 50 (-25)) quarterTurnRect = Some true.
Proof.
  split.
  - intros st pos s r p1 p2 Ha Hr Hnz. cbv zeta.
    split; [apply (checkHit_rotated st pos s r p1 p2 Ha Hr Hnz) |].
    split.
    + unfold checkHit. rewrite Ha. unfold activeRotation.
      rewrite Hr, (truthyNum_true r Hnz). reflexivity.
    + intros Hlen. destruct (Shape.points s) as [| a [| b [| c rest]]];
        simpl in Ha, Hlen.
      * discriminate.
      * injection Ha as <- <-. apply boundingBoxCenter_one.
      * injection Ha as <- <-. apply boundingBoxCenter_two.
      * lia.
  - assert (Hbox : forall tx ty,
               hitLocal initialState tx ty quarterTurnRect
                        (Point.mk 0 0) (Point.mk 100 50)
               = Rleb (-10) tx && Rleb tx 110 && Rleb (-10) ty && Rleb ty 60).
    { intros tx ty. unfold hitLocal. simpl.
      rewrite !Rmin_left, !Rmax_right by lra.
      replace (0 - 10 / 1) with (-10) by lra.
      replace (100 + 10 / 1) with 110 by lra.
      replace (50 + 10 / 1) with 60 by lra. reflexivity. }
    split; [| split].
    + unfold checkHit. simpl. unfold activeRotation. simpl.
      change (hitLocal initialState 0 25
                (Shape.setRotation None quarterTurnRect)
                (Point.mk 0 0) (Point.mk 100 50))
        with (hitLocal initialState 0 25 quarterTurnRect
                (Point.mk 0 0) (Point.mk 100 50)).
      rewrite Hbox. rewrite !Rleb_true by lra. reflexivity.
    + unfold checkHit. simpl. unfold activeRotation. simpl.
      rewrite (truthyNum_true _ PI2_neq_0).
      rewrite rotateAbout_back_quarter_turn. simpl. rewrite Hbox.
      rewrite (Rleb_false _ 60) by lra.
      rewrite !andb_false_r. reflexivity.
    + unfold checkHit. simpl. unfold activeRotation. simpl.
      rewrite (truthyNum_true _ PI2_neq_0).
      rewrite rotateAbout_back_quarter_turn. simpl. rewrite Hbox.
      rewrite !Rleb_true by lra. reflexivity.
Qed.

Lemma checkHit_inverse_rotation_witness :
  anchors (Shape.points quarterTurnRect)
  = Some (Point.mk 0 0, Point.mk 100 50)
  /\ Shape.rotation quarterTurnRect = Some (PI / 2)
  /\ PI / 2 <> 0
  /\ (let target :=
        rotateAbout (rotationCenter (Point.mk 0 0) (Point.mk 100 50))
                    (- (PI / 2)) (Point.mk 0 25) in
      checkHit initialState (Point.mk 0 25) quarterTurnRect
      = checkHit initialState target (Shape.setRotation None quarterTurnRect)
      /\ checkHit initialState (Point.mk 0 25) quarterTurnRect
         = Some (hitLocal initialState (Point.x target) (Point.y target)
                          quarterTurnRect (Point.mk 0 0) (Point.mk 100 50))
      /\ ((List.length (Shape.points quarterTurnRect) <= 2)%nat ->
          boundingBoxCenter (Shape.points quarterTurnRect)
          = Some (rotationCenter (Point.mk 0 0) (Point.mk 100 50)))).
Proof.
  split; [reflexivity |]. split; [reflexivity |].
  split; [exact PI2_neq_0 |].
  exact (proj1 checkHit_inverse_rotation initialState (Point.mk 0 25)
           quarterTurnRect (PI / 2) (Point.mk 0 0) (Point.mk 100 50)
           eq_refl eq_refl PI2_neq_0).
Defined.
(** Reduction of the state projections over the state setters only. *)
Ltac sred :=
  lazy beta iota zeta delta
    [shapes tool previousTool color brushSize isFilled snapToGrid scale
     offset isPanning isSpacePressed isDrawing isDragging isResizing
     isRotating activeResizeHandle selectedShapeId hoveredShapeId
     startPos currentPos isShiftPressed isSidebarOpen clipboard
     gridSpacing undoStack redoStack textInput setShapes setTool
     setPreviousTool setColor setBrushSize setIsFilled setSnapToGrid
     setScale setOffset setIsPanning setIsSpacePressed setIsDrawing
     setIsDragging setIsResizing setIsRotating setActiveResizeHandle
     setSelectedShapeId setHoveredShapeId setStartPos setCurrentPos
     setIsShiftPressed setIsSidebarOpen setClipboard setGridSpacing
     setUndoStack setRedoStack setTextInput saveHistory].

Ltac sred_in H :=
  lazy beta iota zeta delta
    [shapes tool previousTool color brushSize isFilled snapToGrid scale
     offset isPanning isSpacePressed isDrawing isDragging isResizing
     isRotating activeResizeHandle selectedShapeId hoveredShapeId
     startPos currentPos isShiftPressed isSidebarOpen clipboard
     gridSpacing undoStack redoStack textInput setShapes setTool
     setPreviousTool setColor setBrushSize setIsFilled setSnapToGrid
     setScale setOffset setIsPanning setIsSpacePressed setIsDrawing
     setIsDragging setIsResizing setIsRotating setActiveResizeHandle
     setSelectedShapeId setHoveredShapeId setStartPos setCurrentPos
     setIsShiftPressed setIsSidebarOpen setClipboard setGridSpacing
     setUndoStack setRedoStack setTextInput saveHistory] in H.

(** ** Locked shapes *)

Lemma idIs_same_id (sel : option string) (s t : Shape.t) :
  idIs sel s = true -> idIs sel t = true -> Shape.id t = Shape.id s.
Proof.
  unfold idIs. destruct sel as [i |]; [| discriminate].
  intros Hs Ht. apply String.eqb_eq in Hs, Ht. congruence.
Qed.

Lemma idLocked_target (sel : option string) (l : list Shape.t)
    (s : Shape.t) :
  In s l -> idLocked s l ->
  match find (idIs sel) l with
  | Some shape => Shape.locked shape
  | None => false
  end = false ->
  idIs sel s = false.
Proof.
  intros Hin Hg Hf. destruct (idIs sel s) eqn:E; [| reflexivity].
  destruct (find (idIs sel) l) as [t |] eqn:Ef.
  - apply find_some in Ef as [Ht Et].
    rewrite (Hg t Ht (idIs_same_id sel s t E Et)) in Hf. discriminate.
  - rewrite (find_none _ _ Ef s Hin) in E. discriminate.
Qed.

Lemma checkHit_defined (st : State) (pos : Point.t) (s : Shape.t) :
  hasPoints s -> exists b, checkHit st pos s = Some b.
Proof.
  unfold hasPoints, checkHit. intros H.
  destruct (Shape.points s) as [| p1 [| p2 rest]]; [contradiction | |];
    simpl; eexists; reflexivity.
Qed.

Lemma findHit_defined (st : State) (pos : Point.t) (l : list Shape.t) :
  Forall hasPoints l ->
  exists r, findHit st pos l = Some r /\ (forall h, r = Some h -> In h l).
Proof.
  induction 1 as [| s l Hs _ IH].
  - exists None. split; [reflexivity | discriminate].
  - simpl. destruct (checkHit_defined st pos s Hs) as [b ->].
    destruct b.
    + exists (Some s). split; [reflexivity |].
      intros h [= <-]. left. reflexivity.
    + destruct IH as [r [-> Hr]]. exists r. split; [reflexivity |].
      intros h Hh. right. apply Hr. exact Hh.
Qed.

Lemma topmostHit_defined (st : State) (pos : Point.t) :
  Forall hasPoints (shapes st) ->
  exists r, topmostHit st pos = Some r
            /\ (forall h, r = Some h -> In h (shapes st)).
Proof.
  intros H. unfold topmostHit.
  destruct (findHit_defined st pos (rev (shapes st))) as [r [Hr Hin]].
  { apply Forall_rev. exact H. }
  exists r. split; [exact Hr |].
  intros h Hh. apply in_rev. apply Hin. exact Hh.
Qed.

Lemma map_spares (f : Shape.t -> Shape.t) (sel : option string)
    (l : list Shape.t) (s : Shape.t) :
  (forall t, idIs sel t = false -> f t = t) ->
  (forall t, hasPoints t -> hasPoints (f t)) ->
  idIs sel s = false -> In s l -> Forall hasPoints l ->
  In s (map f l) /\ Forall hasPoints (map f l).
Proof.
  intros Hf Hp Hs Hin Hall. split.
  - rewrite <- (Hf s Hs). apply in_map. exact Hin.
  - apply Forall_map. apply Forall_impl with (P := hasPoints); assumption.
Qed.

Lemma shift_hasPoints (dx dy : R) (t : Shape.t) :
  hasPoints t ->
  hasPoints (Shape.setPoints (map (shiftPoint dx dy) (Shape.points t)) t).
Proof.
  unfold hasPoints. simpl. destruct (Shape.points t); [contradiction |].
  discriminate.
Qed.

Lemma resize_hasPoints (h : ResizeHandle) (dx dy : R) (t : Shape.t) :
  hasPoints t ->
  hasPoints (Shape.setPoints (resizePoints h dx dy (Shape.points t)) t).
Proof.
  unfold hasPoints. simpl.
  destruct (Shape.points t) as [| p1 [| p2 rest]]; [contradiction | |];
    intros _.
  - simpl. discriminate.
  - unfold resizePoints.
    destruct h; destruct (Rltb (Point.x p1) (Point.x p2));
      destruct (Rltb (Point.y p1) (Point.y p2)); simpl; discriminate.
Qed.

Lemma mapOpt_rotate_spares (sel : option string) (pos : Point.t)
    (l : list Shape.t) (s : Shape.t) :
  idIs sel s = false -> In s l -> Forall hasPoints l ->
  exists l', mapOpt (rotateShape sel pos) l = Some l'
             /\ In s l' /\ Forall hasPoints l'.
Proof.
  intros Hs Hin Hall.
  assert (Htot : exists l', mapOpt (rotateShape sel pos) l = Some l'
                            /\ Forall hasPoints l'
                            /\ (In s l -> In s l')).
  { clear Hin. induction Hall as [| t l Ht _ IH].
    - exists []. simpl. auto.
    - destruct IH as [l' [Hl' [Hp' Hin']]]. simpl. rewrite Hl'.
      unfold rotateShape at 1. destruct (idIs sel t) eqn:Et; simpl.
      + unfold hasPoints in Ht.
        destruct (Shape.points t) as [| p1 [| p2 rest]] eqn:Ep;
          [contradiction | |]; simpl; eexists; (split; [reflexivity |]);
          (split; [constructor; [unfold hasPoints; simpl; rewrite Ep; discriminate | exact Hp'] |]);
          (intros [-> | Hin]; [rewrite Hs in Et; discriminate | right; auto]).
      + eexists. split; [reflexivity |]. split; [constructor; assumption |].
        intros [-> | Hin]; [left; reflexivity | right; auto]. }
  destruct Htot as [l' [H1 [H2 H3]]]. exists l'. auto.
Qed.

Lemma startDrawing_spares (rect : option DOMRect) (rnd : string)
    (e : PointerEvent) (st : State) (s : Shape.t) :
  In s (shapes st) -> idLocked s (shapes st) ->
  Forall hasPoints (shapes st) ->
  isDragging st = false -> isResizing st = false -> isRotating st = false ->
  tool st = TMove ->
  exists st1, startDrawing rect rnd e st = Some st1 /\ Spares s st1.
Proof.
  intros Hin Hg Hall Hd Hrs Hro Ht.
  assert (Hidle : Spares s st).
  { unfold Spares. rewrite Hd, Hrs, Hro. simpl.
    repeat split; try assumption; try discriminate. }
  unfold startDrawing. destruct rect as [rect |]; [| eexists; split; [reflexivity | exact Hidle]].
  cbv zeta.
  destruct (isSpacePressed st || buttonIs e 1 || buttonIs e 2
            || Tool_eqb (tool st) THand).
  { eexists. split; [reflexivity |].
    destruct st; simpl in *. unfold Spares; sred. rewrite Hd, Hrs, Hro.
    repeat split; try assumption; try discriminate. }
  rewrite Ht. simpl Tool_eqb. cbv iota. cbn [Point.x Point.y].
  set (pos := toWorldCoords st (clientX e - left rect) (clientY e - top rect)).
  (* the handle block *)
  assert (Hfound : forall t, find (idIs (selectedShapeId st)) (shapes st) = Some t ->
                             Shape.locked t = false ->
                             idIs (selectedShapeId st) s = false).
  { intros t Hf Hlt. apply (idLocked_target _ (shapes st) s Hin Hg).
    rewrite Hf. exact Hlt. }
  assert (Hbody : exists st1,
             match topmostHit st pos with
             | None => None
             | Some (Some hit) =>
                 let st2 := setSelectedShapeId (Some (Shape.id hit))
                              (setCurrentPos (snapPoint st pos)
                                 (setStartPos (snapPoint st pos) st)) in
                 Some (if negb (Shape.locked hit)
                       then setIsDragging true st2 else st2)
             | Some None =>
                 Some (setSelectedShapeId None
                         (setCurrentPos (snapPoint st pos)
                            (setStartPos (snapPoint st pos) st)))
             end = Some st1 /\ Spares s st1).
  { destruct (topmostHit_defined st pos Hall) as [r [-> Hr]].
    destruct r as [hit |].
    - cbv zeta. eexists. split; [reflexivity |].
      specialize (Hr hit eq_refl).
      destruct (Shape.locked hit) eqn:Ehit; simpl negb; cbv iota.
      + destruct st; simpl in *. unfold Spares; sred.
        rewrite Hd, Hrs, Hro. repeat split; try assumption; try discriminate.
      + destruct st; simpl in *. unfold Spares; sred.
        repeat split; try assumption. intros _.
        destruct (String.eqb (Shape.id s) (Shape.id hit)) eqn:E;
          [| unfold idIs; exact E].
        apply String.eqb_eq in E. exfalso.
        rewrite (Hg hit Hr (eq_sym E)) in Ehit. discriminate.
    - eexists. split; [reflexivity |].
      destruct st; simpl in *. unfold Spares; sred.
      rewrite Hd, Hrs, Hro. repeat split; try assumption; try discriminate. }
  destruct (true && truthyId (selectedShapeId st)) eqn:Esel; [| exact Hbody].
  destruct (find (idIs (selectedShapeId st)) (shapes st)) as [t |] eqn:Ef;
    [| exact Hbody].
  destruct (Shape.locked t) eqn:Elt; simpl negb; cbv iota; [exact Hbody |].
  specialize (Hfound t eq_refl Elt).
  destruct (checkRotationHandleHit st pos t).
  { eexists. split; [reflexivity |].
    destruct st; simpl in *. unfold Spares; sred.
    repeat split; assumption || (intros _; assumption). }
  destruct (checkResizeHandleHit st pos t) as [h |]; [| exact Hbody].
  eexists. split; [reflexivity |].
  destruct st; simpl in *. unfold Spares; sred.
  repeat split; assumption || (intros _; assumption).
Qed.

Lemma draw_spares (rect : option DOMRect) (e : PointerEvent) (st : State)
    (s : Shape.t) :
  Spares s st -> exists st', draw rect e st = Some st' /\ Spares s st'.
Proof.
  intros (Hin & Hall & Ht & Hact).
  unfold draw. destruct (isPanning st) eqn:Epan.
  { eexists. split; [reflexivity |].
    destruct st; simpl in *. unfold Spares; sred. auto. }
  destruct rect as [rect |];
    [| eexists; split; [reflexivity | unfold Spares; auto]].
  cbv zeta. rewrite Ht. simpl Tool_eqb. cbv iota.
  set (pos := toWorldCoords st (clientX e - left rect) (clientY e - top rect)).
  set (sp := snapPoint st pos).
  destruct (topmostHit_defined st pos Hall) as [r [Hr _]].
  assert (Hhov : exists hv,
             (if true && negb (isDragging st) && negb (isResizing st)
                 && negb (isRotating st)
              then match topmostHit st pos with
                   | None => None
                   | Some (Some hit) =>
                       Some (setHoveredShapeId
                               (if truthyStr (Shape.id hit)
                                then Some (Shape.id hit) else None) st)
                   | Some None => Some (setHoveredShapeId None st)
                   end
              else Some st) = Some (setHoveredShapeId hv st)).
  { destruct (true && negb (isDragging st) && negb (isResizing st)
              && negb (isRotating st)).
    - rewrite Hr. destruct r as [hit |]; eexists; reflexivity.
    - exists (hoveredShapeId st). destruct st; reflexivity. }
  destruct Hhov as [hv ->].
  destruct (isDragging st && truthyId (selectedShapeId st)) eqn:Edrag.
  { apply andb_prop in Edrag as [Ed _].
    assert (Hs : idIs (selectedShapeId st) s = false)
      by (apply Hact; rewrite Ed; reflexivity).
    eexists. split; [reflexivity |].
    destruct (map_spares
                (fun t => if idIs (selectedShapeId st) t
                          then Shape.setPoints
                                 (map (shiftPoint
                                         (Point.x sp - Point.x (currentPos st))
                                         (Point.y sp - Point.y (currentPos st)))
                                      (Shape.points t)) t
                          else t)
                (selectedShapeId st) (shapes st) s) as [Hin' Hall'];
      try assumption.
    { intros t Et. rewrite Et. reflexivity. }
    { intros t Hp. destruct (idIs (selectedShapeId st) t);
        [apply shift_hasPoints |]; exact Hp. }
    destruct st; simpl in *. unfold Spares; sred. auto. }
  destruct (isRotating st && truthyId (selectedShapeId st)) eqn:Erot.
  { apply andb_prop in Erot as [Er _].
    assert (Hs : idIs (selectedShapeId st) s = false)
      by (apply Hact; rewrite Er; rewrite !orb_true_r; reflexivity).
    destruct (mapOpt_rotate_spares (selectedShapeId st) pos (shapes st) s
                Hs Hin Hall) as [l' [-> [Hin' Hall']]].
    eexists. split; [reflexivity |].
    destruct st; simpl in *. unfold Spares; sred. auto. }
  destruct (isResizing st && truthyId (selectedShapeId st)) eqn:Eres.
  { apply andb_prop in Eres as [Er _].
    assert (Hs : idIs (selectedShapeId st) s = false)
      by (apply Hact; rewrite Er; rewrite orb_true_r; reflexivity).
    destruct (activeResizeHandle st) as [h |] eqn:Eh.
    - eexists. split; [reflexivity |].
      destruct (map_spares
                  (fun t => if negb (idIs (selectedShapeId st) t) then t
                            else Shape.setPoints
                                   (resizePoints h
                                      (Point.x sp - Point.x (currentPos st))
                                      (Point.y sp - Point.y (currentPos st))
                                      (Shape.points t)) t)
                  (selectedShapeId st) (shapes st) s) as [Hin' Hall'];
        try assumption.
      { intros t Et. rewrite Et. reflexivity. }
      { intros t Hp. destruct (idIs (selectedShapeId st) t); simpl;
          [apply resize_hasPoints |]; exact Hp. }
      destruct st; simpl in *. unfold Spares; sred. auto.
    - destruct (isDrawing st); simpl negb; cbv beta iota zeta.
      + simpl isFreehand. cbv iota.
        eexists. split; [reflexivity |].
        destruct st; simpl in *. unfold Spares; sred. auto.
      + eexists. split; [reflexivity |].
        destruct st; simpl in *. unfold Spares; sred. auto. }
  destruct (isDrawing st); simpl negb; cbv beta iota zeta.
  - simpl isFreehand. cbv iota.
    eexists. split; [reflexivity |].
    destruct st; simpl in *. unfold Spares; sred. auto.
  - eexists. split; [reflexivity |].
    destruct st; simpl in *. unfold Spares; sred. auto.
Qed.

Lemma drawAll_spares (rect : option DOMRect) (es : list PointerEvent)
    (st : State) (s : Shape.t) :
  Spares s st -> exists st', drawAll rect es st = Some st' /\ Spares s st'.
Proof.
  revert st. induction es as [| e es IH]; intros st H.
  - exists st. split; [reflexivity | exact H].
  - simpl. destruct (draw_spares rect e st s H) as [st1 [-> H1]].
    apply IH. exact H1.
Qed.

Lemma stopDrawing_spares (rnd : string) (st : State) (s : Shape.t) :
  Spares s st -> In s (shapes (stopDrawing rnd st)).
Proof.
  intros (Hin & _ & Ht & _). unfold stopDrawing.
  destruct (isPanning st); [destruct st; exact Hin |].
  destruct (isDragging st || isResizing st || isRotating st);
    [destruct st; exact Hin |].
  destruct (isDrawing st); simpl negb; cbv iota; [| exact Hin].
  rewrite Ht. destruct st; exact Hin.
Qed.

Lemma deleteSelected_spares (st : State) (s : Shape.t) :
  In s (shapes st) -> idLocked s (shapes st) ->
  In s (shapes (match deleteSelected st with
                | None => st
                | Some st3 => st3
                end)).
Proof.
  intros Hin Hg. unfold deleteSelected.
  destruct (truthyId (selectedShapeId st)); [| exact Hin].
  destruct (match find (idIs (selectedShapeId st)) (shapes st) with
            | Some shape => Shape.locked shape
            | None => false
            end) eqn:Ef; [exact Hin |].
  pose proof (idLocked_target _ _ s Hin Hg Ef) as Es.
  assert (In s (filter (fun t => negb (idIs (selectedShapeId st) t))
                       (shapes st))).
  { apply filter_In. split; [exact Hin | rewrite Es; reflexivity]. }
  destruct st; simpl in *. assumption.
Qed.

Lemma nudgeSelected_spares (dx dy : R) (st : State) (s : Shape.t) :
  In s (shapes st) -> idLocked s (shapes st) ->
  In s (shapes (nudgeSelected dx dy st)).
Proof.
  intros Hin Hg. unfold nudgeSelected.
  destruct (negb (truthyId (selectedShapeId st))); [exact Hin |].
  destruct (match find (idIs (selectedShapeId st)) (shapes st) with
            | Some shape => Shape.locked shape
            | None => false
            end) eqn:Ef; [exact Hin |].
  pose proof (idLocked_target _ _ s Hin Hg Ef) as Es.
  assert (In s (map (fun t => if idIs (selectedShapeId st) t
                              then Shape.setPoints
                                     (map (shiftPoint dx dy) (Shape.points t)) t
                              else t) (shapes st))).
  { apply in_map_iff. exists s. rewrite Es. auto. }
  destruct st; simpl in *. assumption.
Qed.

Lemma handleKeyDown_guarded_spares (k : GuardedKey) (c m sh ai : bool)
    (rnd : string) (st : State) (s : Shape.t) :
  In s (shapes st) -> idLocked s (shapes st) ->
  In s (shapes (handleKeyDown ai rnd (mkKey (guardedKeyName k) c m sh) st)).
Proof.
  intros Hin Hg.
  destruct (TextInput.visible (textInput st)) eqn:Ev.
  { unfold handleKeyDown. rewrite Ev. exact Hin. }
  destruct k as [| | a].
  - assert (E : handleKeyDown ai rnd (mkKey "Backspace" c m sh) st
                = match deleteSelected st with None => st | Some st3 => st3 end).
    { unfold handleKeyDown. rewrite Ev.
      change (keyIs (mkKey "Backspace" c m sh) "Shift") with false.
      change (keyIs (mkKey "Backspace" c m sh) " ") with false.
      change (keyIs (mkKey "Backspace" c m sh) "Backspace") with true.
      cbv beta iota zeta. simpl andb. simpl orb. cbv iota.
      destruct (deleteSelected st) as [st3 |]; [| reflexivity].
      unfold arrows, shortcuts.
      destruct c, m; simpl; destruct (truthyId (selectedShapeId st3));
        reflexivity. }
    simpl guardedKeyName. rewrite E. apply deleteSelected_spares; assumption.
  - assert (E : handleKeyDown ai rnd (mkKey "Delete" c m sh) st
                = match deleteSelected st with None => st | Some st3 => st3 end).
    { unfold handleKeyDown. rewrite Ev.
      change (keyIs (mkKey "Delete" c m sh) "Shift") with false.
      change (keyIs (mkKey "Delete" c m sh) " ") with false.
      change (keyIs (mkKey "Delete" c m sh) "Backspace") with false.
      change (keyIs (mkKey "Delete" c m sh) "Delete") with true.
      cbv beta iota zeta. simpl andb. simpl orb. cbv iota.
      destruct (deleteSelected st) as [st3 |]; [| reflexivity].
      unfold arrows, shortcuts.
      destruct c, m; simpl; destruct (truthyId (selectedShapeId st3));
        reflexivity. }
    simpl guardedKeyName. rewrite E. apply deleteSelected_spares; assumption.
  - simpl guardedKeyName. rewrite (handleKeyDown_arrow a c m sh ai rnd st Ev).
    unfold arrows. destruct (truthyId (selectedShapeId st)); [| exact Hin].
    destruct a; cbv zeta;
      repeat match goal with
        | |- context [keyIs ?e ?k] =>
            let b := eval lazy in (keyIs e k) in
            change (keyIs e k) with b
        end;
      cbv iota; apply nudgeSelected_spares; assumption.
Qed.

Lemma gesture_spares (rect : option DOMRect) (rnd1 rnd2 : string)
    (down : PointerEvent) (moves : list PointerEvent) (st : State)
    (s : Shape.t) :
  In s (shapes st) -> idLocked s (shapes st) ->
  Forall hasPoints (shapes st) ->
  isDragging st = false -> isResizing st = false -> isRotating st = false ->
  tool st = TMove ->
  exists st', gesture rect rnd1 rnd2 down moves st = Some st'
              /\ In s (shapes st').
Proof.
  intros Hin Hg Hall Hd Hrs Hro Ht. unfold gesture.
  destruct (startDrawing_spares rect rnd1 down st s Hin Hg Hall Hd Hrs
              Hro Ht) as [st1 [-> H1]].
  destruct (drawAll_spares rect moves st1 s H1) as [st2 [-> H2]].
  eexists. split; [reflexivity |]. apply stopDrawing_spares. exact H2.
Qed.

(** C5 (counterexample). Two scenes in which a locked shape does not stay
    as it is.
    - In [sharedIdScene] the locked shape [lockedTwin] shares its id with an
      unlocked shape that comes first: Delete removes it with the unlocked
      one, and an arrow key moves it.
    - In [lockedMidDrag] the shape was locked while it was being dragged:
      the next pointer move translates it. *)
Lemma locked_shape_is_deleted_or_moved :
  (In lockedTwin (shapes sharedIdScene)
   /\ Shape.isLocked lockedTwin = Some true
   /\ isDragging sharedIdScene = false /\ isResizing sharedIdScene = false
   /\ isRotating sharedIdScene = false
   /\ shapes (handleKeyDown false "k" (mkKey "Delete" false false false)
                            sharedIdScene) = []
   /\ ~ In lockedTwin
          (shapes (handleKeyDown false "k"
                     (mkKey "ArrowRight" false false false) sharedIdScene)))
  /\ (In lockedOffGrid (shapes lockedMidDrag)
      /\ Shape.isLocked lockedOffGrid = Some true
      /\ NoDup (map Shape.id (shapes lockedMidDrag))
      /\ isDragging lockedMidDrag = true
      /\ exists st',
          draw canvas (click 45 45) lockedMidDrag = Some st'
          /\ map Shape.points (shapes st')
             = [[Point.mk 45 45; Point.mk 145 95]]
          /\ ~ In lockedOffGrid (shapes st')).
Proof.
  split.
  - assert (E : shapes sharedIdScene
                = [Shape.setIsLocked (Some false) lockedRect; lockedTwin]).
    { run. repeat f_equal; lra. }
    split; [rewrite E; right; left; reflexivity |].
    split; [reflexivity |]. split; [reflexivity |]. split; [reflexivity |].
    split; [reflexivity |]. split; [reflexivity |].
    run. intros [H | [H | []]]; [discriminate H |].
    injection H as H _. lra.
  - split; [left; reflexivity |]. split; [reflexivity |].
    split; [simpl; constructor; [intros [] | constructor] |].
    split; [reflexivity |].
    eexists. split; [run; rewrite (Math_round_eval 1) by lra; reflexivity |].
    split.
    + run. repeat f_equal; lra.
    + run. intros [H | []]. injection H as H _. lra.
Qed.

(** C5 (amended). Let a locked shape be in a scene in which no unlocked
    shape carries its id and every shape has a point, with no drag, resize
    or rotation in progress. Then a whole pointer gesture with the selection
    tool (pointer down anywhere: on the body of the shape, on one of its
    resize handles or on its rotation handle; any pointer moves; pointer
    up), a Backspace or Delete press and an arrow-key press each run to
    completion and leave the shape in the scene with its points, its
    rotation and every other field unchanged. *)
Theorem locked_shape_is_immune (st : State) (s : Shape.t) :
  In s (shapes st) -> Shape.isLocked s = Some true ->
  idLocked s (shapes st) -> Forall hasPoints (shapes st) ->
  isDragging st = false -> isResizing st = false -> isRotating st = false ->
  (tool st = TMove ->
   forall rect rnd1 rnd2 down moves,
   exists st', gesture rect rnd1 rnd2 down moves st = Some st'
               /\ In s (shapes st'))
  /\ (forall k c m sh ai rnd,
       In s (shapes (handleKeyDown ai rnd
                       (mkKey (guardedKeyName k) c m sh) st))).
Proof.
  intros Hin Hl Hg Hall Hd Hrs Hro.
  split.
  - intros Ht rect rnd1 rnd2 down moves.
    apply gesture_spares; assumption.
  - intros k c m sh ai rnd.
    apply handleKeyDown_guarded_spares; assumption.
Qed.

Lemma locked_shape_is_immune_witness :
  In lockedRect (shapes lockedUnderMove)
  /\ Shape.isLocked lockedRect = Some true
  /\ idLocked lockedRect (shapes lockedUnderMove)
  /\ Forall hasPoints (shapes lockedUnderMove)
  /\ isDragging lockedUnderMove = false
  /\ isResizing lockedUnderMove = false
  /\ isRotating lockedUnderMove = false
  /\ (tool lockedUnderMove = TMove ->
      forall rect rnd1 rnd2 down moves,
      exists st', gesture rect rnd1 rnd2 down moves lockedUnderMove = Some st'
                  /\ In lockedRect (shapes st'))
  /\ (forall k c m sh ai rnd,
        In lockedRect
           (shapes (handleKeyDown ai rnd (mkKey (guardedKeyName k) c m sh)
                                  lockedUnderMove))).
Proof.
  assert (H1 : In lockedRect (shapes lockedUnderMove))
    by (left; reflexivity).
  assert (H3 : idLocked lockedRect (shapes lockedUnderMove)).
  { intros t [<- | []] _. reflexivity. }
  assert (H4 : Forall hasPoints (shapes lockedUnderMove)).
  { simpl. constructor; [unfold hasPoints; simpl; discriminate | constructor]. }
  split; [exact H1 |]. split; [reflexivity |]. split; [exact H3 |].
  split; [exact H4 |]. split; [reflexivity |]. split; [reflexivity |].
  split; [reflexivity |].
  exact (locked_shape_is_immune lockedUnderMove lockedRect H1 eq_refl H3 H4
           eq_refl eq_refl eq_refl).
Defined.

(** ** Grid snap *)

Ltac decide_R :=
  repeat match goal with
    | |- context [Rltb ?a ?b] =>
        first [rewrite (Rltb_true a b) by lra | rewrite (Rltb_false a b) by lra]
    | |- context [Rleb ?a ?b] =>
        first [rewrite (Rleb_true a b) by lra | rewrite (Rleb_false a b) by lra]
    end.

Lemma applySnap_off (st : State) (v : R) :
  snapToGrid st = false -> applySnap st v = v.
Proof. intros H. unfold applySnap. rewrite H. reflexivity. Qed.

Lemma applySnap_onGrid (st : State) (v : R) :
  snapToGrid st = true -> onGrid (gridSpacing st) (applySnap st v).
Proof.
  intros H. unfold applySnap, onGrid. rewrite H. simpl.
  exists (Int_part (v / gridSpacing st + / 2)). reflexivity.
Qed.


Lemma onGrid_plus (g a b : R) : onGrid g a -> onGrid g b -> onGrid g (a + b).
Proof.
  intros [k ->] [j ->]. exists (k + j)%Z. rewrite plus_IZR. ring.
Qed.










Lemma isFreehand_not_move (t : Tool) :
  isFreehand t = true -> Tool_eqb t TMove = false /\ Tool_eqb t THand = false
                         /\ Tool_eqb t TText = false.
Proof. destruct t; simpl; intros H; try discriminate; auto. Qed.

Lemma twoPointTool_cases (t : Tool) :
  twoPointTool t = true ->
  Tool_eqb t TMove = false /\ Tool_eqb t THand = false
  /\ Tool_eqb t TText = false /\ isFreehand t = false
  /\ buildsTwoPoint t = true.
Proof. destruct t; simpl; intros H; try discriminate; auto. Qed.













Lemma translate_keeps_grid (g dx dy : R) (pts : list Point.t) :
  onGrid g dx -> onGrid g dy -> Forall (onGridPoint g) pts ->
  Forall (onGridPoint g) (map (shiftPoint dx dy) pts).
Proof.
  intros Hx Hy Hall. apply Forall_map.
  apply Forall_impl with (P := onGridPoint g); [| exact Hall].
  intros p [Px Py]. split; simpl; apply onGrid_plus; assumption.
Qed.




(** ** History entries and object identity *)

Ltac run_store :=
  lazy -[Rplus Rminus Rmult Rdiv Ropp Rinv IZR Rltb Rleb].

Lemma rectResized_heap :
  Store.heap rectResized
  = [Point.mk 0 0; Point.mk (100 + 20) (50 + 10); Point.mk 200 200;
     Point.mk 300 200].
Proof.
  run_store. rewrite !Rltb_true by lra. reflexivity.
Qed.

(** C2 (the code at the failing input). [saveHistory] pushes the array
    [shapes] itself, and the resize branch assigns to the [Point] objects
    that array reaches. After the rectangle (0,0)-(100,50) and a line are
    drawn, the undo stack holds the empty scene and the scene with the
    rectangle; one resize step by (+20, +10) on the south-east handle
    leaves the stack itself as it is but changes what its second entry
    shows, from the corner (100, 50) to (120, 60), and undoing the resize
    gesture brings back a scene whose rectangle still has the corner
    (120, 60). *)
Theorem resize_rewrites_history_entry :
  Store.undoStack rectResized = Store.undoStack lineDrawn
  /\ map (fun en => map Shape.points (Store.contents (Store.heap lineDrawn) en))
         (Store.undoStack lineDrawn)
     = [[]; [[Point.mk 0 0; Point.mk 100 50]]]
  /\ map (fun en => map Shape.points (Store.contents (Store.heap rectResized) en))
         (Store.undoStack rectResized)
     = [[]; [[Point.mk 0 0; Point.mk (100 + 20) (50 + 10)]]]
  /\ (let released :=
        Store.saveHistory (Store.shapes rectResized) rectResized in
      let undone := Store.undo (Store.undo released) in
      map Shape.points (Store.contents (Store.heap undone) (Store.shapes undone))
      = [[Point.mk 0 0; Point.mk (100 + 20) (50 + 10)]]).
Proof.
  split; [reflexivity |]. split; [run_store; reflexivity |].
  split.
  - unfold Store.contents, Store.read. rewrite rectResized_heap.
    run_store. reflexivity.
  - cbv zeta.
    assert (E : Store.heap (Store.undo (Store.undo
                  (Store.saveHistory (Store.shapes rectResized) rectResized)))
                = Store.heap rectResized) by reflexivity.
    unfold Store.contents, Store.read. rewrite E, rectResized_heap.
    run_store. reflexivity.
Qed.

(** * Further properties of the engine *)

(** ** History stacks *)

Lemma sliceLast_length {A : Type} (n : nat) (l : list A) :
  List.length (sliceLast n l) = Nat.min n (List.length l).
Proof. unfold sliceLast. rewrite length_skipn. lia. Qed.

Lemma sliceLast_keeps_suffix {A : Type} (n : nat) (pre suf : list A) :
  (List.length suf <= n)%nat ->
  exists pre', sliceLast n (pre ++ suf) = pre' ++ suf.
Proof.
  intros H. unfold sliceLast. rewrite length_app.
  exists (skipn (List.length pre + List.length suf - n) pre).
  rewrite skipn_app.
  replace (List.length pre + List.length suf - n - List.length pre)%nat
    with 0%nat by lia.
  reflexivity.
Qed.

Lemma sliceLast_full {A : Type} (n : nat) (l : list A) :
  (List.length l <= n)%nat -> sliceLast n l = l.
Proof.
  intros H. unfold sliceLast.
  replace (List.length l - n)%nat with 0%nat by lia. reflexivity.
Qed.

Lemma sliceLast_drop_oldest {A : Type} (n : nat) (l : list A) :
  List.length l = S n -> sliceLast n l = tl l.
Proof.
  intros H. unfold sliceLast. rewrite H.
  replace (S n - n)%nat with 1%nat by lia.
  destruct l; reflexivity.
Qed.

Lemma lastOpt_app_cons {A : Type} (l : list A) (a : A) (d : list A) :
  lastOpt (d ++ l ++ [a]) = Some a.
Proof. rewrite app_assoc. apply lastOpt_app. Qed.

Lemma hd_app_nonempty {A : Type} (l : list A) (a d e : A) (m : list A) :
  hd d ((l ++ [a]) ++ m) = hd e (l ++ [a]).
Proof. destruct l; reflexivity. Qed.

Lemma tl_app_nonempty {A : Type} (l m : list A) (a : A) :
  tl ((l ++ [a]) ++ m) = tl (l ++ [a]) ++ m.
Proof. destruct l; reflexivity. Qed.

(** [n] undos pop the [n] newest entries: the scene becomes the oldest of
    them and the scenes passed through pile up on the redo stack. *)
Lemma undoN_pops (T pre : list (list Shape.t)) (st : State) :
  undoStack st = pre ++ T ->
  let st' := undoN (List.length T) st in
  undoStack st' = pre
  /\ redoStack st' = redoStack st ++ rev (tl (T ++ [shapes st]))
  /\ shapes st' = hd (shapes st) (T ++ [shapes st]).
Proof.
  revert st. induction T as [| t T0 IH] using rev_ind; intros st H.
  - simpl. rewrite app_nil_r in H. rewrite app_nil_r. auto.
  - cbv zeta. rewrite length_app. simpl List.length.
    rewrite Nat.add_1_r. cbn [undoN].
    assert (Hl : lastOpt (undoStack st) = Some t)
      by (rewrite H; apply lastOpt_app_cons).
    assert (E1 : undoStack (undo st) = pre ++ T0).
    { unfold undo. rewrite Hl. simpl. rewrite H, app_assoc.
      apply removelast_last. }
    assert (E2 : redoStack (undo st) = redoStack st ++ [shapes st])
      by (unfold undo; rewrite Hl; reflexivity).
    assert (E3 : shapes (undo st) = t)
      by (unfold undo; rewrite Hl; reflexivity).
    destruct (IH (undo st) E1) as (I1 & I2 & I3).
    split; [exact I1 |]. split.
    + rewrite I2, E2, E3. rewrite tl_app_nonempty, rev_app_distr. simpl.
      rewrite <- app_assoc. reflexivity.
    + rewrite I3, E3. symmetry. apply hd_app_nonempty.
Qed.

Lemma redoN_pops (T pre : list (list Shape.t)) (st : State) :
  redoStack st = pre ++ T ->
  let st' := redoN (List.length T) st in
  redoStack st' = pre
  /\ undoStack st' = undoStack st ++ rev (tl (T ++ [shapes st]))
  /\ shapes st' = hd (shapes st) (T ++ [shapes st])
  /\ selectedShapeId st' = selectedShapeId st.
Proof.
  revert st. induction T as [| t T0 IH] using rev_ind; intros st H.
  - simpl. rewrite app_nil_r in H. rewrite app_nil_r. auto.
  - cbv zeta. rewrite length_app. simpl List.length.
    rewrite Nat.add_1_r. cbn [redoN].
    assert (Hl : lastOpt (redoStack st) = Some t)
      by (rewrite H; apply lastOpt_app_cons).
    assert (E1 : redoStack (redo st) = pre ++ T0).
    { unfold redo. rewrite Hl. simpl. rewrite H, app_assoc.
      apply removelast_last. }
    assert (E2 : undoStack (redo st) = undoStack st ++ [shapes st])
      by (unfold redo; rewrite Hl; reflexivity).
    assert (E3 : shapes (redo st) = t)
      by (unfold redo; rewrite Hl; reflexivity).
    assert (E4 : selectedShapeId (redo st) = selectedShapeId st)
      by (unfold redo; rewrite Hl; reflexivity).
    destruct (IH (redo st) E1) as (I1 & I2 & I3 & I4).
    split; [exact I1 |]. split; [| split].
    + rewrite I2, E2, E3. rewrite tl_app_nonempty, rev_app_distr. simpl.
      rewrite <- app_assoc. reflexivity.
    + rewrite I3, E3. symmetry. apply hd_app_nonempty.
    + rewrite I4. exact E4.
Qed.

Lemma rev_tl_rev {A : Type} (l : list A) : rev (tl (rev l)) = removelast l.
Proof.
  induction l as [| a l IH] using rev_ind; [reflexivity |].
  rewrite rev_app_distr. simpl. rewrite rev_involutive, removelast_last.
  reflexivity.
Qed.

Lemma undoN_redoN_restore (n : nat) (st : State) :
  (n <= List.length (undoStack st))%nat ->
  let back := redoN n (undoN n st) in
  shapes back = shapes st
  /\ undoStack back = undoStack st
  /\ redoStack back = redoStack st.
Proof.
  intros Hn. cbv zeta.
  set (pre := firstn (List.length (undoStack st) - n) (undoStack st)).
  set (T := skipn (List.length (undoStack st) - n) (undoStack st)).
  assert (HT : undoStack st = pre ++ T)
    by (symmetry; apply firstn_skipn).
  assert (Hlen : List.length T = n)
    by (unfold T; rewrite length_skipn; lia).
  destruct (undoN_pops T pre st HT) as (U1 & U2 & U3).
  rewrite Hlen in U1, U2, U3.
  set (W := T ++ [shapes st]) in *.
  assert (HW : List.length (rev (tl W)) = n).
  { rewrite length_rev. unfold W. destruct T; simpl in *;
      [lia | rewrite length_app; simpl; lia]. }
  destruct (redoN_pops (rev (tl W)) (redoStack st) (undoN n st) U2)
    as (R1 & R2 & R3 & _).
  rewrite HW in R1, R2, R3.
  assert (Hw : rev (tl W) ++ [shapes (undoN n st)] = rev W).
  { rewrite U3. unfold W. destruct T as [| t T']; [reflexivity |].
    simpl. reflexivity. }
  rewrite Hw in R2, R3.
  split; [| split].
  - rewrite R3. unfold W. rewrite rev_app_distr. reflexivity.
  - rewrite R2, U1, rev_tl_rev. unfold W. rewrite removelast_last.
    symmetry. exact HT.
  - exact R1.
Qed.

(** X3. Undoing [n] times, for [n] at most the number of entries of the
    undo stack, and then redoing [n] times brings back the scene and both
    stacks exactly. *)
Theorem undoN_then_redoN (n : nat) (st : State) :
  (n <= List.length (undoStack st))%nat ->
  let back := redoN n (undoN n st) in
  shapes back = shapes st
  /\ undoStack back = undoStack st
  /\ redoStack back = redoStack st.
Proof. exact (undoN_redoN_restore n st). Qed.

Lemma commitAll_snoc (news : list (list Shape.t)) (n : list Shape.t)
    (st : State) :
  commitAll (news ++ [n]) st = saveHistory n (commitAll news st).
Proof. unfold commitAll. rewrite fold_left_app. reflexivity. Qed.

Lemma removelast_cons_length {A : Type} (a : A) (l : list A) :
  List.length (removelast (a :: l)) = List.length l.
Proof.
  revert a. induction l as [| b l IH]; intros a; [reflexivity |].
  change (removelast (a :: b :: l)) with (a :: removelast (b :: l)).
  cbn [List.length]. rewrite IH. reflexivity.
Qed.

Lemma last_cons_default {A : Type} (a b : A) (l : list A) :
  last (b :: l) a = last l b.
Proof.
  revert a b. induction l as [| c l IH]; intros a b; [reflexivity |].
  change (last (b :: c :: l) a) with (last (c :: l) a).
  rewrite (IH a c), (IH b c). reflexivity.
Qed.

Lemma removelast_cons_app_last {A : Type} (a : A) (l : list A) :
  removelast (a :: l) ++ [last l a] = a :: l.
Proof.
  revert a. induction l as [| b l IH]; intros a; [reflexivity |].
  change (removelast (a :: b :: l)) with (a :: removelast (b :: l)).
  rewrite last_cons_default.
  cbn [app]. f_equal. apply IH.
Qed.

Lemma saveHistory_stacks (news : list Shape.t) (st : State) :
  undoStack (saveHistory news st)
  = sliceLast (MAX_HISTORY - 1) (undoStack st) ++ [shapes st]
  /\ redoStack (saveHistory news st) = []
  /\ shapes (saveHistory news st) = news.
Proof. repeat split. Qed.

(** After [N <= MAX_HISTORY] commits the undo stack ends with the [N]
    scenes that preceded each commit. *)
Lemma commitAll_timeline (news : list (list Shape.t)) (st : State) :
  (List.length news <= MAX_HISTORY)%nat ->
  (exists pre,
      undoStack (commitAll news st) = pre ++ removelast (shapes st :: news))
  /\ shapes (commitAll news st) = last news (shapes st)
  /\ (news <> [] -> redoStack (commitAll news st) = []).
Proof.
  induction news as [| n news IH] using rev_ind; intros Hlen.
  - split; [exists (undoStack st); simpl; rewrite app_nil_r; reflexivity |].
    split; [reflexivity | intros H; contradiction].
  - rewrite length_app in Hlen. simpl in Hlen.
    destruct IH as ([pre Hu] & Hs & _); [lia |].
    rewrite commitAll_snoc. split; [| split].
    + rewrite (proj1 (saveHistory_stacks n _)), Hu, Hs.
      destruct (sliceLast_keeps_suffix (MAX_HISTORY - 1) pre
                  (removelast (shapes st :: news))) as [pre' Hp].
      { rewrite removelast_cons_length. unfold MAX_HISTORY in *. lia. }
      exists pre'. rewrite Hp, <- app_assoc, removelast_cons_app_last.
      change (shapes st :: news ++ [n]) with ((shapes st :: news) ++ [n]).
      rewrite removelast_last. reflexivity.
    + rewrite (proj2 (proj2 (saveHistory_stacks n _))), last_last.
      reflexivity.
    + intros _. reflexivity.
Qed.

(** X1. For at most [MAX_HISTORY] commits made through [saveHistory], as
    many undos bring back the shape sequence that preceded the first
    commit, and as many redos after that bring back the sequence of the
    last commit, whatever the stacks held before. *)
Theorem commits_then_undos (news : list (list Shape.t)) (st : State) :
  (List.length news <= MAX_HISTORY)%nat ->
  let n := List.length news in
  let final := commitAll news st in
  shapes final = last news (shapes st)
  /\ shapes (undoN n final) = shapes st
  /\ shapes (redoN n (undoN n final)) = shapes final.
Proof.
  intros Hlen. cbv zeta.
  destruct (commitAll_timeline news st Hlen) as ([pre Hu] & Hs & _).
  split; [exact Hs |].
  assert (HT : List.length (removelast (shapes st :: news)) = List.length news)
    by apply removelast_cons_length.
  split.
  - destruct (undoN_pops _ pre _ Hu) as (_ & _ & U3).
    rewrite HT in U3. rewrite U3, Hs, removelast_cons_app_last.
    reflexivity.
  - apply undoN_redoN_restore. rewrite Hu, length_app, HT. lia.
Qed.

Lemma commits_then_undos_witness :
  (List.length twoCommits <= MAX_HISTORY)%nat
  /\ (let n := List.length twoCommits in
      let final := commitAll twoCommits initialState in
      shapes final = last twoCommits (shapes initialState)
      /\ shapes (undoN n final) = shapes initialState
      /\ shapes (redoN n (undoN n final)) = shapes final).
Proof.
  assert (H : (List.length twoCommits <= MAX_HISTORY)%nat)
    by (unfold twoCommits, MAX_HISTORY; simpl; lia).
  split; [exact H | exact (commits_then_undos twoCommits initialState H)].
Defined.

Lemma undoN_then_redoN_witness :
  (2 <= List.length (undoStack (commitAll twoCommits initialState)))%nat
  /\ (let st := commitAll twoCommits initialState in
      let back := redoN 2 (undoN 2 st) in
      shapes back = shapes st
      /\ undoStack back = undoStack st
      /\ redoStack back = redoStack st).
Proof.
  assert (H : (2 <= List.length
                      (undoStack (commitAll twoCommits initialState)))%nat)
    by (simpl; lia).
  split; [exact H |].
  exact (undoN_then_redoN 2 (commitAll twoCommits initialState) H).
Defined.

(** X2. A commit pushes the current scene, keeps at most [MAX_HISTORY]
    entries by dropping the oldest one, and empties the redo stack, so a
    redo right after a commit changes nothing. *)
Theorem saveHistory_bounded (news : list Shape.t) (st : State) :
  let st' := saveHistory news st in
  List.length (undoStack st')
  = Nat.min (S (List.length (undoStack st))) MAX_HISTORY
  /\ lastOpt (undoStack st') = Some (shapes st)
  /\ ((List.length (undoStack st) < MAX_HISTORY)%nat ->
      undoStack st' = undoStack st ++ [shapes st])
  /\ (List.length (undoStack st) = MAX_HISTORY ->
      undoStack st' = tl (undoStack st) ++ [shapes st])
  /\ redoStack st' = []
  /\ redo st' = st'.
Proof.
  cbv zeta. destruct (saveHistory_stacks news st) as (-> & Hr & _).
  split; [| split; [| split; [| split; [| split]]]].
  - rewrite length_app, sliceLast_length. cbn [List.length].
    unfold MAX_HISTORY. lia.
  - apply lastOpt_app.
  - intros H. rewrite sliceLast_full; [reflexivity |].
    unfold MAX_HISTORY in *. lia.
  - intros H. rewrite sliceLast_drop_oldest; [reflexivity |].
    unfold MAX_HISTORY in *. lia.
  - exact Hr.
  - apply redo_empty. exact Hr.
Qed.

Lemma saveHistory_bounded_witness :
  (List.length (undoStack initialState) < MAX_HISTORY)%nat
  /\ undoStack (saveHistory [plainRect] initialState)
     = undoStack initialState ++ [shapes initialState]
  /\ redo (saveHistory [plainRect] initialState)
     = saveHistory [plainRect] initialState.
Proof.
  assert (H : (List.length (undoStack initialState) < MAX_HISTORY)%nat)
    by (unfold MAX_HISTORY; simpl; lia).
  destruct (saveHistory_bounded [plainRect] initialState)
    as (_ & _ & Hgrow & _ & _ & Hredo).
  split; [exact H |]. split; [exact (Hgrow H) | exact Hredo].
Defined.

(** ** The store of [Point] objects *)

Lemma deref_assign_same (l : Store.Loc) (f : Point.t -> Point.t)
    (h : Store.Heap) :
  (l < List.length h)%nat ->
  Store.deref (Store.assign l f h) l = f (Store.deref h l).
Proof.
  revert l. induction h as [| p h IH]; intros l Hl; [simpl in Hl; lia |].
  destruct l as [| l]; [reflexivity |].
  simpl in Hl. unfold Store.deref in *. simpl. apply IH. lia.
Qed.

Lemma deref_assign_other (l l' : Store.Loc) (f : Point.t -> Point.t)
    (h : Store.Heap) :
  l <> l' -> Store.deref (Store.assign l f h) l' = Store.deref h l'.
Proof.
  revert l l'. induction h as [| p h IH]; intros l l' Hne.
  - destruct l; reflexivity.
  - destruct l as [| l]; destruct l' as [| l']; try reflexivity;
      [contradiction |].
    unfold Store.deref in *. simpl. apply IH. congruence.
Qed.

Lemma assign_length (l : Store.Loc) (f : Point.t -> Point.t) (h : Store.Heap) :
  List.length (Store.assign l f h) = List.length h.
Proof.
  revert l. induction h as [| p h IH]; intros l; [destruct l; reflexivity |].
  destruct l; simpl; [reflexivity | rewrite IH; reflexivity].
Qed.

Lemma map_deref_assign_other (l : Store.Loc) (f : Point.t -> Point.t)
    (h : Store.Heap) (ls : list Store.Loc) :
  ~ In l ls ->
  map (Store.deref (Store.assign l f h)) ls = map (Store.deref h) ls.
Proof.
  intros H. apply map_ext_in. intros l' Hin.
  apply deref_assign_other. intros ->. contradiction.
Qed.

Lemma dragObj_step_extends (sel : option string) (dx dy : R)
    (acc : Store.Heap * list Store.ShapeObj) (s : Store.ShapeObj) :
  exists ext, fst (Store.dragObj sel dx dy acc s) = fst acc ++ ext.
Proof.
  destruct acc as [h done]. unfold Store.dragObj.
  destruct sel as [i |]; [destruct (String.eqb (Store.id s) i) |];
    simpl; try (exists []; rewrite app_nil_r; reflexivity).
  eexists. reflexivity.
Qed.

Lemma dragObj_extends (sel : option string) (dx dy : R)
    (l : list Store.ShapeObj) (acc : Store.Heap * list Store.ShapeObj) :
  exists ext, fst (fold_left (Store.dragObj sel dx dy) l acc) = fst acc ++ ext.
Proof.
  revert acc. induction l as [| s l IH]; intros acc.
  - exists []. simpl. rewrite app_nil_r. reflexivity.
  - cbn [fold_left].
    destruct (IH (Store.dragObj sel dx dy acc s)) as [ext1 H1].
    destruct (dragObj_step_extends sel dx dy acc s) as [ext0 H0].
    exists (ext0 ++ ext1). rewrite H1, H0, app_assoc. reflexivity.
Qed.

Lemma deref_extend (h ext : Store.Heap) (l : Store.Loc) :
  (l < List.length h)%nat -> Store.deref (h ++ ext) l = Store.deref h l.
Proof. intros H. unfold Store.deref. apply app_nth1. exact H. Qed.

(** X4. A drag step builds new [Point] objects for the moved shape: what
    any array of shapes whose points are allocated shows, the entries of
    the undo and redo stacks among them, is the same after the step as
    before, and the stacks themselves are untouched. *)
Theorem drag_keeps_history_contents (sel : option string) (dx dy : R)
    (st : Store.t) (entry : list Store.ShapeObj) :
  Store.allocated (Store.heap st) entry ->
  let st' := Store.dragStep sel dx dy st in
  Store.contents (Store.heap st') entry = Store.contents (Store.heap st) entry
  /\ Store.undoStack st' = Store.undoStack st
  /\ Store.redoStack st' = Store.redoStack st.
Proof.
  intros Hal. cbv zeta. unfold Store.dragStep.
  destruct (dragObj_extends sel dx dy (Store.shapes st) (Store.heap st, []))
    as [ext Hext].
  destruct (fold_left (Store.dragObj sel dx dy) (Store.shapes st)
                      (Store.heap st, [])) as [h' l'].
  simpl in Hext. subst h'. simpl.
  split; [| split; reflexivity].
  unfold Store.contents. apply map_ext_in. intros o Ho.
  unfold Store.read. f_equal.
  apply map_ext_in. intros l Hl. apply deref_extend.
  apply (Hal o l Ho Hl).
Qed.

Lemma drag_keeps_history_contents_witness :
  Store.allocated (Store.heap lineDrawn) [rectObj]
  /\ (let st' := Store.dragStep (Some "r"%string) 20 10 lineDrawn in
      Store.contents (Store.heap st') [rectObj]
      = Store.contents (Store.heap lineDrawn) [rectObj]
      /\ Store.undoStack st' = Store.undoStack lineDrawn
      /\ Store.redoStack st' = Store.redoStack lineDrawn).
Proof.
  assert (H : Store.allocated (Store.heap lineDrawn) [rectObj]).
  { intros o l [<- | []] Hl. simpl in Hl. simpl.
    destruct Hl as [<- | [<- | []]]; lia. }
  split; [exact H |].
  exact (drag_keeps_history_contents (Some "r"%string) 20 10 lineDrawn
           [rectObj] H).
Defined.

(** X5. The store model and the value model agree on the scene being
    edited: for a shape whose point locations are allocated and pairwise
    different, reading the shape after the in-place resize gives the shape
    with [resizePoints] applied to the points read before. *)
Theorem resizeObj_reads_as_resizePoints (handle : ResizeHandle) (dx dy : R)
    (h : Store.Heap) (o : Store.ShapeObj) :
  NoDup (Store.points o) ->
  (forall l, In l (Store.points o) -> (l < List.length h)%nat) ->
  Store.read (Store.resizeObj (Some (Store.id o)) handle dx dy h o) o
  = Shape.setPoints
      (resizePoints handle dx dy (Shape.points (Store.read h o)))
      (Store.read h o).
Proof.
  intros Hnd Hal. unfold Store.resizeObj. rewrite String.eqb_refl. simpl negb.
  cbv iota. unfold Store.read, Shape.setPoints. simpl. f_equal.
  destruct (Store.points o) as [| l1 [| l2 rest]]; [reflexivity | reflexivity |].
  assert (H1 : (l1 < List.length h)%nat) by (apply Hal; simpl; auto).
  assert (H2 : (l2 < List.length h)%nat) by (apply Hal; simpl; auto).
  inversion Hnd as [| ? ? N1 Hnd']; subst.
  inversion Hnd' as [| ? ? N2 _]; subst.
  assert (H12 : l1 <> l2) by (intros ->; apply N1; left; reflexivity).
  assert (H21 : l2 <> l1) by congruence.
  assert (N1' : ~ In l1 rest) by (intros Hin; apply N1; right; exact Hin).
  cbn [map]. unfold resizePoints.
  destruct (Rltb (Point.x (Store.deref h l1)) (Point.x (Store.deref h l2)));
    destruct (Rltb (Point.y (Store.deref h l1)) (Point.y (Store.deref h l2)));
    destruct handle; unfold Store.addX, Store.addY, addX, addY; cbn [map];
    repeat first
      [ rewrite deref_assign_same by (rewrite ?assign_length; assumption)
      | rewrite deref_assign_other by assumption
      | rewrite map_deref_assign_other by assumption ];
    reflexivity.
Qed.

Lemma resizeObj_reads_as_resizePoints_witness :
  NoDup (Store.points rectObj)
  /\ (forall l, In l (Store.points rectObj) ->
                (l < List.length (Store.heap lineDrawn))%nat)
  /\ Store.read (Store.resizeObj (Some (Store.id rectObj)) Hse 20 10
                   (Store.heap lineDrawn) rectObj) rectObj
     = Shape.setPoints
         (resizePoints Hse 20 10
            (Shape.points (Store.read (Store.heap lineDrawn) rectObj)))
         (Store.read (Store.heap lineDrawn) rectObj).
Proof.
  assert (H1 : NoDup (Store.points rectObj)).
  { simpl. constructor; [intros [E | []]; discriminate |].
    constructor; [intros [] | constructor]. }
  assert (H2 : forall l, In l (Store.points rectObj) ->
                         (l < List.length (Store.heap lineDrawn))%nat).
  { intros l Hl. simpl in Hl. simpl.
    destruct Hl as [<- | [<- | []]]; lia. }
  split; [exact H1 |]. split; [exact H2 |].
  exact (resizeObj_reads_as_resizePoints Hse 20 10 (Store.heap lineDrawn)
           rectObj H1 H2).
Defined.

(** ** Zoom and scroll *)

(** X6. Every handler that sets the zoom scale keeps it between
    [MIN_SCALE] and [MAX_SCALE]: the wheel in all its branches, the two
    zoom buttons and the reset. *)
Theorem scale_stays_in_bounds (evs : list ScaleEvent) (st : State) :
  MIN_SCALE <= scale st <= MAX_SCALE ->
  let st' := fold_left (fun s ev => applyScaleEvent ev s) evs st in
  MIN_SCALE <= scale st' <= MAX_SCALE.
Proof.
  revert st. induction evs as [| ev evs IH]; intros st H; [exact H |].
  cbn [fold_left]. apply IH.
  destruct ev as [rect e | | |].
  - unfold applyScaleEvent, handleWheel.
    destruct (w_ctrlKey e || w_metaKey e).
    + destruct rect; [| exact H]. simpl. apply clampScale_bounds.
    + destruct (w_shiftKey e); simpl; exact H.
  - unfold applyScaleEvent, zoomInButton, MIN_SCALE, MAX_SCALE in *. simpl.
    unfold Rmin. destruct (Rle_dec _ _); lra.
  - unfold applyScaleEvent, zoomOutButton, MIN_SCALE, MAX_SCALE in *. simpl.
    unfold Rmax. destruct (Rle_dec _ _); lra.
  - unfold applyScaleEvent, resetView, MIN_SCALE, MAX_SCALE. simpl. lra.
Qed.

Lemma scale_stays_in_bounds_witness :
  MIN_SCALE <= scale initialState <= MAX_SCALE
  /\ (let st' := fold_left (fun s ev => applyScaleEvent ev s)
                   [EvWheel canvas zoomIn; EvZoomOut; EvZoomIn] initialState in
      MIN_SCALE <= scale st' <= MAX_SCALE).
Proof.
  assert (H : MIN_SCALE <= scale initialState <= MAX_SCALE)
    by (unfold MIN_SCALE, MAX_SCALE; simpl; lra).
  split; [exact H |].
  exact (scale_stays_in_bounds [EvWheel canvas zoomIn; EvZoomOut; EvZoomIn]
           initialState H).
Defined.

(** X7. A wheel event without Ctrl or Meta scrolls: it changes neither the
    scale nor the shapes nor the history, and the world point shown at a
    screen position afterwards is the one that was shown [delta] further
    (only horizontally, by [deltaY], when Shift is held). *)
Theorem wheel_scroll_pans (rect : option DOMRect) (e : WheelEvent)
    (st : State) (mx my : R) :
  w_ctrlKey e || w_metaKey e = false ->
  let st' := handleWheel rect e st in
  scale st' = scale st /\ shapes st' = shapes st
  /\ undoStack st' = undoStack st
  /\ toWorldCoords st' mx my
     = if w_shiftKey e then toWorldCoords st (mx + deltaY e) my
       else toWorldCoords st (mx + deltaX e) (my + deltaY e).
Proof.
  intros H. cbv zeta. unfold handleWheel. rewrite H.
  destruct (w_shiftKey e); simpl; repeat split;
    unfold toWorldCoords; simpl; f_equal; unfold Rdiv; ring.
Qed.

Lemma wheel_scroll_pans_witness :
  w_ctrlKey (mkWheel false false true 3 7 0 0)
  || w_metaKey (mkWheel false false true 3 7 0 0) = false
  /\ (let e := mkWheel false false true 3 7 0 0 in
      let st' := handleWheel canvas e zoomedPanned in
      scale st' = scale zoomedPanned /\ shapes st' = shapes zoomedPanned
      /\ undoStack st' = undoStack zoomedPanned
      /\ toWorldCoords st' 10 20
         = if w_shiftKey e then toWorldCoords zoomedPanned (10 + deltaY e) 20
           else toWorldCoords zoomedPanned (10 + deltaX e) (20 + deltaY e)).
Proof.
  split; [reflexivity |].
  exact (wheel_scroll_pans canvas (mkWheel false false true 3 7 0 0)
           zoomedPanned 10 20 eq_refl).
Defined.

(** ** Lock, delete, copy and paste *)

Lemma toggle_twice_shape (sel : option string) (s : Shape.t) :
  let f := fun t => if idIs sel t
                    then Shape.setIsLocked (Some (negb (Shape.locked t))) t
                    else t in
  Shape.locked (f (f s)) = Shape.locked s
  /\ Shape.points (f s) = Shape.points s /\ Shape.id (f s) = Shape.id s
  /\ Shape.locked (f s) = if idIs sel s then negb (Shape.locked s)
                          else Shape.locked s.
Proof.
  cbv beta zeta. destruct (idIs sel s) eqn:E; cbv iota.
  - assert (E' : idIs sel (Shape.setIsLocked (Some (negb (Shape.locked s))) s)
                 = true) by exact E.
    rewrite E'. unfold Shape.locked. simpl.
    destruct (Shape.isLocked s) as [[|] |]; auto.
  - rewrite E. auto.
Qed.

(** X8. The lock toggle flips the lock of the selected shape and of no
    other, changes no point and no id, and writes nothing to the undo or
    redo stack, so it cannot be undone; toggling twice gives every shape
    its lock status back. *)
Theorem toggleLock_bypasses_history (st : State) :
  let st' := toggleLock st in
  undoStack st' = undoStack st /\ redoStack st' = redoStack st
  /\ map Shape.points (shapes st') = map Shape.points (shapes st)
  /\ map Shape.id (shapes st') = map Shape.id (shapes st)
  /\ lockStatus st'
     = map (fun s => if truthyId (selectedShapeId st)
                        && idIs (selectedShapeId st) s
                     then negb (Shape.locked s) else Shape.locked s)
           (shapes st)
  /\ lockStatus (toggleLock st') = lockStatus st.
Proof.
  cbv zeta. unfold toggleLock, lockStatus.
  destruct (truthyId (selectedShapeId st)) eqn:Et; simpl negb; cbv iota.
  - assert (Hsel : selectedShapeId
                     (setShapes
                        (map (fun s => if idIs (selectedShapeId st) s
                                       then Shape.setIsLocked
                                              (Some (negb (Shape.locked s))) s
                                       else s) (shapes st)) st)
                   = selectedShapeId st) by (destruct st; reflexivity).
    rewrite Hsel, Et. simpl negb. cbv iota.
    assert (Hsh : forall l s0, shapes (setShapes l s0) = l) by reflexivity.
    rewrite !Hsh.
    split; [destruct st; reflexivity |]. split; [destruct st; reflexivity |].
    rewrite !map_map.
    split; [| split; [| split]]; apply map_ext; intros s;
      destruct (toggle_twice_shape (selectedShapeId st) s)
        as (H1 & H2 & H3 & H4); cbv zeta in *; auto.
  - rewrite Et. simpl negb. cbv iota.
    repeat split; reflexivity.
Qed.

Lemma sliceLast_snoc {A : Type} (n : nat) (l : list A) (x : A) :
  sliceLast (S n) (l ++ [x]) = sliceLast n l ++ [x].
Proof.
  unfold sliceLast. rewrite length_app. cbn [List.length].
  replace (List.length l + 1 - S n)%nat with (List.length l - n)%nat by lia.
  rewrite skipn_app.
  replace (List.length l - n - List.length l)%nat with 0%nat by lia.
  reflexivity.
Qed.

Lemma handleKeyDown_deleteKey (b c m sh ai : bool) (rnd : string)
    (st : State) :
  TextInput.visible (textInput st) = false ->
  handleKeyDown ai rnd (deleteKey b c m sh) st
  = match deleteSelected st with None => st | Some st3 => st3 end.
Proof.
  intros Ev. unfold handleKeyDown, deleteKey. rewrite Ev.
  destruct b.
  - change (keyIs (mkKey "Backspace" c m sh) "Shift") with false.
    change (keyIs (mkKey "Backspace" c m sh) " ") with false.
    change (keyIs (mkKey "Backspace" c m sh) "Backspace") with true.
    cbv beta iota zeta. simpl andb. simpl orb. cbv iota.
    destruct (deleteSelected st) as [st3 |]; [| reflexivity].
    unfold arrows, shortcuts.
    destruct c, m; simpl; destruct (truthyId (selectedShapeId st3));
      reflexivity.
  - change (keyIs (mkKey "Delete" c m sh) "Shift") with false.
    change (keyIs (mkKey "Delete" c m sh) " ") with false.
    change (keyIs (mkKey "Delete" c m sh) "Backspace") with false.
    change (keyIs (mkKey "Delete" c m sh) "Delete") with true.
    cbv beta iota zeta. simpl andb. simpl orb. cbv iota.
    destruct (deleteSelected st) as [st3 |]; [| reflexivity].
    unfold arrows, shortcuts.
    destruct c, m; simpl; destruct (truthyId (selectedShapeId st3));
      reflexivity.
Qed.

(** X9. Backspace or Delete on a selected unlocked shape, with no text
    entry open, removes exactly the shapes that carry the selected id,
    clears the selection and commits: one undo brings the scene back. *)
Theorem delete_then_undo (b c m sh ai : bool) (rnd : string) (st : State)
    (s : Shape.t) :
  TextInput.visible (textInput st) = false ->
  truthyId (selectedShapeId st) = true ->
  find (idIs (selectedShapeId st)) (shapes st) = Some s ->
  Shape.locked s = false ->
  let st' := handleKeyDown ai rnd (deleteKey b c m sh) st in
  shapes st'
  = filter (fun t => negb (idIs (selectedShapeId st) t)) (shapes st)
  /\ ~ In s (shapes st')
  /\ selectedShapeId st' = None
  /\ shapes (undo st') = shapes st
  /\ redoStack st' = [].
Proof.
  intros Ev Ht Hf Hl. cbv zeta.
  rewrite (handleKeyDown_deleteKey b c m sh ai rnd st Ev).
  unfold deleteSelected. rewrite Ht, Hf, Hl.
  assert (Hs : idIs (selectedShapeId st) s = true).
  { apply find_some in Hf. apply Hf. }
  split; [destruct st; reflexivity |]. split.
  - intros Hin.
    assert (Hin' : In s (filter (fun t => negb (idIs (selectedShapeId st) t))
                                (shapes st)))
      by (destruct st; exact Hin).
    apply filter_In in Hin'. destruct Hin' as [_ Hn]. rewrite Hs in Hn.
    discriminate.
  - split; [destruct st; reflexivity |]. split; [| destruct st; reflexivity].
    unfold undo.
    assert (E : lastOpt (undoStack
                  (setSelectedShapeId None
                     (saveHistory
                        (filter (fun t => negb (idIs (selectedShapeId st) t))
                                (shapes st)) st)))
                = Some (shapes st)).
    { destruct st; simpl. apply lastOpt_app. }
    rewrite E. reflexivity.
Qed.

Lemma delete_then_undo_witness :
  TextInput.visible (textInput zoomedScene) = false
  /\ truthyId (selectedShapeId zoomedScene) = true
  /\ find (idIs (selectedShapeId zoomedScene)) (shapes zoomedScene)
     = Some plainRect
  /\ Shape.locked plainRect = false
  /\ (let st' := handleKeyDown false "n7" (deleteKey true false false false)
                   zoomedScene in
      shapes st'
      = filter (fun t => negb (idIs (selectedShapeId zoomedScene) t))
               (shapes zoomedScene)
      /\ ~ In plainRect (shapes st')
      /\ selectedShapeId st' = None
      /\ shapes (undo st') = shapes zoomedScene
      /\ redoStack st' = []).
Proof.
  split; [reflexivity |]. split; [reflexivity |]. split; [reflexivity |].
  split; [reflexivity |].
  exact (delete_then_undo true false false false false "n7" zoomedScene
           plainRect eq_refl eq_refl eq_refl eq_refl).
Defined.

(** X10. Copy, then paste twice: the clipboard keeps the copied shape, so
    both pastes take their points from it and the two pasted shapes lie
    exactly on top of one another, (+20, +20) from the source; each paste
    is one commit and selects what it pasted. *)
Theorem copy_then_paste_twice (r1 r2 : string) (st : State) (s : Shape.t) :
  truthyId (selectedShapeId st) = true ->
  find (idIs (selectedShapeId st)) (shapes st) = Some s ->
  let st1 := handlePaste r1 (handleCopy st) in
  let st2 := handlePaste r2 st1 in
  clipboard st2 = Some s
  /\ shapes st2 = shapes st ++ [offsetCopy r1 s; offsetCopy r2 s]
  /\ Shape.points (offsetCopy r1 s) = Shape.points (offsetCopy r2 s)
  /\ selectedShapeId st2 = Some r2
  /\ shapes (undo st2) = shapes st ++ [offsetCopy r1 s]
  /\ shapes (undo (undo st2)) = shapes st.
Proof.
  intros Ht Hf. cbv zeta.
  assert (Hc : clipboard (handleCopy st) = Some s).
  { unfold handleCopy. rewrite Ht, Hf. reflexivity. }
  assert (Hs0 : shapes (handleCopy st) = shapes st).
  { unfold handleCopy. rewrite Ht, Hf. reflexivity. }
  assert (Hu0 : undoStack (handleCopy st) = undoStack st).
  { unfold handleCopy. rewrite Ht, Hf. reflexivity. }
  destruct (handlePaste_shapes r1 (handleCopy st) s Hc) as (P1 & S1 & U1).
  assert (Hc1 : clipboard (handlePaste r1 (handleCopy st)) = Some s).
  { unfold handlePaste. rewrite Hc. exact Hc. }
  destruct (handlePaste_shapes r2 _ s Hc1) as (P2 & S2 & U2).
  assert (Hc2 : clipboard (handlePaste r2 (handlePaste r1 (handleCopy st)))
                = Some s).
  { unfold handlePaste at 1. rewrite Hc1. exact Hc1. }
  split; [exact Hc2 |]. split.
  { rewrite P2, P1, Hs0, <- app_assoc. reflexivity. }
  split; [reflexivity |]. split; [exact S2 |].
  assert (L2 : lastOpt (undoStack (handlePaste r2 (handlePaste r1 (handleCopy st))))
               = Some (shapes (handlePaste r1 (handleCopy st))))
    by (rewrite U2; apply lastOpt_app).
  assert (E2 : shapes (undo (handlePaste r2 (handlePaste r1 (handleCopy st))))
               = shapes (handlePaste r1 (handleCopy st)))
    by (unfold undo; rewrite L2; reflexivity).
  split; [rewrite E2, P1, Hs0; reflexivity |].
  assert (Eu : undoStack (undo (handlePaste r2 (handlePaste r1 (handleCopy st))))
               = removelast (undoStack (handlePaste r2 (handlePaste r1 (handleCopy st)))))
    by (unfold undo; rewrite L2; reflexivity).
  unfold undo at 1. rewrite Eu, U2, removelast_last, U1.
  change (MAX_HISTORY - 1)%nat with (S 48).
  rewrite sliceLast_snoc, lastOpt_app.
  simpl. exact Hs0.
Qed.

Lemma copy_then_paste_twice_witness :
  truthyId (selectedShapeId lockedScene) = true
  /\ find (idIs (selectedShapeId lockedScene)) (shapes lockedScene)
     = Some lockedRect
  /\ (let st1 := handlePaste "a1" (handleCopy lockedScene) in
      let st2 := handlePaste "a2" st1 in
      clipboard st2 = Some lockedRect
      /\ shapes st2
         = shapes lockedScene
           ++ [offsetCopy "a1" lockedRect; offsetCopy "a2" lockedRect]
      /\ Shape.points (offsetCopy "a1" lockedRect)
         = Shape.points (offsetCopy "a2" lockedRect)
      /\ selectedShapeId st2 = Some "a2"%string
      /\ shapes (undo st2) = shapes lockedScene ++ [offsetCopy "a1" lockedRect]
      /\ shapes (undo (undo st2)) = shapes lockedScene).
Proof.
  split; [reflexivity |]. split; [reflexivity |].
  exact (copy_then_paste_twice "a1" "a2" lockedScene lockedRect
           eq_refl eq_refl).
Defined.

(** ** Panning *)

Lemma draw_panning (rect : option DOMRect) (e : PointerEvent) (st st0 : State)
    (origin : Point.t) :
  Panning st0 origin st ->
  exists st', draw rect e st = Some st'
              /\ Panning st0 origin st' /\ startPos st' = clientPos e.
Proof.
  intros (Hp & Hx & Hy & Hs & Hu & Hr & Hsc & Hsel).
  unfold draw. rewrite Hp. eexists. split; [reflexivity |].
  destruct st; unfold Panning, clientPos in *; simpl in *.
  repeat split; auto; lra.
Qed.

Lemma drawAll_panning (rect : option DOMRect) (es : list PointerEvent)
    (st st0 : State) (origin : Point.t) :
  Panning st0 origin st ->
  exists st', drawAll rect es st = Some st'
              /\ Panning st0 origin st'
              /\ startPos st' = last (map clientPos es) (startPos st).
Proof.
  revert st. induction es as [| e es IH]; intros st H.
  - exists st. auto.
  - cbn [drawAll map].
    destruct (draw_panning rect e st st0 origin H) as [st1 [-> [H1 E1]]].
    destruct (IH st1 H1) as [st2 [E2 [H2 L2]]].
    exists st2. split; [exact E2 |]. split; [exact H2 |].
    rewrite L2, E1. symmetry. apply last_cons_default.
Qed.

(** X11. A pointer gesture that starts a pan (space held, middle or right
    button, or the hand tool) moves the offset by the displacement of the
    pointer between pointer down and the last move, whatever the path, and
    changes neither the shapes nor the scale nor the selection; it pushes
    nothing on the history stacks. *)
Theorem pan_gesture (rect : DOMRect) (rnd1 rnd2 : string)
    (down : PointerEvent) (moves : list PointerEvent) (st : State) :
  panTrigger down st = true ->
  exists st',
    gesture (Some rect) rnd1 rnd2 down moves st = Some st'
    /\ (let final := last (map clientPos moves) (clientPos down) in
        offset st'
        = Point.mk (Point.x (offset st) + (Point.x final - clientX down))
                   (Point.y (offset st) + (Point.y final - clientY down)))
    /\ shapes st' = shapes st /\ scale st' = scale st
    /\ selectedShapeId st' = selectedShapeId st
    /\ undoStack st' = undoStack st /\ redoStack st' = redoStack st
    /\ isPanning st' = false.
Proof.
  intros Htr. unfold gesture, startDrawing. unfold panTrigger in Htr.
  cbv zeta. rewrite Htr.
  assert (H0 : Panning st (clientPos down)
                 (setStartPos (Point.mk (clientX down) (clientY down))
                    (setIsPanning true st))).
  { destruct st; unfold Panning, clientPos; simpl. repeat split; lra. }
  destruct (drawAll_panning (Some rect) moves _ st (clientPos down) H0)
    as [st2 [-> [(Hp & Hx & Hy & Hs & Hu & Hr & Hsc & Hsel) L2]]].
  eexists. split; [reflexivity |].
  unfold stopDrawing. rewrite Hp.
  assert (L2' : startPos st2 = last (map clientPos moves) (clientPos down)).
  { rewrite L2. destruct st; reflexivity. }
  cbv zeta. rewrite <- L2'.
  destruct st2; simpl in *. subst.
  repeat split; try reflexivity.
  destruct offset0 as [ox oy]. simpl in *. subst. reflexivity.
Qed.

Lemma pan_gesture_witness :
  panTrigger (click 100 100) spaceHeld = true
  /\ exists st',
      gesture (Some (mkRect 0 0)) "a" "b" (click 100 100)
              [click 120 90; click 150 60] spaceHeld = Some st'
      /\ (let final := last (map clientPos [click 120 90; click 150 60])
                            (clientPos (click 100 100)) in
          offset st'
          = Point.mk (Point.x (offset spaceHeld)
                      + (Point.x final - clientX (click 100 100)))
                     (Point.y (offset spaceHeld)
                      + (Point.y final - clientY (click 100 100))))
      /\ shapes st' = shapes spaceHeld /\ scale st' = scale spaceHeld
      /\ selectedShapeId st' = selectedShapeId spaceHeld
      /\ undoStack st' = undoStack spaceHeld
      /\ redoStack st' = redoStack spaceHeld
      /\ isPanning st' = false.
Proof.
  split; [reflexivity |].
  exact (pan_gesture (mkRect 0 0) "a" "b" (click 100 100)
           [click 120 90; click 150 60] spaceHeld eq_refl).
Defined.

(** ** One gesture, at most one history entry *)

Ltac split_cases H :=
  repeat match type of H with
    | context [match ?c with _ => _ end] =>
        match c with
        | context [match _ with _ => _ end] => fail 1
        | _ => destruct c
        end
    end.

Lemma draw_keeps_history (rect : option DOMRect) (e : PointerEvent)
    (st st' : State) :
  draw rect e st = Some st' ->
  undoStack st' = undoStack st /\ redoStack st' = redoStack st.
Proof.
  intros H. unfold draw in H. cbv zeta in H.
  split_cases H; try discriminate;
    injection H as <-; destruct st; split; reflexivity.
Qed.

Lemma drawAll_keeps_history (rect : option DOMRect) (es : list PointerEvent)
    (st st' : State) :
  drawAll rect es st = Some st' ->
  undoStack st' = undoStack st /\ redoStack st' = redoStack st.
Proof.
  revert st. induction es as [| e es IH]; intros st H.
  - injection H as <-. auto.
  - cbn [drawAll] in H. destruct (draw rect e st) as [st1 |] eqn:E;
      [| discriminate].
    destruct (draw_keeps_history rect e st st1 E) as [U R].
    destruct (IH st1 H) as [U' R']. split; congruence.
Qed.

Lemma startDrawing_keeps_history (rect : option DOMRect) (rnd : string)
    (e : PointerEvent) (st st' : State) :
  Tool_eqb (tool st) TText = false ->
  startDrawing rect rnd e st = Some st' ->
  undoStack st' = undoStack st /\ redoStack st' = redoStack st.
Proof.
  intros Ht H. unfold startDrawing in H. cbv zeta in H. rewrite Ht in H.
  split_cases H; try discriminate;
    injection H as <-; destruct st; split; reflexivity.
Qed.

Lemma draw_keeps_isResizing (rect : option DOMRect) (e : PointerEvent)
    (st st' : State) :
  draw rect e st = Some st' -> isResizing st' = isResizing st.
Proof.
  intros H. unfold draw in H. cbv zeta in H.
  split_cases H; try discriminate;
    injection H as <-; destruct st; reflexivity.
Qed.

Lemma drawAll_keeps_isResizing (rect : option DOMRect)
    (es : list PointerEvent) (st st' : State) :
  drawAll rect es st = Some st' -> isResizing st' = isResizing st.
Proof.
  revert st. induction es as [| e es IH]; intros st H.
  - injection H as <-. reflexivity.
  - cbn [drawAll] in H. destruct (draw rect e st) as [st1 |] eqn:E;
      [| discriminate].
    rewrite (IH st1 H). exact (draw_keeps_isResizing rect e st st1 E).
Qed.

Lemma stopDrawing_pushes_at_most_once (rnd : string) (st : State) :
  (undoStack (stopDrawing rnd st) = undoStack st
   /\ redoStack (stopDrawing rnd st) = redoStack st
   /\ shapes (stopDrawing rnd st) = shapes st)
  \/ (undoStack (stopDrawing rnd st)
      = sliceLast (MAX_HISTORY - 1) (undoStack st) ++ [shapes st]
      /\ redoStack (stopDrawing rnd st) = []).
Proof.
  unfold stopDrawing.
  destruct (isPanning st); [left; destruct st; auto |].
  destruct (isDragging st || isResizing st || isRotating st);
    [right; destruct st; auto |].
  destruct (isDrawing st); simpl negb; cbv iota; [| left; auto].
  right. destruct (tool st); destruct st; auto.
Qed.

(** X12. A pointer gesture made with any tool but the text tool and in
    which no resize handle is grabbed (the pointer down does not start a
    resize, and then no pointer move runs the resize branch): whatever the
    number of pointer moves, both history stacks are untouched until the
    pointer is released, and the release either leaves them untouched with
    the scene or pushes exactly one entry, the scene at release, and empties
    the redo stack. A resize is left out: its moves assign to the point
    objects that history entries share (module [Store]). *)
Theorem gesture_commits_at_most_once (rect : option DOMRect)
    (rnd1 rnd2 : string) (down : PointerEvent) (moves : list PointerEvent)
    (st st1 st2 : State) :
  Tool_eqb (tool st) TText = false ->
  startDrawing rect rnd1 down st = Some st1 ->
  isResizing st1 = false ->
  drawAll rect moves st1 = Some st2 ->
  gesture rect rnd1 rnd2 down moves st = Some (stopDrawing rnd2 st2)
  /\ isResizing st2 = false
  /\ undoStack st2 = undoStack st /\ redoStack st2 = redoStack st
  /\ ((undoStack (stopDrawing rnd2 st2) = undoStack st
       /\ redoStack (stopDrawing rnd2 st2) = redoStack st
       /\ shapes (stopDrawing rnd2 st2) = shapes st2)
      \/ (undoStack (stopDrawing rnd2 st2)
          = sliceLast (MAX_HISTORY - 1) (undoStack st) ++ [shapes st2]
          /\ redoStack (stopDrawing rnd2 st2) = [])).
Proof.
  intros Ht H1 Hrs H2.
  destruct (startDrawing_keeps_history rect rnd1 down st st1 Ht H1) as [U1 R1].
  destruct (drawAll_keeps_history rect moves st1 st2 H2) as [U2 R2].
  split; [unfold gesture; rewrite H1, H2; reflexivity |].
  split; [rewrite (drawAll_keeps_isResizing rect moves st1 st2 H2); exact Hrs |].
  split; [congruence |]. split; [congruence |].
  destruct (stopDrawing_pushes_at_most_once rnd2 st2) as [(A & B & C) | (A & B)].
  - left. repeat split; congruence.
  - right. split; [| exact B]. rewrite A, U2, U1. reflexivity.
Qed.

Lemma gesture_commits_at_most_once_witness :
  Tool_eqb (tool initialState) TText = false
  /\ startDrawing canvas "s1" (click 10 10) initialState = Some strokeDown
  /\ isResizing strokeDown = false
  /\ drawAll canvas [click 20 10; click 30 10; click 40 10; click 50 10]
             strokeDown = Some strokeMoved
  /\ gesture canvas "s1" "s2" (click 10 10)
             [click 20 10; click 30 10; click 40 10; click 50 10] initialState
     = Some (stopDrawing "s2" strokeMoved)
  /\ isResizing strokeMoved = false
  /\ undoStack strokeMoved = undoStack initialState
  /\ redoStack strokeMoved = redoStack initialState
  /\ ((undoStack (stopDrawing "s2" strokeMoved) = undoStack initialState
       /\ redoStack (stopDrawing "s2" strokeMoved) = redoStack initialState
       /\ shapes (stopDrawing "s2" strokeMoved) = shapes strokeMoved)
      \/ (undoStack (stopDrawing "s2" strokeMoved)
          = sliceLast (MAX_HISTORY - 1) (undoStack initialState)
            ++ [shapes strokeMoved]
          /\ redoStack (stopDrawing "s2" strokeMoved) = [])).
Proof.
  assert (H1 : startDrawing canvas "s1" (click 10 10) initialState
               = Some strokeDown) by (run; reflexivity).
  assert (H2 : drawAll canvas
                 [click 20 10; click 30 10; click 40 10; click 50 10]
                 strokeDown = Some strokeMoved) by (run; reflexivity).
  assert (H3 : isResizing strokeDown = false) by (run; reflexivity).
  split; [reflexivity |]. split; [exact H1 |]. split; [exact H3 |].
  split; [exact H2 |].
  exact (gesture_commits_at_most_once canvas "s1" "s2" (click 10 10)
           [click 20 10; click 30 10; click 40 10; click 50 10]
           initialState strokeDown strokeMoved eq_refl H1 H3 H2).
Defined.

(** ** Hit-testing *)

Lemma dist_self (a b : R) : dist a b a b = 0.
Proof.
  unfold dist. replace ((a - a) ^ 2 + (b - b) ^ 2) with 0 by ring.
  apply sqrt_0.
Qed.

Lemma dist_nonneg (a b c d : R) : 0 <= dist a b c d.
Proof. unfold dist. apply sqrt_pos. Qed.

(** X13. On an unrotated shape and at any positive scale, the first point
    of the shape is hit for every tool but text: a freehand stroke at its
    first sample, a circle at its centre, a box or line at its anchor. A
    text label is never hit at its own anchor, its hit box lying above the
    anchor by the tolerance. *)
Theorem anchor_hit (st : State) (s : Shape.t) (p1 : Point.t)
    (rest : list Point.t) :
  0 < scale st -> activeRotation s = None -> Shape.points s = p1 :: rest ->
  checkHit st p1 s = Some (negb (Tool_eqb (Shape.tool s) TText)).
Proof.
  intros Hsc Hrot Hpts.
  assert (Hh : 0 < 10 / scale st) by (apply Rdiv_lt_0_compat; lra).
  unfold checkHit. rewrite Hpts, Hrot.
  assert (Hbox : forall p2,
             Some (hitLocal st (Point.x p1) (Point.y p1) s p1 p2)
             = Some (negb (Tool_eqb (Shape.tool s) TText))).
  { intros p2. f_equal. unfold hitLocal. rewrite Hpts.
    pose proof (Rmin_l (Point.x p1) (Point.x p2)).
    pose proof (Rmax_l (Point.x p1) (Point.x p2)).
    pose proof (Rmin_l (Point.y p1) (Point.y p2)).
    pose proof (Rmax_l (Point.y p1) (Point.y p2)).
    pose proof (dist_nonneg (Point.x p2) (Point.y p2) (Point.x p1) (Point.y p1)).
    destruct (Shape.tool s); cbn [isFreehand Tool_eqb negb existsb];
      cbv beta iota zeta;
      try (rewrite dist_self; rewrite Rltb_true by lra; reflexivity);
      try (rewrite dist_self; rewrite Rleb_true by lra; reflexivity);
      try (rewrite !Rleb_true by lra; reflexivity).
    rewrite (Rleb_false (Point.y p1)) by lra.
    rewrite andb_false_r. reflexivity. }
  destruct rest as [| p2 rest']; cbn [anchors]; apply Hbox.
Qed.

Lemma anchor_hit_witness :
  0 < scale zoomedScene /\ activeRotation plainRect = None
  /\ Shape.points plainRect = Point.mk 0 0 :: [Point.mk 100 50]
  /\ checkHit zoomedScene (Point.mk 0 0) plainRect
     = Some (negb (Tool_eqb (Shape.tool plainRect) TText)).
Proof.
  assert (H : 0 < scale zoomedScene) by (simpl; lra).
  split; [exact H |]. split; [reflexivity |]. split; [reflexivity |].
  exact (anchor_hit zoomedScene plainRect (Point.mk 0 0) [Point.mk 100 50]
           H eq_refl eq_refl).
Defined.

Lemma findHit_first (st : State) (pos : Point.t) (l : list Shape.t) :
  match findHit st pos l with
  | Some (Some hit) =>
      exists a b, l = a ++ hit :: b
                  /\ Forall (fun s => checkHit st pos s = Some false) a
                  /\ checkHit st pos hit = Some true
  | Some None => Forall (fun s => checkHit st pos s = Some false) l
  | None => exists s, In s l /\ checkHit st pos s = None
  end.
Proof.
  induction l as [| s l IH]; [constructor |].
  cbn [findHit]. destruct (checkHit st pos s) as [[|] |] eqn:E.
  - exists [], l. auto.
  - destruct (findHit st pos l) as [[hit |] |].
    + destruct IH as (a & b & -> & Ha & Hh). exists (s :: a), b.
      split; [reflexivity |]. split; [constructor; assumption | exact Hh].
    + constructor; assumption.
    + destruct IH as (t & Hin & Ht). exists t. split; [right |]; assumption.
  - exists s. split; [left; reflexivity | exact E].
Qed.

(** X14. Picking follows the z-order: the shape [topmostHit] returns is hit
    and every shape after it in the sequence, that is drawn above it, is
    missed; it returns no shape only when every shape is missed. *)
Theorem topmostHit_is_topmost (st : State) (pos : Point.t) :
  match topmostHit st pos with
  | Some (Some hit) =>
      exists below above,
        shapes st = below ++ hit :: above
        /\ checkHit st pos hit = Some true
        /\ Forall (fun s => checkHit st pos s = Some false) above
  | Some None => Forall (fun s => checkHit st pos s = Some false) (shapes st)
  | None => exists s, In s (shapes st) /\ checkHit st pos s = None
  end.
Proof.
  unfold topmostHit.
  pose proof (findHit_first st pos (rev (shapes st))) as H.
  destruct (findHit st pos (rev (shapes st))) as [[hit |] |].
  - destruct H as (a & b & Hab & Ha & Hh).
    exists (rev b), (rev a). split; [| split; [exact Hh |]].
    + apply (f_equal (@rev Shape.t)) in Hab. rewrite rev_involutive in Hab.
      rewrite Hab, rev_app_distr. simpl. rewrite <- app_assoc. reflexivity.
    + apply Forall_rev. exact Ha.
  - rewrite <- (rev_involutive (shapes st)). apply Forall_rev. exact H.
  - destruct H as (s & Hin & Hs). exists s. split; [| exact Hs].
    apply in_rev. exact Hin.
Qed.

(** ** Resize handles and the shift constraint *)

(** X15. On a box whose first point is its north-west corner, each of the
    eight handles moves the corner or edge it names and holds the opposite
    one: corner handles move both axes of one point (or one axis of each),
    edge handles one axis of one point; no handle changes the number of
    points or any point after the second. In particular the south-east
    handle by (+20, +10) turns (0,0)-(100,50) into (0,0)-(120,60). *)
Theorem resize_handle_semantics (h : ResizeHandle) (dx dy : R)
    (p1 p2 : Point.t) (rest : list Point.t) :
  Point.x p1 < Point.x p2 -> Point.y p1 < Point.y p2 ->
  let '((d1x, d1y), (d2x, d2y)) := handleEffect h dx dy in
  resizePoints h dx dy (p1 :: p2 :: rest)
  = shiftPoint d1x d1y p1 :: shiftPoint d2x d2y p2 :: rest.
Proof.
  intros Hx Hy. unfold resizePoints.
  rewrite (Rltb_true _ _ Hx), (Rltb_true _ _ Hy).
  destruct p1 as [x1 y1], p2 as [x2 y2].
  destruct h; simpl; unfold shiftPoint; simpl;
    repeat (f_equal; try lra).
Qed.

Lemma resize_handle_semantics_witness :
  Point.x (Point.mk 0 0) < Point.x (Point.mk 100 50)
  /\ Point.y (Point.mk 0 0) < Point.y (Point.mk 100 50)
  /\ (let '((d1x, d1y), (d2x, d2y)) := handleEffect Hse 20 10 in
      resizePoints Hse 20 10 (Point.mk 0 0 :: Point.mk 100 50 :: [])
      = shiftPoint d1x d1y (Point.mk 0 0)
        :: shiftPoint d2x d2y (Point.mk 100 50) :: []).
Proof.
  assert (Hx : Point.x (Point.mk 0 0) < Point.x (Point.mk 100 50))
    by (simpl; lra).
  assert (Hy : Point.y (Point.mk 0 0) < Point.y (Point.mk 100 50))
    by (simpl; lra).
  split; [exact Hx |]. split; [exact Hy |].
  exact (resize_handle_semantics Hse 20 10 (Point.mk 0 0) (Point.mk 100 50)
           [] Hx Hy).
Defined.

(** X16. With Shift held, releasing a rectangle, rounded rectangle or
    circle (grid snap off) commits a shape whose end point is as far from
    the anchor horizontally as vertically, namely by the larger of the two
    pointer displacements, on the side of the anchor the pointer is on. *)
Theorem shift_constrains_to_square (rnd : string) (st : State) :
  isDrawing st = true -> noGesture st -> isShiftPressed st = true ->
  squareTool (tool st) = true -> snapToGrid st = false ->
  let dx := Point.x (currentPos st) - Point.x (startPos st) in
  let dy := Point.y (currentPos st) - Point.y (startPos st) in
  exists sh e,
    shapes (stopDrawing rnd st) = shapes st ++ [sh]
    /\ Shape.points sh = [startPos st; e]
    /\ Rabs (Point.x e - Point.x (startPos st)) = Rmax (Rabs dx) (Rabs dy)
    /\ Rabs (Point.y e - Point.y (startPos st)) = Rmax (Rabs dx) (Rabs dy)
    /\ (0 <= dx -> Point.x (startPos st) <= Point.x e)
    /\ (dx < 0 -> Point.x e <= Point.x (startPos st))
    /\ (0 <= dy -> Point.y (startPos st) <= Point.y e)
    /\ (dy < 0 -> Point.y e <= Point.y (startPos st)).
Proof.
  intros Hd (Hp & Hdr & Hrs & Hro) Hsh Hsq Hsnap. cbv zeta.
  set (dx := Point.x (currentPos st) - Point.x (startPos st)).
  set (dy := Point.y (currentPos st) - Point.y (startPos st)).
  set (size := Rmax (Rabs dx) (Rabs dy)).
  assert (Hsize : 0 <= size).
  { unfold size. pose proof (Rabs_pos dx). pose proof (Rmax_l (Rabs dx) (Rabs dy)).
    lra. }
  exists (Shape.mk rnd (tool st)
            [startPos st;
             Point.mk (Point.x (startPos st)
                       + (if Rleb 0 dx then size else - size))
                      (Point.y (startPos st)
                       + (if Rleb 0 dy then size else - size))]
            (color st) (brushSize st / scale st) (isFilled st)
            None None None).
  eexists. split; [| split; [reflexivity |]].
  - unfold stopDrawing. rewrite Hp, Hdr, Hrs, Hro, Hd. simpl orb. simpl negb.
    cbv iota. unfold applySnap. rewrite Hsnap, Hsh. simpl negb. cbv iota.
    destruct (tool st); try discriminate; destruct st; reflexivity.
  - simpl.
    assert (Ex : forall b : bool,
               Rabs (Point.x (startPos st) + (if b then size else - size)
                     - Point.x (startPos st)) = size).
    { intros []; [replace (_ + size - _) with size by ring; apply Rabs_pos_eq; lra |].
      replace (_ + - size - _) with (- size) by ring.
      rewrite Rabs_Ropp. apply Rabs_pos_eq; lra. }
    assert (Ey : forall b : bool,
               Rabs (Point.y (startPos st) + (if b then size else - size)
                     - Point.y (startPos st)) = size).
    { intros []; [replace (_ + size - _) with size by ring; apply Rabs_pos_eq; lra |].
      replace (_ + - size - _) with (- size) by ring.
      rewrite Rabs_Ropp. apply Rabs_pos_eq; lra. }
    split; [apply Ex |]. split; [apply Ey |].
    repeat split; intros H.
    + rewrite (Rleb_true _ _ H). lra.
    + rewrite (Rleb_false _ _ H). lra.
    + rewrite (Rleb_true _ _ H). lra.
    + rewrite (Rleb_false _ _ H). lra.
Qed.

Lemma shift_constrains_to_square_witness :
  isDrawing shiftDrawing = true /\ noGesture shiftDrawing
  /\ isShiftPressed shiftDrawing = true
  /\ squareTool (tool shiftDrawing) = true
  /\ snapToGrid shiftDrawing = false
  /\ (let dx := Point.x (currentPos shiftDrawing)
                - Point.x (startPos shiftDrawing) in
      let dy := Point.y (currentPos shiftDrawing)
                - Point.y (startPos shiftDrawing) in
      exists sh e,
        shapes (stopDrawing "q" shiftDrawing) = shapes shiftDrawing ++ [sh]
        /\ Shape.points sh = [startPos shiftDrawing; e]
        /\ Rabs (Point.x e - Point.x (startPos shiftDrawing))
           = Rmax (Rabs dx) (Rabs dy)
        /\ Rabs (Point.y e - Point.y (startPos shiftDrawing))
           = Rmax (Rabs dx) (Rabs dy)
        /\ (0 <= dx -> Point.x (startPos shiftDrawing) <= Point.x e)
        /\ (dx < 0 -> Point.x e <= Point.x (startPos shiftDrawing))
        /\ (0 <= dy -> Point.y (startPos shiftDrawing) <= Point.y e)
        /\ (dy < 0 -> Point.y e <= Point.y (startPos shiftDrawing))).
Proof.
  assert (Hn : noGesture shiftDrawing) by (repeat split).
  split; [reflexivity |]. split; [exact Hn |]. split; [reflexivity |].
  split; [reflexivity |]. split; [reflexivity |].
  exact (shift_constrains_to_square "q" shiftDrawing eq_refl Hn eq_refl
           eq_refl eq_refl).
Defined.

(** ** Text entry *)

Lemma isBlank_white_space :
  forallb isBlank unicodeSpaces = true
  /\ forallb (fun s => negb (isBlank s)) notSpaces = true
  /\ isBlank (bytes [9; 10; 11; 12; 13; 32]%nat) = true.
Proof. repeat split; reflexivity. Qed.

Lemma isBlank_app (s t : string) :
  isBlank s = true -> isBlank (s ++ t) = isBlank t.
Proof.
  revert t. 
  assert (H : forall n s, (String.length s <= n)%nat -> forall t,
             isBlank s = true -> isBlank (s ++ t)%string = isBlank t).
  { induction n as [| n IH]; intros u Hn t Hu.
    - destruct u; [reflexivity | simpl in Hn; lia].
    - destruct u as [| a r1]; [reflexivity |].
      simpl in Hn. simpl in Hu |- *.
      destruct (whiteSpace1 (Ascii.nat_of_ascii a)).
      + apply IH; [lia | exact Hu].
      + destruct r1 as [| b r2]; [discriminate |].
        simpl in Hn. simpl.
        destruct (whiteSpace2 (Ascii.nat_of_ascii a) (Ascii.nat_of_ascii b)).
        * apply IH; [lia | exact Hu].
        * destruct r2 as [| c r3]; [discriminate |].
          simpl in Hn. simpl.
          apply andb_prop in Hu as [Hw Hr]. rewrite Hw. simpl.
          apply IH; [lia | exact Hr]. }
  intros t. apply (H (String.length s)). lia.
Qed.

(** X17. Confirming the text entry closes and empties it. With content
    that is not blank it commits one text shape anchored at the world point
    of the entry (the snapped one under grid snap), which one undo removes;
    with blank content, as on Escape, the scene and both history stacks stay
    as they are. *)
Theorem text_entry_outcomes (rnd : string) (st : State) :
  let ti := textInput st in
  let st' := handleTextSubmit rnd st in
  textInput st' = TextInput.mk false (TextInput.x ti) (TextInput.y ti) EmptyString
  /\ textInput (cancelText st) = textInput st'
  /\ shapes (cancelText st) = shapes st
  /\ undoStack (cancelText st) = undoStack st
  /\ (isBlank (TextInput.value ti) = true ->
      shapes st' = shapes st /\ undoStack st' = undoStack st
      /\ redoStack st' = redoStack st)
  /\ (isBlank (TextInput.value ti) = false ->
      shapes st'
      = shapes st
        ++ [Shape.mk rnd TText
              [snapPoint st (toWorldCoords st (TextInput.x ti) (TextInput.y ti))]
              (color st) (brushSize st / scale st) false None None
              (Some (TextInput.value ti))]
      /\ shapes (undo st') = shapes st).
Proof.
  cbv zeta. unfold handleTextSubmit, cancelText.
  destruct (isBlank (TextInput.value (textInput st))) eqn:Eb; simpl negb;
    cbv beta iota zeta.
  - repeat split; try (destruct st; reflexivity); try discriminate.
  - split; [destruct st; reflexivity |]. split; [destruct st; reflexivity |].
    split; [destruct st; reflexivity |]. split; [destruct st; reflexivity |].
    split; [intros H; discriminate |]. intros _.
    split; [destruct st; reflexivity |].
    unfold undo.
    match goal with
    | |- context [lastOpt (undoStack ?s)] =>
        assert (E : lastOpt (undoStack s) = Some (shapes st))
          by (destruct st; simpl; apply lastOpt_app)
    end.
    rewrite E. reflexivity.
Qed.

Lemma text_entry_outcomes_witness :
  ((isBlank (TextInput.value (textInput typing)) = false)
   /\ (let ti := textInput typing in
       let st' := handleTextSubmit "t9" typing in
       shapes st'
       = shapes typing
         ++ [Shape.mk "t9" TText
               [snapPoint typing
                  (toWorldCoords typing (TextInput.x ti) (TextInput.y ti))]
               (color typing) (brushSize typing / scale typing) false None None
               (Some (TextInput.value ti))]
       /\ shapes (undo st') = shapes typing))
  /\ ((isBlank (TextInput.value (textInput typingSpaces)) = true)
      /\ (let st' := handleTextSubmit "t9" typingSpaces in
          shapes st' = shapes typingSpaces
          /\ undoStack st' = undoStack typingSpaces
          /\ redoStack st' = redoStack typingSpaces)).
Proof.
  split.
  - split; [reflexivity |].
    exact (proj2 (proj2 (proj2 (proj2 (proj2 (text_entry_outcomes "t9" typing)))))
             eq_refl).
  - split; [reflexivity |].
    exact (proj1 (proj2 (proj2 (proj2 (proj2
                   (text_entry_outcomes "t9" typingSpaces))))) eq_refl).
Defined.

(** ** The space bar borrows the hand tool *)

Lemma handleKeyDown_space (c m sh : bool) (rnd : string) (st : State) :
  TextInput.visible (textInput st) = false ->
  handleKeyDown false rnd (spaceKey c m sh) st
  = if negb (isSpacePressed st)
    then setTool THand (setPreviousTool (tool st) (setIsSpacePressed true st))
    else st.
Proof.
  intros Ev. unfold handleKeyDown, spaceKey. rewrite Ev.
  change (keyIs (mkKey " " c m sh) "Shift") with false.
  change (keyIs (mkKey " " c m sh) " ") with true.
  change (keyIs (mkKey " " c m sh) "Backspace") with false.
  change (keyIs (mkKey " " c m sh) "Delete") with false.
  cbv beta iota zeta. simpl andb. simpl orb. cbv iota.
  unfold arrows, shortcuts.
  destruct (isSpacePressed st); simpl negb; cbv iota;
    destruct c, m; simpl;
    match goal with
    | |- (if truthyId ?x then _ else _) = _ => destruct (truthyId x)
    end; reflexivity.
Qed.

(** X18. Pressing the space bar (no text entry open, focus outside an input
    field) switches to the hand tool, so that every pointer down pans; key
    repeats while it is held change nothing more; releasing it gives back
    the tool that was active, and the scene and selection are the same
    throughout. *)
Theorem space_bar_borrows_hand_tool (c m sh : bool) (rnd : string)
    (st : State) :
  TextInput.visible (textInput st) = false -> isSpacePressed st = false ->
  let held := handleKeyDown false rnd (spaceKey c m sh) st in
  let released := handleKeyUp (spaceKey c m sh) held in
  tool held = THand
  /\ (forall e, panTrigger e held = true)
  /\ handleKeyDown false rnd (spaceKey c m sh) held = held
  /\ tool released = tool st /\ isSpacePressed released = false
  /\ shapes released = shapes st
  /\ selectedShapeId released = selectedShapeId st
  /\ undoStack released = undoStack st.
Proof.
  intros Ev Hsp. cbv zeta.
  rewrite (handleKeyDown_space c m sh rnd st Ev), Hsp. simpl negb. cbv iota.
  set (held := setTool THand
                 (setPreviousTool (tool st) (setIsSpacePressed true st))).
  assert (Ev' : TextInput.visible (textInput held) = false)
    by (destruct st; exact Ev).
  split; [reflexivity |]. split.
  { intros e. unfold panTrigger. destruct st; reflexivity. }
  split.
  { rewrite (handleKeyDown_space c m sh rnd held Ev').
    destruct st; reflexivity. }
  unfold handleKeyUp, spaceKey. rewrite Ev'.
  change (keyIs (mkKey " " c m sh) "Shift") with false.
  change (keyIs (mkKey " " c m sh) " ") with true.
  cbv beta iota zeta.
  destruct st; repeat split; reflexivity.
Qed.

Lemma space_bar_borrows_hand_tool_witness :
  TextInput.visible (textInput zoomedScene) = false
  /\ isSpacePressed zoomedScene = false
  /\ (let held := handleKeyDown false "k" (spaceKey false false false)
                    zoomedScene in
      let released := handleKeyUp (spaceKey false false false) held in
      tool held = THand
      /\ (forall e, panTrigger e held = true)
      /\ handleKeyDown false "k" (spaceKey false false false) held = held
      /\ tool released = tool zoomedScene /\ isSpacePressed released = false
      /\ shapes released = shapes zoomedScene
      /\ selectedShapeId released = selectedShapeId zoomedScene
      /\ undoStack released = undoStack zoomedScene).
Proof.
  split; [reflexivity |]. split; [reflexivity |].
  exact (space_bar_borrows_hand_tool false false false "k" zoomedScene
           eq_refl eq_refl).
Defined.

(** ** Rotation, handles, snapping and export *)

Lemma Math_atan2_axes (d : R) :
  0 < d ->
  Math_atan2 (- d) 0 = - (PI / 2) /\ Math_atan2 0 d = 0
  /\ Math_atan2 d 0 = PI / 2 /\ Math_atan2 0 (- d) = PI.
Proof.
  intros Hd. unfold Math_atan2. repeat split; decide_R.
  - reflexivity.
  - replace (0 / d) with 0 by (field; lra). apply atan_0.
  - reflexivity.
  - replace (0 / - d) with 0 by (field; lra). rewrite atan_0. lra.
Qed.

(** X19. While rotating, the angle given to the selected shape follows the
    pointer around the rotation centre with the handle's resting position,
    straight above the centre, as zero: above gives 0, to the right a
    quarter turn, below half a turn, to the left three quarters. *)
Theorem rotation_follows_pointer (cmp : Compass) (d : R) (sel : option string)
    (s : Shape.t) (p1 p2 : Point.t) :
  0 < d -> idIs sel s = true -> anchors (Shape.points s) = Some (p1, p2) ->
  let c := rotationCenter p1 p2 in
  let pos := Point.mk (Point.x c + fst (compassOffset cmp d))
                      (Point.y c + snd (compassOffset cmp d)) in
  exists a,
    rotateShape sel pos s = Some (Shape.setRotation (Some a) s)
    /\ a = compassAngle cmp.
Proof.
  intros Hd Hs Ha. cbv zeta. unfold rotateShape. rewrite Hs, Ha. simpl negb.
  cbv iota. eexists. split; [reflexivity |].
  destruct (Math_atan2_axes d Hd) as (N & E & S & W).
  set (c := rotationCenter p1 p2).
  destruct cmp; cbn [compassOffset compassAngle fst snd Point.x Point.y].
  - replace (Point.y c + - d - Point.y c) with (- d) by ring.
    replace (Point.x c + 0 - Point.x c) with 0 by ring.
    rewrite N. lra.
  - replace (Point.y c + 0 - Point.y c) with 0 by ring.
    replace (Point.x c + d - Point.x c) with d by ring.
    rewrite E. lra.
  - replace (Point.y c + d - Point.y c) with d by ring.
    replace (Point.x c + 0 - Point.x c) with 0 by ring.
    rewrite S. lra.
  - replace (Point.y c + 0 - Point.y c) with 0 by ring.
    replace (Point.x c + - d - Point.x c) with (- d) by ring.
    rewrite W. lra.
Qed.

Lemma rotation_follows_pointer_witness :
  0 < 30 /\ idIs (Some "r2"%string) plainRect = true
  /\ anchors (Shape.points plainRect) = Some (Point.mk 0 0, Point.mk 100 50)
  /\ (let c := rotationCenter (Point.mk 0 0) (Point.mk 100 50) in
      let pos := Point.mk (Point.x c + fst (compassOffset West 30))
                          (Point.y c + snd (compassOffset West 30)) in
      exists a,
        rotateShape (Some "r2"%string) pos plainRect
        = Some (Shape.setRotation (Some a) plainRect)
        /\ a = compassAngle West).
Proof.
  assert (H : 0 < 30) by lra.
  split; [exact H |]. split; [reflexivity |]. split; [reflexivity |].
  exact (rotation_follows_pointer West 30 (Some "r2"%string) plainRect
           (Point.mk 0 0) (Point.mk 100 50) H eq_refl eq_refl).
Defined.

(** X20. With the selection tool on a selected unlocked shape, a pointer
    down that hits the rotation handle starts a rotation and one that hits
    a resize handle (and not the rotation handle) starts a resize with that
    handle, whatever lies under the pointer: no drag starts and the
    selection stays. A shape with fewer than two points has no handles. *)
Theorem handles_take_priority (rect : DOMRect) (rnd : string)
    (e : PointerEvent) (st : State) (s : Shape.t) :
  panTrigger e st = false -> tool st = TMove ->
  truthyId (selectedShapeId st) = true ->
  find (idIs (selectedShapeId st)) (shapes st) = Some s ->
  Shape.locked s = false ->
  let pos := toWorldCoords st (clientX e - left rect) (clientY e - top rect) in
  (checkRotationHandleHit st pos s = true ->
   startDrawing (Some rect) rnd e st
   = Some (setStartPos pos (setIsRotating true st)))
  /\ (forall h,
        checkRotationHandleHit st pos s = false ->
        checkResizeHandleHit st pos s = Some h ->
        startDrawing (Some rect) rnd e st
        = Some (setCurrentPos pos
                  (setStartPos pos
                     (setActiveResizeHandle (Some h) (setIsResizing true st)))))
  /\ ((List.length (Shape.points s) < 2)%nat ->
      checkRotationHandleHit st pos s = false
      /\ checkResizeHandleHit st pos s = None).
Proof.
  intros Hpan Ht Hsel Hf Hl. cbv zeta.
  unfold panTrigger in Hpan.
  split; [| split].
  - intros Hr. unfold startDrawing. cbv zeta. rewrite Hpan, Ht, Hsel, Hf, Hl.
    cbn [Tool_eqb andb negb Point.x Point.y]. rewrite Hr. reflexivity.
  - intros h Hr Hh. unfold startDrawing. cbv zeta.
    rewrite Hpan, Ht, Hsel, Hf, Hl.
    cbn [Tool_eqb andb negb Point.x Point.y]. rewrite Hr, Hh. reflexivity.
  - intros Hlen. unfold checkRotationHandleHit, checkResizeHandleHit.
    destruct (Shape.points s) as [| a [| b r]]; simpl in Hlen; try lia; auto.
Qed.

Lemma rectSelected_rotation_handle :
  checkRotationHandleHit rectSelected
    (toWorldCoords rectSelected (clientX (click 50 (-30)) - left (mkRect 0 0))
                   (clientY (click 50 (-30)) - top (mkRect 0 0))) plainRect
  = true.
Proof.
  unfold checkRotationHandleHit. run.
  rewrite (Rmin_left 0 50) by lra.
  rewrite Rltb_dist by lra. decide_R. reflexivity.
Qed.

Lemma rectSelected_resize_handle :
  checkRotationHandleHit rectSelected
    (toWorldCoords rectSelected (clientX (click 100 50) - left (mkRect 0 0))
                   (clientY (click 100 50) - top (mkRect 0 0))) plainRect
  = false
  /\ checkResizeHandleHit rectSelected
       (toWorldCoords rectSelected (clientX (click 100 50) - left (mkRect 0 0))
                      (clientY (click 100 50) - top (mkRect 0 0))) plainRect
     = Some Hse.
Proof.
  split.
  - unfold checkRotationHandleHit. run.
    rewrite (Rmin_left 0 50) by lra.
    rewrite Rltb_dist by lra. decide_R. reflexivity.
  - unfold checkResizeHandleHit. run.
    rewrite !(Rmin_left 0 100), !(Rmax_right 0 100), !(Rmin_left 0 50),
      !(Rmax_right 0 50) by lra.
    rewrite !Rltb_dist by lra. decide_R. reflexivity.
Qed.

Lemma handles_take_priority_witness :
  (panTrigger (click 50 (-30)) rectSelected = false
   /\ tool rectSelected = TMove
   /\ find (idIs (selectedShapeId rectSelected)) (shapes rectSelected)
      = Some plainRect
   /\ Shape.locked plainRect = false
   /\ let pos := toWorldCoords rectSelected
                   (clientX (click 50 (-30)) - left (mkRect 0 0))
                   (clientY (click 50 (-30)) - top (mkRect 0 0)) in
      checkRotationHandleHit rectSelected pos plainRect = true
      /\ startDrawing canvas "z" (click 50 (-30)) rectSelected
         = Some (setStartPos pos (setIsRotating true rectSelected)))
  /\ (panTrigger (click 100 50) rectSelected = false
      /\ let pos := toWorldCoords rectSelected
                      (clientX (click 100 50) - left (mkRect 0 0))
                      (clientY (click 100 50) - top (mkRect 0 0)) in
         checkRotationHandleHit rectSelected pos plainRect = false
         /\ checkResizeHandleHit rectSelected pos plainRect = Some Hse
         /\ startDrawing canvas "z" (click 100 50) rectSelected
            = Some (setCurrentPos pos
                      (setStartPos pos
                         (setActiveResizeHandle (Some Hse)
                            (setIsResizing true rectSelected)))))
  /\ (panTrigger (click 0 0) labelScene = false /\ tool labelScene = TMove
      /\ truthyId (selectedShapeId labelScene) = true
      /\ find (idIs (selectedShapeId labelScene)) (shapes labelScene)
         = Some label
      /\ Shape.locked label = false
      /\ (List.length (Shape.points label) < 2)%nat
      /\ checkRotationHandleHit labelScene
           (toWorldCoords labelScene (clientX (click 0 0) - left (mkRect 0 0))
                          (clientY (click 0 0) - top (mkRect 0 0))) label
         = false
      /\ checkResizeHandleHit labelScene
           (toWorldCoords labelScene (clientX (click 0 0) - left (mkRect 0 0))
                          (clientY (click 0 0) - top (mkRect 0 0))) label
         = None).
Proof.
  assert (Hlen : (List.length (Shape.points label) < 2)%nat) by (simpl; lia).
  split; [| split].
  - split; [reflexivity |]. split; [reflexivity |]. split; [reflexivity |].
    split; [reflexivity |]. cbv zeta.
    split; [exact rectSelected_rotation_handle |].
    exact (proj1 (handles_take_priority (mkRect 0 0) "z" (click 50 (-30))
                    rectSelected plainRect eq_refl eq_refl eq_refl eq_refl
                    eq_refl) rectSelected_rotation_handle).
  - split; [reflexivity |]. cbv zeta.
    split; [exact (proj1 rectSelected_resize_handle) |].
    split; [exact (proj2 rectSelected_resize_handle) |].
    exact (proj1 (proj2 (handles_take_priority (mkRect 0 0) "z" (click 100 50)
                           rectSelected plainRect eq_refl eq_refl eq_refl
                           eq_refl eq_refl)) Hse
             (proj1 rectSelected_resize_handle)
             (proj2 rectSelected_resize_handle)).
  - split; [reflexivity |]. split; [reflexivity |]. split; [reflexivity |].
    split; [reflexivity |]. split; [reflexivity |]. split; [exact Hlen |].
    exact (proj2 (proj2 (handles_take_priority (mkRect 0 0) "z" (click 0 0)
                           labelScene label eq_refl eq_refl eq_refl eq_refl
                           eq_refl)) Hlen).
Defined.

Lemma Math_round_integer (k : Z) : Math_round (IZR k) = IZR k.
Proof. apply Math_round_eval. lra. Qed.

(** X21. Snapping is idempotent: with grid snap on and a nonzero spacing, a
    coordinate that was snapped is left as it is by a second snap, and so
    is every coordinate that is a multiple of the spacing. *)
Theorem applySnap_idempotent (st : State) (v : R) :
  snapToGrid st = true -> gridSpacing st <> 0 ->
  applySnap st (applySnap st v) = applySnap st v
  /\ (onGrid (gridSpacing st) v -> applySnap st v = v).
Proof.
  intros Hs Hg.
  assert (Hfix : forall w, onGrid (gridSpacing st) w -> applySnap st w = w).
  { intros w [k ->]. unfold applySnap. rewrite Hs. simpl negb. cbv iota.
    replace (IZR k * gridSpacing st / gridSpacing st) with (IZR k)
      by (field; exact Hg).
    rewrite Math_round_integer. reflexivity. }
  split; [| apply Hfix].
  apply Hfix. apply applySnap_onGrid. exact Hs.
Qed.

Lemma applySnap_idempotent_witness :
  snapToGrid snapOn = true /\ gridSpacing snapOn <> 0
  /\ applySnap snapOn (applySnap snapOn 57) = applySnap snapOn 57
  /\ (onGrid (gridSpacing snapOn) 57 -> applySnap snapOn 57 = 57).
Proof.
  assert (Hg : gridSpacing snapOn <> 0) by (simpl; lra).
  split; [reflexivity |]. split; [exact Hg |].
  exact (applySnap_idempotent snapOn 57 eq_refl Hg).
Defined.

Lemma fold_Rmin_le (l : list R) (a : R) :
  fold_left Rmin l a <= a /\ forall x, In x l -> fold_left Rmin l a <= x.
Proof.
  revert a. induction l as [| b l IH]; intros a.
  - simpl. split; [lra | intros x []].
  - cbn [fold_left]. destruct (IH (Rmin a b)) as [H1 H2].
    pose proof (Rmin_l a b). pose proof (Rmin_r a b).
    split; [lra |]. intros x [<- | Hx]; [lra | apply H2; exact Hx].
Qed.

Lemma fold_Rmax_ge (l : list R) (a : R) :
  a <= fold_left Rmax l a /\ forall x, In x l -> x <= fold_left Rmax l a.
Proof.
  revert a. induction l as [| b l IH]; intros a.
  - simpl. split; [lra | intros x []].
  - cbn [fold_left]. destruct (IH (Rmax a b)) as [H1 H2].
    pose proof (Rmax_l a b). pose proof (Rmax_r a b).
    split; [lra |]. intros x [<- | Hx]; [lra | apply H2; exact Hx].
Qed.

Lemma extremum_bounds (l : list R) (lo hi : R) :
  extremum Rmin l = Some lo -> extremum Rmax l = Some hi ->
  forall x, In x l -> lo <= x <= hi.
Proof.
  destruct l as [| a l]; [discriminate |]. simpl.
  intros [= <-] [= <-] x Hx.
  destruct (fold_Rmin_le l a) as [A1 A2].
  destruct (fold_Rmax_ge l a) as [B1 B2].
  destruct Hx as [<- | Hx]; [lra |].
  split; [apply A2 | apply B2]; exact Hx.
Qed.

(** X22. The frame of the vector export contains every point of every
    shape with a margin of 20 on each side, so it is at least 40 wide and
    40 high; the export computes no frame only when the scene has no
    point. *)
Theorem exportFrame_contains_scene (st : State) :
  match exportFrame st with
  | Some f =>
      (forall s p, In s (shapes st) -> In p (Shape.points s) ->
                   insideFrame 20 f p)
      /\ 40 <= f_width f /\ 40 <= f_height f
  | None => flat_map Shape.points (shapes st) = []
  end.
Proof.
  unfold exportFrame. destruct (shapes st) as [| s0 l] eqn:Esh; [reflexivity |].
  cbv zeta. set (pts := flat_map Shape.points (s0 :: l)).
  destruct (extremum Rmin (map Point.x pts)) as [lx |] eqn:E1.
  2:{ destruct pts; [reflexivity | discriminate]. }
  destruct (extremum Rmax (map Point.x pts)) as [hx |] eqn:E2.
  2:{ destruct pts; discriminate. }
  destruct (extremum Rmin (map Point.y pts)) as [ly |] eqn:E3.
  2:{ destruct pts; discriminate. }
  destruct (extremum Rmax (map Point.y pts)) as [hy |] eqn:E4.
  2:{ destruct pts; discriminate. }
  assert (Hin : forall p, In p pts -> lx <= Point.x p <= hx
                                      /\ ly <= Point.y p <= hy).
  { intros p Hp. split.
    - apply (extremum_bounds _ _ _ E1 E2). apply in_map. exact Hp.
    - apply (extremum_bounds _ _ _ E3 E4). apply in_map. exact Hp. }
  split.
  - intros s p Hs Hp.
    assert (Hpp : In p pts).
    { unfold pts. apply in_flat_map. exists s. split; assumption. }
    destruct (Hin p Hpp) as [Hx Hy]. unfold insideFrame. simpl. lra.
  - destruct pts as [| p rest]; [discriminate |].
    destruct (Hin p (or_introl eq_refl)) as [Hx Hy]. simpl. lra.
Qed.

Lemma exportFrame_contains_scene_witness :
  exists f,
    exportFrame zoomedScene = Some f
    /\ insideFrame 20 f (Point.mk 100 50)
    /\ 40 <= f_width f /\ 40 <= f_height f.
Proof.
  pose proof (exportFrame_contains_scene zoomedScene) as H.
  destruct (exportFrame zoomedScene) as [f |].
  - exists f. destruct H as (Hin & Hw & Hh).
    split; [reflexivity |]. split; [| split; assumption].
    apply (Hin plainRect); [left; reflexivity | right; left; reflexivity].
  - discriminate H.
Defined.

(** ** Drawing gestures, exactly *)

Lemma sample_sameSettings (st0 st : State) (rect : DOMRect)
    (e : PointerEvent) :
  sameSettings st0 st -> sample st rect e = sample st0 rect e.
Proof.
  intros (Hs & Ho & Hsn & Hg & _).
  unfold sample, snapPoint, applySnap, toWorldCoords.
  rewrite Hs, Ho, Hsn, Hg. reflexivity.
Qed.

Lemma startDrawing_stroke (rect : DOMRect) (rnd : string) (e : PointerEvent)
    (st : State) :
  plainDown e st -> noGesture st -> isFreehand (tool st) = true ->
  exists st1, startDrawing (Some rect) rnd e st = Some st1
              /\ StrokeGrows rnd st [sample st rect e] st1.
Proof.
  intros (Hsp & Hb1 & Hb2) Hng Hf.
  destruct (isFreehand_not_move _ Hf) as (Hm & Hh & Ht).
  unfold startDrawing. rewrite Hsp, Hb1, Hb2, Hm, Hh, Ht, Hf.
  cbv beta iota zeta. simpl orb. simpl andb. cbv beta iota.
  eexists. split; [reflexivity |].
  destruct st; unfold StrokeGrows, noGesture, sameSettings, strokeOf, sample in *;
    simpl in *.
  repeat split; auto; tauto.
Qed.

Lemma draw_stroke (rect : DOMRect) (rnd : string) (e : PointerEvent)
    (st0 st : State) (pts : list Point.t) :
  isFreehand (tool st0) = true ->
  StrokeGrows rnd st0 pts st ->
  exists st', draw (Some rect) e st = Some st'
              /\ StrokeGrows rnd st0 (pts ++ [sample st0 rect e]) st'.
Proof.
  intros Hf0 (Hsh & Hd & (Hp & Hdr & Hrs & Hro) & Hset).
  pose proof (sample_sameSettings st0 st rect e Hset) as Hsample.
  destruct Hset as (Hs & Ho & Hsn & Hg & Ht & Hc & Hb & Hfi & Hsf & Hu & Hr).
  assert (Hf : isFreehand (tool st) = true) by (rewrite Ht; exact Hf0).
  destruct (isFreehand_not_move _ Hf) as (Hm & Hh & Htx).
  unfold draw. rewrite Hp, Hm, Hdr, Hrs, Hro, Hd, Hf.
  cbv beta iota zeta. simpl andb. cbv beta iota.
  assert (Hnew : StrokeGrows rnd st0 (pts ++ [sample st0 rect e])
            (setShapes (appendSample (sample st rect e) (shapes st))
               (setCurrentPos (sample st rect e) st))).
  { rewrite Hsample. unfold appendSample. rewrite Hsh, lastOpt_app.
    unfold strokeOf at 1. cbn [Shape.tool]. rewrite Hf0, removelast_last.
    destruct st; unfold StrokeGrows, noGesture, sameSettings, strokeOf in *;
      simpl in *.
    repeat split; auto. }
  destruct (activeResizeHandle st);
    (eexists; split; [reflexivity | exact Hnew]).
Qed.

Lemma drawAll_stroke (rect : DOMRect) (rnd : string) (es : list PointerEvent)
    (st0 st : State) (pts : list Point.t) :
  isFreehand (tool st0) = true ->
  StrokeGrows rnd st0 pts st ->
  exists st', drawAll (Some rect) es st = Some st'
              /\ StrokeGrows rnd st0 (pts ++ map (sample st0 rect) es) st'.
Proof.
  intros Hf0. revert st pts. induction es as [| e es IH]; intros st pts H.
  - exists st. simpl. rewrite app_nil_r. auto.
  - cbn [drawAll map].
    destruct (draw_stroke rect rnd e st0 st pts Hf0 H) as [st1 [-> H1]].
    destruct (IH st1 _ H1) as [st2 [E2 H2]].
    exists st2. split; [exact E2 |]. rewrite <- app_assoc in H2. exact H2.
Qed.

Lemma stopDrawing_after_stroke (rnd : string) (st : State) :
  isDrawing st = true -> noGesture st -> isFreehand (tool st) = true ->
  shapes (stopDrawing rnd st) = shapes st
  /\ isDrawing (stopDrawing rnd st) = false.
Proof.
  intros Hd (Hp & Hdr & Hrs & Hro) Hf.
  unfold stopDrawing. rewrite Hp, Hdr, Hrs, Hro, Hd. simpl orb. simpl negb.
  cbv iota. destruct (tool st); try discriminate; destruct st; auto.
Qed.

(** X23. A freehand gesture (pencil or eraser) appends one stroke that
    holds one point per pointer sample, in order: the recorded position of
    the pointer down followed by that of every pointer move; it carries the
    current colour and the brush size divided by the scale, is unfilled,
    unlocked and unrotated, and the shapes that were there are unchanged. *)
Theorem freehand_gesture_records_samples (rect : DOMRect) (rnd1 rnd2 : string)
    (down : PointerEvent) (moves : list PointerEvent) (st : State) :
  plainDown down st -> noGesture st -> isFreehand (tool st) = true ->
  exists st',
    gesture (Some rect) rnd1 rnd2 down moves st = Some st'
    /\ shapes st'
       = shapes st
         ++ [Shape.mk rnd1 (tool st) (map (sample st rect) (down :: moves))
                      (color st) (brushSize st / scale st) false
                      None None None]
    /\ isDrawing st' = false.
Proof.
  intros Hdown Hng Hf. unfold gesture.
  destruct (startDrawing_stroke rect rnd1 down st Hdown Hng Hf)
    as [st1 [-> H1]].
  destruct (drawAll_stroke rect rnd1 moves st st1 _ Hf H1) as [st2 [-> H2]].
  eexists. split; [reflexivity |].
  destruct H2 as (Hsh & Hd & Hng2 & Hset).
  destruct Hset as (_ & _ & _ & _ & Ht & _).
  assert (Hf2 : isFreehand (tool st2) = true) by (rewrite Ht; exact Hf).
  destruct (stopDrawing_after_stroke rnd2 st2 Hd Hng2 Hf2) as [E1 E2].
  split; [| exact E2]. rewrite E1, Hsh. reflexivity.
Qed.

Lemma freehand_gesture_records_samples_witness :
  plainDown (click 10 10) pencilTool /\ noGesture pencilTool
  /\ isFreehand (tool pencilTool) = true
  /\ exists st',
      gesture (Some (mkRect 0 0)) "s1" "s2" (click 10 10)
              [click 20 10; click 30 10] pencilTool = Some st'
      /\ shapes st'
         = shapes pencilTool
           ++ [Shape.mk "s1" (tool pencilTool)
                 (map (sample pencilTool (mkRect 0 0))
                      (click 10 10 :: [click 20 10; click 30 10]))
                 (color pencilTool) (brushSize pencilTool / scale pencilTool)
                 false None None None]
      /\ isDrawing st' = false.
Proof.
  assert (H1 : plainDown (click 10 10) pencilTool) by (repeat split).
  assert (H2 : noGesture pencilTool) by (repeat split).
  split; [exact H1 |]. split; [exact H2 |]. split; [reflexivity |].
  exact (freehand_gesture_records_samples (mkRect 0 0) "s1" "s2" (click 10 10)
           [click 20 10; click 30 10] pencilTool H1 H2 eq_refl).
Defined.

Lemma startDrawing_box (rect : DOMRect) (rnd : string) (e : PointerEvent)
    (st : State) :
  plainDown e st -> noGesture st -> twoPointTool (tool st) = true ->
  exists st1, startDrawing (Some rect) rnd e st = Some st1
              /\ BoxStretches st (sample st rect e) (sample st rect e) st1
              /\ selectedShapeId st1 = None.
Proof.
  intros (Hsp & Hb1 & Hb2) Hng Htp.
  destruct (twoPointTool_cases _ Htp) as (Hm & Hh & Ht & Hf & _).
  unfold startDrawing. rewrite Hsp, Hb1, Hb2, Hm, Hh, Ht, Hf.
  cbv beta iota zeta. simpl orb. simpl andb. cbv beta iota.
  eexists. split; [reflexivity |].
  destruct st; unfold BoxStretches, noGesture, sameSettings, sample in *;
    simpl in *.
  repeat split; auto; tauto.
Qed.

Lemma draw_box (rect : DOMRect) (e : PointerEvent) (st0 st : State)
    (a c : Point.t) :
  twoPointTool (tool st0) = true ->
  BoxStretches st0 a c st -> selectedShapeId st = None ->
  exists st', draw (Some rect) e st = Some st'
              /\ BoxStretches st0 a (sample st0 rect e) st'
              /\ selectedShapeId st' = None.
Proof.
  intros Htp0 (Hsh & Hd & (Hp & Hdr & Hrs & Hro) & Hset & Hsp & Hcp) Hsel.
  pose proof (sample_sameSettings st0 st rect e Hset) as Hsample.
  destruct Hset as (Hs & Ho & Hsn & Hg & Ht & Hc & Hb & Hfi & Hsf & Hu & Hr).
  assert (Htp : twoPointTool (tool st) = true) by (rewrite Ht; exact Htp0).
  destruct (twoPointTool_cases _ Htp) as (Hm & Hh & Htx & Hf & _).
  unfold draw. rewrite Hp, Hm, Hdr, Hrs, Hro, Hd, Hf.
  cbv beta iota zeta. simpl andb. cbv beta iota.
  assert (Hnew : BoxStretches st0 a (sample st0 rect e)
                   (setCurrentPos (sample st rect e) st)
                 /\ selectedShapeId (setCurrentPos (sample st rect e) st)
                    = None).
  { rewrite Hsample.
    destruct st; unfold BoxStretches, noGesture, sameSettings in *; simpl in *.
    repeat split; auto. }
  destruct (activeResizeHandle st);
    (eexists; split; [reflexivity | exact Hnew]).
Qed.

Lemma drawAll_box (rect : DOMRect) (es : list PointerEvent) (st0 st : State)
    (a c : Point.t) :
  twoPointTool (tool st0) = true ->
  BoxStretches st0 a c st -> selectedShapeId st = None ->
  exists st', drawAll (Some rect) es st = Some st'
              /\ BoxStretches st0 a (last (map (sample st0 rect) es) c) st'
              /\ selectedShapeId st' = None.
Proof.
  intros Htp0. revert st c. induction es as [| e es IH]; intros st c H Hsel.
  - exists st. auto.
  - cbn [drawAll map].
    destruct (draw_box rect e st0 st a c Htp0 H Hsel) as [st1 [-> [H1 S1]]].
    destruct (IH st1 _ H1 S1) as [st2 [E2 [H2 S2]]].
    exists st2. split; [exact E2 |]. split; [| exact S2].
    rewrite last_cons_default. exact H2.
Qed.

(** X24. A gesture with a two-point tool (rectangle, rounded rectangle,
    circle, line, dashed line, arrow) and Shift up appends one shape of two
    points: the recorded position of the pointer down and the snap of the
    recorded position of the last pointer move (of the pointer down when
    the pointer did not move, a shape of zero size). It commits once: one
    undo gives back the scene without the shape. *)
Theorem twoPoint_gesture_draws_box (rect : DOMRect) (rnd1 rnd2 : string)
    (down : PointerEvent) (moves : list PointerEvent) (st : State) :
  plainDown down st -> noGesture st -> twoPointTool (tool st) = true ->
  isShiftPressed st = false ->
  exists st',
    gesture (Some rect) rnd1 rnd2 down moves st = Some st'
    /\ shapes st'
       = shapes st
         ++ [Shape.mk rnd2 (tool st)
               [sample st rect down;
                snapPoint st (sample st rect (last moves down))]
               (color st) (brushSize st / scale st) (isFilled st)
               None None None]
    /\ selectedShapeId st' = None
    /\ shapes (undo st') = shapes st.
Proof.
  intros Hdown Hng Htp Hshift. unfold gesture.
  destruct (startDrawing_box rect rnd1 down st Hdown Hng Htp)
    as [st1 [-> [H1 S1]]].
  destruct (drawAll_box rect moves st st1 _ _ Htp H1 S1)
    as [st2 [-> [H2 S2]]].
  eexists. split; [reflexivity |].
  destruct H2 as (Hsh & Hd & (Hp & Hdr & Hrs & Hro) & Hset & Hsp & Hcp).
  destruct Hset as (Hs & Ho & Hsn & Hg & Ht & Hc & Hb & Hfi & Hsf & Hu & Hr).
  assert (Hlast : last (map (sample st rect) moves) (sample st rect down)
                  = sample st rect (last moves down)).
  { clear. revert down. induction moves as [| e es IH]; intros down;
      [reflexivity |].
    cbn [map]. rewrite !last_cons_default. apply IH. }
  rewrite Hlast in Hcp.
  assert (Hsnap : forall v, applySnap st2 v = applySnap st v).
  { intros v. unfold applySnap. rewrite Hsn, Hg. reflexivity. }
  unfold stopDrawing. rewrite Hp, Hdr, Hrs, Hro, Hd. simpl orb. simpl negb.
  cbv iota. rewrite Ht, Hsf, Hshift. cbn [andb]. cbv beta iota zeta.
  rewrite !Hsnap, Hsp, Hcp, Hc, Hb, Hs, Hfi, Hsh.
  unfold undo.
  destruct (tool st) eqn:Et; try discriminate;
    (split; [destruct st2; reflexivity |]);
    (split; [destruct st2; exact S2 |]);
    match goal with
    | |- context [lastOpt (undoStack ?s)] =>
        assert (E : lastOpt (undoStack s) = Some (shapes st))
          by (destruct st2; simpl in *; subst; apply lastOpt_app)
    end; rewrite E; reflexivity.
Qed.

Lemma twoPoint_gesture_draws_box_witness :
  plainDown (click 10 10) rectTool /\ noGesture rectTool
  /\ twoPointTool (tool rectTool) = true
  /\ isShiftPressed rectTool = false
  /\ exists st',
      gesture (Some (mkRect 0 0)) "b1" "b2" (click 10 10)
              [click 50 40; click 90 70] rectTool = Some st'
      /\ shapes st'
         = shapes rectTool
           ++ [Shape.mk "b2" (tool rectTool)
                 [sample rectTool (mkRect 0 0) (click 10 10);
                  snapPoint rectTool
                    (sample rectTool (mkRect 0 0)
                            (last [click 50 40; click 90 70] (click 10 10)))]
                 (color rectTool) (brushSize rectTool / scale rectTool)
                 (isFilled rectTool) None None None]
      /\ selectedShapeId st' = None
      /\ shapes (undo st') = shapes rectTool.
Proof.
  assert (H1 : plainDown (click 10 10) rectTool) by (repeat split).
  assert (H2 : noGesture rectTool) by (repeat split).
  split; [exact H1 |]. split; [exact H2 |]. split; [reflexivity |].
  split; [reflexivity |].
  exact (twoPoint_gesture_draws_box (mkRect 0 0) "b1" "b2" (click 10 10)
           [click 50 40; click 90 70] rectTool H1 H2 eq_refl eq_refl).
Defined.

Lemma shiftPoint_compose (a b c d : R) (p : Point.t) :
  shiftPoint c d (shiftPoint a b p) = shiftPoint (a + c) (b + d) p.
Proof. unfold shiftPoint. simpl. f_equal; ring. Qed.

Lemma translateSelected_compose (sel : option string) (d1 d2 : R * R)
    (l : list Shape.t) :
  translateSelected sel d2 (translateSelected sel d1 l)
  = translateSelected sel (fst d1 + fst d2, snd d1 + snd d2) l.
Proof.
  unfold translateSelected. rewrite map_map. apply map_ext. intros s.
  destruct (idIs sel s) eqn:E.
  - assert (E' : idIs sel (Shape.setPoints
                             (map (shiftPoint (fst d1) (snd d1))
                                  (Shape.points s)) s) = true) by exact E.
    rewrite E'. unfold Shape.setPoints. simpl. f_equal.
    rewrite map_map. apply map_ext. intros p. apply shiftPoint_compose.
  - rewrite E. reflexivity.
Qed.

Lemma translateSelected_zero (sel : option string) (l : list Shape.t) :
  translateSelected sel (0, 0) l = l.
Proof.
  unfold translateSelected. rewrite <- (map_id l) at 2. apply map_ext.
  intros s. destruct (idIs sel s); [| reflexivity].
  destruct s as [i t pts c sz f lk r tx]. unfold Shape.setPoints. simpl.
  f_equal. rewrite <- (map_id pts) at 2. apply map_ext.
  intros [x y]. unfold shiftPoint. simpl. f_equal; ring.
Qed.

Lemma translateSelected_eq (sel : option string) (a b c d : R)
    (l : list Shape.t) :
  a = c -> b = d -> translateSelected sel (a, b) l = translateSelected sel (c, d) l.
Proof. intros -> ->. reflexivity. Qed.

Lemma draw_dragging (rect : DOMRect) (e : PointerEvent) (st0 st : State)
    (sel : option string) (c0 : Point.t) :
  truthyId sel = true -> Dragging st0 sel c0 st ->
  exists st', draw (Some rect) e st = Some st'
              /\ Dragging st0 sel c0 st'
              /\ currentPos st' = sample st0 rect e.
Proof.
  intros Htr (Hp & Hd & Hsel & Hset & Hsh).
  pose proof (sample_sameSettings st0 st rect e Hset) as Hsample.
  unfold draw. rewrite Hp, Hd, Hsel, Htr. simpl negb.
  rewrite !andb_false_r. cbv beta iota zeta. simpl andb. cbv iota.
  fold (sample st rect e). rewrite Hsample.
  eexists. split; [reflexivity |].
  assert (Hnew : translateSelected sel
                   (Point.x (sample st0 rect e) - Point.x (currentPos st),
                    Point.y (sample st0 rect e) - Point.y (currentPos st))
                   (shapes st)
                 = translateSelected sel
                     (Point.x (sample st0 rect e) - Point.x c0,
                      Point.y (sample st0 rect e) - Point.y c0) (shapes st0)).
  { rewrite Hsh, translateSelected_compose. cbn [fst snd].
    apply translateSelected_eq; ring. }
  unfold translateSelected in Hnew at 1.
  destruct st; unfold Dragging, sameSettings in *; simpl in *.
  repeat split; try tauto; try exact Hnew.
Qed.

Lemma drawAll_dragging (rect : DOMRect) (es : list PointerEvent)
    (st0 st : State) (sel : option string) (c0 : Point.t) :
  truthyId sel = true -> Dragging st0 sel c0 st ->
  exists st', drawAll (Some rect) es st = Some st'
              /\ Dragging st0 sel c0 st'
              /\ currentPos st'
                 = last (map (sample st0 rect) es) (currentPos st).
Proof.
  intros Htr. revert st. induction es as [| e es IH]; intros st H.
  - exists st. auto.
  - cbn [drawAll map].
    destruct (draw_dragging rect e st0 st sel c0 Htr H) as [st1 [-> [H1 C1]]].
    destruct (IH st1 H1) as [st2 [E2 [H2 C2]]].
    exists st2. split; [exact E2 |]. split; [exact H2 |].
    rewrite C2, C1, last_cons_default. reflexivity.
Qed.

Lemma gesture_drag (rect : DOMRect) (rnd1 rnd2 : string)
    (down : PointerEvent) (moves : list PointerEvent) (st : State)
    (hit : Shape.t) :
  plainDown down st -> noGesture st -> tool st = TMove ->
  selectedShapeId st = None ->
  topmostHit st (toWorldCoords st (clientX down - left rect)
                               (clientY down - top rect)) = Some (Some hit) ->
  Shape.locked hit = false -> truthyStr (Shape.id hit) = true ->
  exists st',
    gesture (Some rect) rnd1 rnd2 down moves st = Some st'
    /\ (let c0 := sample st rect down in
        let c1 := sample st rect (last moves down) in
        shapes st'
        = translateSelected (Some (Shape.id hit))
            (Point.x c1 - Point.x c0, Point.y c1 - Point.y c0) (shapes st))
    /\ selectedShapeId st' = Some (Shape.id hit)
    /\ isDragging st' = false.
Proof.
  intros (Hsp & Hb1 & Hb2) (Hp & Hdr & Hrs & Hro) Ht Hsel Hhit Hl Hid.
  unfold gesture.
  assert (E1 : startDrawing (Some rect) rnd1 down st
               = Some (setIsDragging true
                         (setSelectedShapeId (Some (Shape.id hit))
                            (setCurrentPos (sample st rect down)
                               (setStartPos (sample st rect down) st))))).
  { unfold startDrawing. cbv zeta. rewrite Hsp, Hb1, Hb2, Ht, Hsel.
    cbn [Tool_eqb orb andb truthyId Point.x Point.y]. cbv iota.
    rewrite Hhit, Hl. reflexivity. }
  rewrite E1.
  assert (H1 : Dragging st (Some (Shape.id hit)) (sample st rect down)
                 (setIsDragging true
                    (setSelectedShapeId (Some (Shape.id hit))
                       (setCurrentPos (sample st rect down)
                          (setStartPos (sample st rect down) st))))).
  { assert (Hz : shapes st
                 = translateSelected (Some (Shape.id hit))
                     (Point.x (sample st rect down) - Point.x (sample st rect down),
                      Point.y (sample st rect down) - Point.y (sample st rect down))
                     (shapes st)).
    { rewrite <- (translateSelected_zero (Some (Shape.id hit)) (shapes st)) at 1.
      apply translateSelected_eq; ring. }
    destruct st; unfold Dragging, sameSettings in *; simpl in *.
    repeat split; auto. }
  destruct (drawAll_dragging rect moves st _ (Some (Shape.id hit))
              (sample st rect down) Hid H1) as [st2 [-> [H2 C2]]].
  eexists. split; [reflexivity |].
  destruct H2 as (Hp2 & Hd2 & Hsel2 & Hset2 & Hsh2).
  assert (Hlast : currentPos st2 = sample st rect (last moves down)).
  { rewrite C2.
    assert (Hc : forall (es : list PointerEvent) d,
               last (map (sample st rect) es) (sample st rect d)
               = sample st rect (last es d)).
    { induction es as [| e es IH]; intros d; [reflexivity |].
      cbn [map]. rewrite !last_cons_default. apply IH. }
    destruct st; simpl. apply Hc. }
  cbv zeta. rewrite <- Hlast, <- Hsh2.
  unfold stopDrawing. rewrite Hp2, Hd2. simpl orb. cbv iota.
  destruct st2; simpl in *. repeat split; auto.
Qed.

(** X25. A drag with the selection tool: when nothing is selected and the
    topmost shape under the pointer is unlocked, the gesture selects it and
    translates every point of it by the recorded position of the last
    pointer move minus that of the pointer down, whatever the path in
    between, and leaves every other shape as it was. *)
Theorem drag_gesture_translates (rect : DOMRect) (rnd1 rnd2 : string)
    (down : PointerEvent) (moves : list PointerEvent) (st : State)
    (hit : Shape.t) :
  plainDown down st -> noGesture st -> tool st = TMove ->
  selectedShapeId st = None ->
  topmostHit st (toWorldCoords st (clientX down - left rect)
                               (clientY down - top rect)) = Some (Some hit) ->
  Shape.locked hit = false -> truthyStr (Shape.id hit) = true ->
  exists st',
    gesture (Some rect) rnd1 rnd2 down moves st = Some st'
    /\ (let c0 := sample st rect down in
        let c1 := sample st rect (last moves down) in
        shapes st'
        = translateSelected (Some (Shape.id hit))
            (Point.x c1 - Point.x c0, Point.y c1 - Point.y c0) (shapes st))
    /\ selectedShapeId st' = Some (Shape.id hit)
    /\ isDragging st' = false.
Proof.
  intros Hdown Hng Ht Hsel Hhit Hl Hid.
  apply gesture_drag; assumption.
Qed.

Lemma moveTool_hit :
  topmostHit moveTool (toWorldCoords moveTool (clientX (click 5 5) - left (mkRect 0 0))
                                     (clientY (click 5 5) - top (mkRect 0 0)))
  = Some (Some plainRect).
Proof.
  unfold topmostHit. simpl rev.
  cbn [findHit].
  assert (E : checkHit moveTool
                (toWorldCoords moveTool
                   (clientX (click 5 5) - left (mkRect 0 0))
                   (clientY (click 5 5) - top (mkRect 0 0))) plainRect
              = Some true).
  { unfold checkHit. simpl. unfold hitLocal. simpl.
    rewrite (Rmin_left 0 100), (Rmax_right 0 100), (Rmin_left 0 50),
      (Rmax_right 0 50) by lra.
    decide_R. reflexivity. }
  rewrite E. reflexivity.
Qed.

Lemma drag_gesture_translates_witness :
  plainDown (click 5 5) moveTool /\ noGesture moveTool
  /\ tool moveTool = TMove /\ selectedShapeId moveTool = None
  /\ Shape.locked plainRect = false /\ truthyStr (Shape.id plainRect) = true
  /\ exists st',
      gesture (Some (mkRect 0 0)) "d1" "d2" (click 5 5)
              [click 9 30; click 25 15] moveTool = Some st'
      /\ (let c0 := sample moveTool (mkRect 0 0) (click 5 5) in
          let c1 := sample moveTool (mkRect 0 0)
                           (last [click 9 30; click 25 15] (click 5 5)) in
          shapes st'
          = translateSelected (Some (Shape.id plainRect))
              (Point.x c1 - Point.x c0, Point.y c1 - Point.y c0)
              (shapes moveTool))
      /\ selectedShapeId st' = Some (Shape.id plainRect)
      /\ isDragging st' = false.
Proof.
  assert (H1 : plainDown (click 5 5) moveTool) by (repeat split).
  assert (H2 : noGesture moveTool) by (repeat split).
  split; [exact H1 |]. split; [exact H2 |]. split; [reflexivity |].
  split; [reflexivity |]. split; [reflexivity |]. split; [reflexivity |].
  exact (drag_gesture_translates (mkRect 0 0) "d1" "d2" (click 5 5)
           [click 9 30; click 25 15] moveTool plainRect H1 H2 eq_refl eq_refl
           moveTool_hit eq_refl eq_refl).
Defined.

(** ** Grid snap, gesture by gesture *)



